(** * file_builder: a shallow embedding of the caching engine

    The development follows the layout of the Python package:
    [json_util.py], [operation.py], [cache.py], [build_dirs.py],
    [created_files.py], [simple_operation_executor.py], [file_backups.py]
    and the [clean] entry point of [file_builder.py].

    Python values are modelled without object identity.  Effects on
    objects and on the file system are made explicit by state passing. *)

From Stdlib Require Import ZArith QArith Qcanon Ascii String.
From Stdlib Require Import Floats.SpecFloat.
From stdpp Require Import gmap strings list fin_maps sorting.

Set Warnings "-register-all,-clear-no-such-hyp,-notation-for-abbreviation".

Local Open Scope string_scope.
Local Open Scope list_scope.

(** ** Python dictionaries

    A [dict] keeps its insertion order and never holds two equal keys.  It is
    modelled as an association list; [keq] is the key comparison Python
    performs ([==]). *)

Section pydict.
Context {K V : Type} (keq : K → K → bool).

(** [d.get(key)] *)
Fixpoint dict_get (key : K) (d : list (K * V)) : option V :=
  match d with
  | [] => None
  | (k, v) :: d' => if keq k key then Some v else dict_get key d'
  end.

(** [key in d] *)
Definition dict_has (key : K) (d : list (K * V)) : bool :=
  match dict_get key d with Some _ => true | None => false end.

(** [d[key] = value]: an existing key keeps its position. *)
Fixpoint dict_set (key : K) (value : V) (d : list (K * V)) : list (K * V) :=
  match d with
  | [] => [(key, value)]
  | (k, v) :: d' =>
      if keq k key then (k, value) :: d' else (k, v) :: dict_set key value d'
  end.

Definition dict_keys (d : list (K * V)) : list K := d.*1.
Definition dict_values (d : list (K * V)) : list V := d.*2.
End pydict.

Definition str_eqb (a b : string) : bool := bool_decide (a = b).

(** ** json_util.py *)

Module JsonUtil.

  (** The Python values the module works on.  A sanitized value has no
      [JTuple]; [is_equal] also accepts tuples, and [to_hashable] returns
      tuples.  Floats are IEEE 754 values as specified by the standard
      library's [spec_float].  Dictionary keys are Python [str] objects. *)
Inductive json : Type :=
| JNone
| JBool (b : bool)
| JInt (z : Z)
| JFloat (f : spec_float)
| JStr (s : string)
| JList (l : list json)
| JTuple (l : list json)
| JDict (d : list (string * json)).

Section json_induction.
Variable P : json → Prop.
Hypothesis HNone : P JNone.
Hypothesis HBool : ∀ b, P (JBool b).
Hypothesis HInt : ∀ z, P (JInt z).
Hypothesis HFloat : ∀ f, P (JFloat f).
Hypothesis HStr : ∀ s, P (JStr s).
Hypothesis HList : ∀ l, Forall P l → P (JList l).
Hypothesis HTuple : ∀ l, Forall P l → P (JTuple l).
Hypothesis HDict : ∀ d, Forall (λ kv, P kv.2) d → P (JDict d).

Fixpoint json_nested_ind (v : json) : P v :=
  match v with
  | JNone => HNone
  | JBool b => HBool b
  | JInt z => HInt z
  | JFloat f => HFloat f
  | JStr s => HStr s
  | JList l =>
      HList l ((fix go (l : list json) : Forall P l :=
                  match l with
                  | [] => Forall_nil_2 P
                  | x :: l' => Forall_cons_2 P x l' (json_nested_ind x) (go l')
                  end) l)
  | JTuple l =>
      HTuple l ((fix go (l : list json) : Forall P l :=
                   match l with
                   | [] => Forall_nil_2 P
                   | x :: l' => Forall_cons_2 P x l' (json_nested_ind x) (go l')
                   end) l)
  | JDict d =>
      HDict d ((fix go (d : list (string * json)) : Forall (λ kv, P kv.2) d :=
                  match d with
                  | [] => Forall_nil_2 _
                  | kv :: d' =>
                      Forall_cons_2 (λ kv, P kv.2) kv d'
                        (json_nested_ind kv.2) (go d')
                  end) d)
  end.
End json_induction.

(** *** Numbers

    Python compares [bool], [int] and [float] by the exact number they
    denote; NaN is unequal to everything, itself included. *)
Inductive number : Type :=
| NNan
| NInf (negative : bool)
| NFin (q : Qc).

Global Instance number_eq_dec : EqDecision number.
Proof. solve_decision. Defined.

Definition number_of_float (f : spec_float) : number :=
  match f with
  | S754_zero _ => NFin (Q2Qc 0)
  | S754_infinity s => NInf s
  | S754_nan => NNan
  | S754_finite s m e =>
      NFin (Q2Qc (inject_Z (if s then Z.neg m else Z.pos m) * Qpower 2 e))
  end.

Definition number_of (v : json) : option number :=
  match v with
  | JBool b => Some (NFin (Q2Qc (inject_Z (if b then 1 else 0))))
  | JInt z => Some (NFin (Q2Qc (inject_Z z)))
  | JFloat f => Some (number_of_float f)
  | _ => None
  end.

Definition number_eqb (a b : number) : bool :=
  match a, b with
  | NNan, _ | _, NNan => false
  | _, _ => bool_decide (a = b)
  end.

(** Python's [v1 == v2] on these values.  Sequences compare element by
    element, dictionaries as unordered sets of items; a list never equals a
    tuple. *)
Fixpoint py_eq (v1 v2 : json) : bool :=
  match v1, v2 with
  | JNone, JNone => true
  | JStr s1, JStr s2 => str_eqb s1 s2
  | JList l1, JList l2 | JTuple l1, JTuple l2 =>
      (fix go (l1 l2 : list json) : bool :=
         match l1, l2 with
         | [], [] => true
         | x :: l1', y :: l2' => py_eq x y && go l1' l2'
         | _, _ => false
         end) l1 l2
  | JDict d1, JDict d2 =>
      bool_decide (length d1 = length d2) &&
      forallb (λ kv, match dict_get str_eqb kv.1 d2 with
                     | Some v' => py_eq kv.2 v'
                     | None => false
                     end) d1
  | _, _ =>
      match number_of v1, number_of v2 with
      | Some a, Some b => number_eqb a b
      | _, _ => false
      end
  end.

Definition is_bool (v : json) : bool :=
  match v with JBool _ => true | _ => false end.

(** [JsonUtil.is_equal] *)
Fixpoint is_equal (value1 value2 : json) : bool :=
  match value1 with
  | JList l1 | JTuple l1 =>
      match value2 with
      | JList l2 | JTuple l2 =>
          if negb (bool_decide (length l1 = length l2)) then false
          else
            (fix zip_loop (l1 l2 : list json) : bool :=
               match l1, l2 with
               | element1 :: l1', element2 :: l2' =>
                   if negb (is_equal element1 element2) then false
                   else zip_loop l1' l2'
               | _, _ => true
               end) l1 l2
      | _ => false
      end
  | JDict d1 =>
      match value2 with
      | JDict d2 =>
          if negb (bool_decide (length d1 = length d2)) then false
          else
            forallb (λ kv,
                match dict_get str_eqb kv.1 d2 with
                | None => false
                | Some value2_key => is_equal kv.2 value2_key
                end) d1
      | _ => false
      end
  | _ =>
      if negb (Bool.eqb (is_bool value1) (is_bool value2)) then false
      else py_eq value1 value2
  end.

(** [sorted(value.keys())] *)
Definition sorted_keys {V} (d : list (string * V)) : list string :=
  merge_sort String.le (dict_keys d).

(** [JsonUtil.to_hashable].  [to_hashable(value[key])] is read from the
    dictionary of converted values, so that the recursion stays on the
    items of [value]. *)
Fixpoint to_hashable (value : json) : json :=
  match value with
  | JList l => JTuple (JInt 0 :: map to_hashable l)
  | JDict d =>
      let hashables := map (λ kv, (kv.1, to_hashable kv.2)) d in
      JTuple
        (flat_map
           (λ key, [JStr key; default JNone (dict_get str_eqb key hashables)])
           (sorted_keys d))
  | JBool b => if b then JTuple [JInt 1] else JTuple [JInt 2]
  | _ => value
  end.

(** [JsonUtil._key_to_str] on a key of class [str]; keys of other classes
    are outside [json]. *)
Definition _key_to_str (key : string) : string := key.

(** [JsonUtil.sanitize].  Every [json] is a JSON value, so the [TypeError]
    branch is not reachable here. *)
Fixpoint sanitize (value : json) : json :=
  match value with
  | JList l | JTuple l => JList (map sanitize l)
  | JDict d =>
      JDict
        (fold_left
           (λ result kv,
              dict_set str_eqb (_key_to_str kv.1) (sanitize kv.2) result)
           d [])
  | _ => value
  end.

(** *** The domain of the functions

    [well_formed]: the value is a Python value, i.e. no dictionary holds a key
    twice.  [is_sanitized]: a possible result of [json.loads], i.e. well
    formed and without tuples.  [nan_free]: no float in it is NaN. *)
Fixpoint well_formed (v : json) : bool :=
  match v with
  | JList l | JTuple l => forallb well_formed l
  | JDict d =>
      bool_decide (NoDup (dict_keys d)) && forallb (λ kv, well_formed kv.2) d
  | _ => true
  end.

Fixpoint is_sanitized (v : json) : bool :=
  match v with
  | JList l => forallb is_sanitized l
  | JTuple _ => false
  | JDict d =>
      bool_decide (NoDup (dict_keys d)) && forallb (λ kv, is_sanitized kv.2) d
  | _ => true
  end.

Fixpoint nan_free (v : json) : bool :=
  match v with
  | JFloat S754_nan => false
  | JList l | JTuple l => forallb nan_free l
  | JDict d => forallb (λ kv, nan_free kv.2) d
  | _ => true
  end.

(** The values that Python can hash, and so use as the key of a [dict]: no
    list and no dictionary, also not inside a tuple.  [has_no_bool]: no
    [bool] either. *)
Fixpoint is_hashable (v : json) : bool :=
  match v with
  | JList _ | JDict _ => false
  | JTuple l => forallb is_hashable l
  | _ => true
  end.

Fixpoint has_no_bool (v : json) : bool :=
  match v with
  | JBool _ => false
  | JList l | JTuple l => forallb has_no_bool l
  | JDict d => forallb (λ kv, has_no_bool kv.2) d
  | _ => true
  end.

(** *** The built-in [hash]

    [hash] is not part of the package.  Python requires of it that objects
    that compare equal have the same hash value; the developments below take
    such a function as a parameter.  On an [int], CPython (64-bit build)
    returns the value reduced modulo the Mersenne prime [2^61 - 1], with the
    sign of the value, and [-2] where that would be [-1]; [hash] below is that
    part of the built-in, and [None] elsewhere. *)
Definition hash_int (z : Z) : Z :=
  let h := (Z.sgn z * (Z.abs z mod (2 ^ 61 - 1)))%Z in
  if (h =? -1)%Z then (-2)%Z else h.

Definition hash (v : json) : option Z :=
  match v with
  | JInt z => Some (hash_int z)
  | _ => None
  end.

(** A hash function that meets Python's requirement on every value: the
    numerator of the number a value denotes, and 0 for a value that is not a
    number. *)
Definition numerator_hash (v : json) : Z :=
  match number_of v with
  | Some (NFin q) => Qnum (this q)
  | _ => 0%Z
  end.

Definition is_number (v : json) : bool :=
  match v with JInt _ | JFloat _ => true | _ => false end.

(** *** Views of the loops, used to state lemmas *)

(** The loops of [py_eq] and [is_equal] over two sequences. *)
Definition all2b {A B} (f : A → B → bool) : list A → list B → bool :=
  fix go l1 l2 :=
    match l1, l2 with
    | [], [] => true
    | x :: l1', y :: l2' => f x y && go l1' l2'
    | _, _ => false
    end.

Definition zipb {A B} (f : A → B → bool) : list A → list B → bool :=
  fix zip_loop l1 l2 :=
    match l1, l2 with
    | x :: l1', y :: l2' => if negb (f x y) then false else zip_loop l1' l2'
    | _, _ => true
    end.

(** The items of the tuple [to_hashable] builds from a dictionary. *)
Definition hash_items (d : list (string * json)) : list json :=
  flat_map
    (λ key, [JStr key;
             default JNone
               (dict_get str_eqb key (map (λ kv, (kv.1, to_hashable kv.2)) d))])
    (sorted_keys d).

(** *** Example values *)

(** [{"name": ("a", 1.5), "flags": [True, None, -3]}] *)
Definition example_value : json :=
  JDict [("name", JTuple [JStr "a"; JFloat (S754_finite false 3 (-1))]);
         ("flags", JList [JBool true; JNone; JInt (-3)])].

(** [[1, {"b": 2, "a": [False]}]] and [[1.0, {"a": [False], "b": 2.0}]] *)
Definition example_sanitized : json :=
  JList [JInt 1; JDict [("b", JInt 2); ("a", JList [JBool false])]].

Definition example_sanitized_float : json :=
  JList [JFloat (S754_finite false 1 0);
         JDict [("a", JList [JBool false]);
                ("b", JFloat (S754_finite false 1 1))]].

End JsonUtil.

(** ** Exceptions and results

    The package raises [RuntimeError] with different messages; the
    constructors below keep them apart by what they report.
    [DuplicateBuild] is "Building the same file twice is not allowed",
    [DuplicateSubbuild] is "Calling the same subbuild function twice with the
    same arguments is not allowed", [CacheFormat] is "Error parsing cache
    file" (also "Error reading or parsing cache file" and the version
    message), [BuildNameMismatch] is "The cache file was created for the
    build named ...".  [ModelTypeError] marks a JSON value whose Python type
    does not fit the typed record of the model; Python itself would go on with
    an ill-typed object there. *)
Inductive exn : Type :=
| DuplicateBuild (filename : string)
| DuplicateSubbuild (func_name : string) (args kwargs : JsonUtil.json)
| CacheFormat
| BuildNameMismatch
| UnhandledOperationType
| KeyError (key : JsonUtil.json)
| TypeError
| AttributeError
| ModelTypeError
| FileNotFoundError
| IsADirectoryError
| NotADirectoryError
| OSError
| PermissionError
| FileExistsError
| RecursionError.

(** [isinstance(e, OSError)] *)
Definition is_OSError (e : exn) : bool :=
  match e with
  | FileNotFoundError | IsADirectoryError | NotADirectoryError | OSError
  | PermissionError | FileExistsError => true
  | _ => false
  end.

Inductive result (A : Type) : Type :=
| Ok (a : A)
| Raise (e : exn).
Arguments Ok {A} a.
Arguments Raise {A} e.

#[export] Instance result_ret : MRet result := @Ok.

#[export] Instance result_bind : MBind result := λ A B k r,
  match r with
  | Ok a => k a
  | Raise e => Raise e
  end.

(** ** os.path

    The package reaches the platform through [os.path.normcase] and
    [os.path.dirname] (the test suite replaces [normcase] to emulate a file
    system that ignores case).  What the package relies on is that
    [dirname] reaches a fixed point: a root or the empty string. *)
Class OsPath : Type := {
  normcase : string → string;
  dirname : string → string;
  join : string → string → string;
  dirname_shrinks :
    ∀ p, dirname p = p ∨ String.length (dirname p) < String.length p;
}.

Module posixpath.

Definition sep : ascii := "/"%char.

Definition is_sep (c : ascii) : bool := bool_decide (c = sep).

Fixpoint contains_sep (s : string) : bool :=
  match s with
  | EmptyString => false
  | String c r => is_sep c || contains_sep r
  end.

(** [p[:p.rfind('/') + 1]] *)
Fixpoint head_of (p : string) : string :=
  match p with
  | EmptyString => EmptyString
  | String c r => if contains_sep p then String c (head_of r) else EmptyString
  end.

(** [head.rstrip('/')] *)
Fixpoint rstrip_sep (s : string) : string :=
  match s with
  | EmptyString => EmptyString
  | String c r =>
      match rstrip_sep r with
      | EmptyString => if is_sep c then EmptyString else String c EmptyString
      | r' => String c r'
      end
  end.

(** [head == '/' * len(head)] *)
Fixpoint all_sep (s : string) : bool :=
  match s with
  | EmptyString => true
  | String c r => is_sep c && all_sep r
  end.

(** [posixpath.dirname] *)
Definition dirname (p : string) : string :=
  let head := head_of p in
  if negb (bool_decide (head = EmptyString)) && negb (all_sep head)
  then rstrip_sep head else head.

(** [posixpath.normcase] *)
Definition normcase (p : string) : string := p.

(** [posixpath.join(a, b)] *)
Definition join (a b : string) : string :=
  match b with
  | String c _ =>
      if is_sep c then b
      else if bool_decide (a = EmptyString) then b
      else if is_sep (default sep (last (list_ascii_of_string a)))
           then String.append a b
           else String.append a (String sep b)
  | EmptyString =>
      if bool_decide (a = EmptyString) then EmptyString
      else if is_sep (default sep (last (list_ascii_of_string a))) then a
      else String.append a (String sep EmptyString)
  end.

(** [posixpath.basename]: [p[p.rfind('/') + 1:]], the second component of
    [posixpath.split(p)]; the first one is [dirname p]. *)
Fixpoint basename (p : string) : string :=
  match p with
  | EmptyString => EmptyString
  | String c r => if contains_sep p then basename r else p
  end.

End posixpath.

(** ** The file system

    A file system maps a path to what is stored there.  Paths are the
    absolute, normalized strings that [FileBuilder._sanitize_filename]
    returns, so a file is identified with its path; links are not modelled.
    The content of a regular file is either a gzip stream holding a JSON
    document, given by the value [json.load] returns for it, or any other
    sequence of bytes. *)
Module os.
Import JsonUtil.

Inductive data : Type :=
| GzipJson (document : json)
| Bytes (content : string).

Inductive node : Type :=
| File (content : data)
| Dir.

Notation fs := (gmap string node).

(** [os.path.isfile], [os.path.isdir], [os.path.exists] *)
Definition isfile (files : fs) (path : string) : bool :=
  match files !! path with Some (File _) => true | _ => false end.

Definition isdir (files : fs) (path : string) : bool :=
  match files !! path with Some Dir => true | _ => false end.

Definition exists_ (files : fs) (path : string) : bool :=
  match files !! path with Some _ => true | None => false end.

(** The paths below a directory: with normalized POSIX paths these are the
    paths that extend the directory's path by a separator and more. *)
Definition is_below (dir_ path : string) : bool :=
  String.prefix (String.append dir_ "/") path.

(** The path that a path below [src] has once [src] is renamed to [dst]. *)
Definition moved (src dst path : string) : string :=
  if is_below src path
  then String.append dst
         (String.substring (String.length src)
            (String.length path - String.length src) path)
  else path.

(** Whether a directory has no entries. *)
Definition is_empty_dir (files : fs) (dir_ : string) : bool :=
  bool_decide (map_Forall (λ path _, is_below dir_ path = false) files).

Section with_os_path.
Context `{OsPath}.

(** The error of a system call on a path at which nothing is found:
    [ENOTDIR] when the nearest ancestor that is there is a regular file,
    [ENOENT] otherwise.  The search follows [dirname], which the length of
    the path bounds. *)
Fixpoint absent_error (depth : nat) (files : fs) (path : string) : exn :=
  match depth with
  | O => FileNotFoundError
  | S depth =>
      let head := dirname path in
      if bool_decide (head = path) then FileNotFoundError
      else match files !! head with
           | Some (File _) => NotADirectoryError
           | Some Dir => FileNotFoundError
           | None => absent_error depth files head
           end
  end.

Definition absent (files : fs) (path : string) : exn :=
  absent_error (String.length path) files path.

(** [os.mkdir] *)
Definition mkdir (files : fs) (path : string) : result fs :=
  if exists_ files path then Raise FileExistsError
  else match files !! dirname path with
       | Some Dir => Ok (<[path := Dir]> files)
       | Some (File _) => Raise NotADirectoryError
       | None => Raise (absent files (dirname path))
       end.

(** [os.makedirs(name, exist_ok=True)]: the missing parent directories are
    made first, a [FileExistsError] from them is passed over, and the error
    of the final [mkdir] is dropped when [name] is a directory.  The
    directories made before an error stay.  The recursion follows [dirname],
    which the length of the path bounds. *)
Fixpoint makedirs_rec (depth : nat) (files : fs) (name : string)
    : result unit * fs :=
  match depth with
  | O => (Raise RecursionError, files)
  | S depth =>
      let head := dirname name in
      let '(parents, files) :=
        if negb (bool_decide (head = EmptyString))
           && negb (bool_decide (head = name))
           && negb (exists_ files head)
        then match makedirs_rec depth files head with
             | (Raise FileExistsError, files) => (Ok (), files)
             | r => r
             end
        else (Ok (), files) in
      match parents with
      | Raise e => (Raise e, files)
      | Ok _ =>
          match mkdir files name with
          | Ok files' => (Ok (), files')
          | Raise e =>
              if isdir files name then (Ok (), files) else (Raise e, files)
          end
      end
  end.

Definition makedirs (files : fs) (name : string) : result unit * fs :=
  makedirs_rec (S (String.length name)) files name.

(** [os.rename] on a POSIX system.  A regular file replaces a regular file
    at the destination; a directory moves with everything below it, to a
    destination that is absent or an empty directory and not below the
    directory itself.  A source that is not there gives [ENOENT], or
    [ENOTDIR] below a regular file. *)
Definition rename (files : fs) (src dst : string) : result fs :=
  match files !! src with
  | None => Raise (absent files src)
  | Some (File content) =>
      match files !! dirname dst with
      | None => Raise (absent files (dirname dst))
      | Some (File _) => Raise NotADirectoryError
      | Some Dir =>
          match files !! dst with
          | Some Dir => Raise IsADirectoryError
          | _ => Ok (<[dst := File content]> (delete src files))
          end
      end
  | Some Dir =>
      if bool_decide (src = dst) then Ok files
      else if is_below src dst then Raise OSError
      else
        match files !! dirname dst with
        | None => Raise (absent files (dirname dst))
        | Some (File _) => Raise NotADirectoryError
        | Some Dir =>
            match files !! dst with
            | Some (File _) => Raise NotADirectoryError
            | Some Dir =>
                if is_empty_dir files dst
                then Ok (<[dst := Dir]> (kmap (moved src dst) (delete src files)))
                else Raise OSError
            | None =>
                Ok (<[dst := Dir]> (kmap (moved src dst) (delete src files)))
            end
        end
  end.

(** [os.remove] and [os.rmdir]; [denied] tells the paths that the system
    refuses to remove. *)
Definition remove (denied : string → bool) (files : fs) (path : string)
    : result fs :=
  match files !! path with
  | None => Raise (absent files path)
  | Some Dir => Raise IsADirectoryError
  | Some (File _) =>
      if denied path then Raise PermissionError else Ok (delete path files)
  end.

Definition rmdir (denied : string → bool) (files : fs) (path : string)
    : result fs :=
  match files !! path with
  | None => Raise (absent files path)
  | Some (File _) => Raise NotADirectoryError
  | Some Dir =>
      if denied path then Raise PermissionError
      else if is_empty_dir files path then Ok (delete path files)
      else Raise OSError
  end.

End with_os_path.
End os.

(** ** operation.py, file_comparison.py *)

Module Operation.
Import JsonUtil.

Inductive FileComparison : Type := METADATA | HASH.

(** [FileComparison.name] *)
Definition FileComparison_name (c : FileComparison) : string :=
  match c with METADATA => "METADATA" | HASH => "HASH" end.

(** The records [SimpleOperation], [BuildFileOperation] and
    [SubbuildOperation], with the fields in the order of their
    constructors. *)
Inductive operation : Type :=
| SimpleOperation (name : string) (args return_value : json)
    (exception_type_str : option string) (is_finished : bool)
| BuildFileOperation (filename : string) (file_comparison : FileComparison)
    (func_name : string) (args kwargs : json) (suboperations : list operation)
    (return_value file_comparison_result : json)
    (raised setup_failed is_finished : bool)
| SubbuildOperation (func_name : string) (args kwargs : json)
    (suboperations : list operation) (return_value : json)
    (raised setup_failed is_finished : bool).

(** [isinstance(operation, ComplexOperation)] *)
Definition is_complex (o : operation) : bool :=
  match o with SimpleOperation _ _ _ _ _ => false | _ => true end.

Definition suboperations (o : operation) : list operation :=
  match o with
  | SimpleOperation _ _ _ _ _ => []
  | BuildFileOperation _ _ _ _ _ subs _ _ _ _ _ => subs
  | SubbuildOperation _ _ _ subs _ _ _ _ => subs
  end.

Definition setup_failed (o : operation) : bool :=
  match o with
  | SimpleOperation _ _ _ _ _ => false
  | BuildFileOperation _ _ _ _ _ _ _ _ _ sf _ => sf
  | SubbuildOperation _ _ _ _ _ _ sf _ => sf
  end.

Definition raised (o : operation) : bool :=
  match o with
  | SimpleOperation _ _ _ _ _ => false
  | BuildFileOperation _ _ _ _ _ _ _ _ r _ _ => r
  | SubbuildOperation _ _ _ _ _ r _ _ => r
  end.

Section operation_induction.
Variable P : operation → Prop.
Hypothesis HSimple : ∀ n a r e f, P (SimpleOperation n a r e f).
Hypothesis HBuildFile : ∀ fn fc f a k subs r fcr ra sf fi,
  Forall P subs → P (BuildFileOperation fn fc f a k subs r fcr ra sf fi).
Hypothesis HSubbuild : ∀ f a k subs r ra sf fi,
  Forall P subs → P (SubbuildOperation f a k subs r ra sf fi).

Fixpoint operation_nested_ind (o : operation) : P o :=
  match o with
  | SimpleOperation n a r e f => HSimple n a r e f
  | BuildFileOperation fn fc f a k subs r fcr ra sf fi =>
      HBuildFile fn fc f a k subs r fcr ra sf fi
        ((fix go (l : list operation) : Forall P l :=
            match l with
            | [] => Forall_nil_2 P
            | x :: l' => Forall_cons_2 P x l' (operation_nested_ind x) (go l')
            end) subs)
  | SubbuildOperation f a k subs r ra sf fi =>
      HSubbuild f a k subs r ra sf fi
        ((fix go (l : list operation) : Forall P l :=
            match l with
            | [] => Forall_nil_2 P
            | x :: l' => Forall_cons_2 P x l' (operation_nested_ind x) (go l')
            end) subs)
  end.
End operation_induction.

End Operation.

(** ** cache.py *)

Module Cache.
Import JsonUtil Operation.

(** The attributes of a [Cache] object.  [_files] and [_norm_cased_files]
    hold [None] for a file whose build has started and not finished; they
    are maps, without the order in which a [dict] lists its keys.
    [_subbuilds] is keyed by hashables and is searched with [==].  A Python
    [dict] also takes a stored key for found when it is the very same
    object; the values of the model have no identity, and the two searches
    agree for the keys that are hashable and hold no NaN ([plain_key]
    below).  The three locks are not modelled: every method below is one
    atomic step. *)
Record t : Type := mk {
  _build_name : string;
  _files : gmap string (option operation);
  _norm_cased_files : gmap string (option operation);
  _subbuilds : list (json * option operation);
  _created_dirs : gset string;
  _func_versions : json;
  _operation_versions : json;
  _is_mutable : bool;
}.

Definition set_files (c : t) files norm_cased_files : t :=
  mk (_build_name c) files norm_cased_files (_subbuilds c) (_created_dirs c)
     (_func_versions c) (_operation_versions c) (_is_mutable c).

Definition set_subbuilds (c : t) subbuilds : t :=
  mk (_build_name c) (_files c) (_norm_cased_files c) subbuilds
     (_created_dirs c) (_func_versions c) (_operation_versions c)
     (_is_mutable c).

Definition _CACHE_FILE_VERSION : json := JNone.
Definition _OPERATION_VERSIONS : json := JDict [].
Definition _SOFTWARE : string := "file_builder".

(** [Cache.subbuild_key]; the argument is a [SubbuildOperation]. *)
Definition subbuild_key (operation : operation) : json :=
  match operation with
  | SubbuildOperation func_name args kwargs _ _ _ _ _ =>
      to_hashable (JList [JStr func_name; args; kwargs])
  | BuildFileOperation _ _ func_name args kwargs _ _ _ _ _ _ =>
      to_hashable (JList [JStr func_name; args; kwargs])
  | SimpleOperation _ _ _ _ _ => JNone
  end.

Section with_os_path.
Context `{OsPath}.

(** [Cache.__init__] *)
Definition __init__ (build_name : string)
    (files : gmap string (option operation))
    (subbuilds : list (json * option operation)) (created_dirs : gset string)
    (func_versions operation_versions : json) (is_mutable : bool) : t :=
  mk build_name files
     (map_fold (λ filename operation norm_cased_files,
                  <[normcase filename := operation]> norm_cased_files)
               ∅ files)
     subbuilds created_dirs func_versions operation_versions is_mutable.

Definition _create_empty build_name func_versions is_mutable : t :=
  __init__ build_name ∅ [] ∅ func_versions _OPERATION_VERSIONS is_mutable.

Definition create_empty_mutable build_name func_versions : t :=
  _create_empty build_name func_versions true.

Definition create_empty_immutable build_name func_versions : t :=
  _create_empty build_name func_versions false.

Definition build_name (c : t) : string := _build_name c.

Definition get_file (c : t) (filename : string) : option operation :=
  default None (_files c !! filename).

Definition get_norm_cased_file (c : t) (norm_cased_filename : string)
    : option operation :=
  default None (_norm_cased_files c !! norm_cased_filename).

Definition has_norm_cased_file (c : t) (norm_cased_filename : string) : bool :=
  bool_decide (is_Some (_norm_cased_files c !! norm_cased_filename)).

Definition has_subbuild (c : t) (key : json) : bool :=
  dict_has py_eq key (_subbuilds c).

(** [Cache.get_subbuild] *)
Definition get_subbuild (c : t) (key : json) : option operation :=
  default None (dict_get py_eq key (_subbuilds c)).

(** [operation is not None and not operation.raised] *)
Definition created (entry : option (option operation)) : bool :=
  match entry with
  | Some (Some operation) => negb (raised operation)
  | _ => false
  end.

Definition created_file (c : t) (filename : string) : bool :=
  created (_files c !! filename).

Definition created_norm_cased_file (c : t) (norm_cased_filename : string)
    : bool :=
  created (_norm_cased_files c !! norm_cased_filename).

(** [Cache.created_files].  A [dict] lists its items in the order in which
    their keys were first inserted, which the map [_files] does not keep:
    [filenames] is [list(self._files)], the keys of [_files] in that
    order. *)
Definition created_files (filenames : list string) (c : t) : list string :=
  List.filter (λ filename, created (_files c !! filename)) filenames.

Definition created_dirs (c : t) : list string := elements (_created_dirs c).

Definition add_created_dirs (c : t) (dirs : list string) : t :=
  mk (_build_name c) (_files c) (_norm_cased_files c) (_subbuilds c)
     (_created_dirs c ∪ list_to_set dirs)
     (_func_versions c) (_operation_versions c) (_is_mutable c).

(** [Cache._assert_doesnt_have_norm_cased_file] *)
Definition _assert_doesnt_have_norm_cased_file (c : t)
    (norm_cased_filename filename : string) : result unit :=
  if has_norm_cased_file c norm_cased_filename
  then Raise (DuplicateBuild filename)
  else Ok ().

(** [Cache._assert_doesnt_have_subbuild] *)
Definition _assert_doesnt_have_subbuild (c : t) (key : json)
    (operation : operation) : result unit :=
  if has_subbuild c key
  then match operation with
       | SubbuildOperation func_name args kwargs _ _ _ _ _
       | BuildFileOperation _ _ func_name args kwargs _ _ _ _ _ _ =>
           Raise (DuplicateSubbuild func_name args kwargs)
       | SimpleOperation _ _ _ _ _ => Raise AttributeError
       end
  else Ok ().

(** The mutating methods return the outcome together with the cache as the
    call leaves it. *)

(** [Cache.start_building_file] *)
Definition start_building_file (c : t) (filename : string) : result unit * t :=
  let norm_cased_filename := normcase filename in
  match _assert_doesnt_have_norm_cased_file c norm_cased_filename filename with
  | Raise e => (Raise e, c)
  | Ok _ =>
      (Ok (), set_files c (<[filename := None]> (_files c))
                (<[norm_cased_filename := None]> (_norm_cased_files c)))
  end.

(** [Cache.finish_building_file]; the argument is a [BuildFileOperation]. *)
Definition finish_building_file (c : t) (operation : operation)
    : result unit * t :=
  match operation with
  | BuildFileOperation filename _ _ _ _ _ _ _ _ _ _ =>
      (Ok (), set_files c (<[filename := Some operation]> (_files c))
                (<[normcase filename := Some operation]> (_norm_cased_files c)))
  | _ => (Raise AttributeError, c)
  end.

(** [Cache.start_subbuild] *)
Definition start_subbuild (c : t) (key : json) (operation : operation)
    : result unit * t :=
  match _assert_doesnt_have_subbuild c key operation with
  | Raise e => (Raise e, c)
  | Ok _ => (Ok (), set_subbuilds c (dict_set py_eq key None (_subbuilds c)))
  end.

(** [Cache.finish_subbuild] *)
Definition finish_subbuild (c : t) (key : json) (operation : operation) : t :=
  set_subbuilds c (dict_set py_eq key (Some operation) (_subbuilds c)).

(** [Cache._assert_no_repeats].  A [SimpleOperation] has no attribute
    [setup_failed]; the loop over the suboperations skips the simple ones. *)
Fixpoint _assert_no_repeats (c : t) (operation : operation) : result unit :=
  match operation with
  | SimpleOperation _ _ _ _ _ => Raise AttributeError
  | BuildFileOperation filename _ _ _ _ suboperations _ _ _ setup_failed _ =>
      match
        (if negb setup_failed
         then _assert_doesnt_have_norm_cased_file c (normcase filename) filename
         else Ok ())
      with
      | Raise e => Raise e
      | Ok _ =>
          (fix loop (l : list Operation.operation) : result unit :=
             match l with
             | [] => Ok ()
             | suboperation :: l' =>
                 match
                   (if is_complex suboperation
                    then _assert_no_repeats c suboperation else Ok ())
                 with
                 | Raise e => Raise e
                 | Ok _ => loop l'
                 end
             end) suboperations
      end
  | SubbuildOperation _ _ _ suboperations _ _ setup_failed _ =>
      match
        (if negb setup_failed
         then _assert_doesnt_have_subbuild c (subbuild_key operation) operation
         else Ok ())
      with
      | Raise e => Raise e
      | Ok _ =>
          (fix loop (l : list Operation.operation) : result unit :=
             match l with
             | [] => Ok ()
             | suboperation :: l' =>
                 match
                   (if is_complex suboperation
                    then _assert_no_repeats c suboperation else Ok ())
                 with
                 | Raise e => Raise e
                 | Ok _ => loop l'
                 end
             end) suboperations
      end
  end.

(** The two assignments of [_use_cached_operation] for one record. *)
Definition plant (c : t) (operation : operation) : t :=
  match operation with
  | BuildFileOperation filename _ _ _ _ _ _ _ _ _ _ =>
      set_files c (<[filename := Some operation]> (_files c))
        (<[normcase filename := Some operation]> (_norm_cased_files c))
  | SubbuildOperation _ _ _ _ _ _ _ _ =>
      set_subbuilds c
        (dict_set py_eq (subbuild_key operation) (Some operation) (_subbuilds c))
  | SimpleOperation _ _ _ _ _ => c
  end.

(** [Cache._use_cached_operation] *)
Fixpoint _use_cached_operation (c : t) (operation : operation)
    : result unit * t :=
  match operation with
  | SimpleOperation _ _ _ _ _ => (Raise AttributeError, c)
  | BuildFileOperation _ _ _ _ _ suboperations _ _ _ setup_failed _
  | SubbuildOperation _ _ _ suboperations _ _ setup_failed _ =>
      let c := if negb setup_failed then plant c operation else c in
      (fix loop (c : t) (l : list Operation.operation) : result unit * t :=
         match l with
         | [] => (Ok (), c)
         | suboperation :: l' =>
             if is_complex suboperation
             then match _use_cached_operation c suboperation with
                  | (Raise e, c) => (Raise e, c)
                  | (Ok _, c) => loop c l'
                  end
             else loop c l'
         end) c suboperations
  end.

(** [Cache.use_cached_operation] *)
Definition use_cached_operation (c : t) (operation : operation)
    : result unit * t :=
  match _assert_no_repeats c operation with
  | Raise e => (Raise e, c)
  | Ok _ => _use_cached_operation c operation
  end.

(** The class invariant tying [_norm_cased_files] to [_files]: its keys are
    the norm-cased keys of [_files]. *)
Definition norm_cased_files_inv (c : t) : Prop :=
  ∀ n, is_Some (_norm_cased_files c !! n)
       ↔ ∃ filename, is_Some (_files c !! filename) ∧ normcase filename = n.

(** The records of an operation tree that [use_cached_operation] stores: the
    build file and subbuild operations whose [setup_failed] is [False], in
    the order in which [_use_cached_operation] visits them. *)
Fixpoint records (operation : operation) : list Operation.operation :=
  (if is_complex operation && negb (setup_failed operation)
   then [operation] else [])
  ++ match operation with
     | SimpleOperation _ _ _ _ _ => []
     | BuildFileOperation _ _ _ _ _ suboperations _ _ _ _ _
     | SubbuildOperation _ _ _ suboperations _ _ _ _ =>
         (fix loop (l : list Operation.operation) :=
            match l with
            | [] => []
            | suboperation :: l' => records suboperation ++ loop l'
            end) suboperations
     end.

(** A record collides with the cache when its norm-cased filename, or its
    subbuild key, already has an entry. *)
Definition collides (c : t) (operation : operation) : bool :=
  match operation with
  | BuildFileOperation filename _ _ _ _ _ _ _ _ _ _ =>
      has_norm_cased_file c (normcase filename)
  | SubbuildOperation _ _ _ _ _ _ _ _ => has_subbuild c (subbuild_key operation)
  | SimpleOperation _ _ _ _ _ => false
  end.

(** The error a colliding record is reported with. *)
Definition duplicate_error (operation : operation) : exn :=
  match operation with
  | BuildFileOperation filename _ _ _ _ _ _ _ _ _ _ => DuplicateBuild filename
  | SubbuildOperation func_name args kwargs _ _ _ _ _ =>
      DuplicateSubbuild func_name args kwargs
  | SimpleOperation _ _ _ _ _ => AttributeError
  end.

(** The first record of a list that collides with the cache. *)
Fixpoint first_collision (c : t) (l : list operation) : option operation :=
  match l with
  | [] => None
  | o :: l' => if collides c o then Some o else first_collision c l'
  end.

(** The filenames of the build file records of a list, and the keys of its
    subbuild records, in the order of the list. *)
Definition filenames (l : list operation) : list string :=
  flat_map
    (λ o, match o with
          | BuildFileOperation filename _ _ _ _ _ _ _ _ _ _ => [filename]
          | _ => []
          end) l.

Definition subbuild_keys (l : list operation) : list json :=
  flat_map
    (λ o, match o with
          | SubbuildOperation _ _ _ _ _ _ _ _ => [subbuild_key o]
          | _ => []
          end) l.

(** A key that a [dict] finds by [==] alone: a hashable value without NaN.
    Python takes a stored key that is the very same object for found before
    it asks [==]; the two differ for keys that hold NaN only, and the values
    of the model have no identity. *)
Definition plain_key (key : json) : bool := is_hashable key && nan_free key.

(** The record [o] is the entry of the cache under its filename and its
    norm-cased filename, or under its subbuild key, unless one of the records
    [later], which are stored after it, has the same one. *)
Definition stored (c : t) (o : operation) (later : list operation) : Prop :=
  match o with
  | BuildFileOperation filename _ _ _ _ _ _ _ _ _ _ =>
      (filename ∉ filenames later → _files c !! filename = Some (Some o))
      ∧ (normcase filename ∉ map normcase (filenames later) →
         _norm_cased_files c !! normcase filename = Some (Some o))
  | SubbuildOperation _ _ _ _ _ _ _ _ =>
      forallb (λ key, negb (py_eq key (subbuild_key o))) (subbuild_keys later)
      = true →
      dict_get py_eq (subbuild_key o) (_subbuilds c) = Some (Some o)
  | SimpleOperation _ _ _ _ _ => False
  end.

(** *** Reading a cache file *)

(** [operation_json[key]] for a [str] key: only a dictionary has one. *)
Definition getitem (operation_json : json) (key : string) : result json :=
  match operation_json with
  | JDict d =>
      match dict_get str_eqb key d with
      | Some value => Ok value
      | None => Raise (KeyError (JStr key))
      end
  | _ => Raise TypeError
  end.

(** [operation_json.get(key, default)] *)
Definition get (operation_json : json) (key : string) (default_ : json)
    : result json :=
  match operation_json with
  | JDict d => Ok (default default_ (dict_get str_eqb key d))
  | _ => Raise AttributeError
  end.

(** [FileComparison[name]] *)
Definition FileComparison_getitem (name : json) : result FileComparison :=
  match name with
  | JStr s =>
      if str_eqb s "METADATA" then Ok METADATA
      else if str_eqb s "HASH" then Ok HASH
      else Raise (KeyError name)
  | JList _ | JDict _ => Raise TypeError
  | _ => Raise (KeyError name)
  end.

(** The record types of the model are typed where Python's are not: a field
    read from the file must have the class the model gives it. *)
Definition as_str (value : json) : result string :=
  match value with JStr s => Ok s | _ => Raise ModelTypeError end.

Definition as_bool (value : json) : result bool :=
  match value with JBool b => Ok b | _ => Raise ModelTypeError end.

Definition as_optional_str (value : json) : result (option string) :=
  match value with
  | JNone => Ok None
  | JStr s => Ok (Some s)
  | _ => Raise ModelTypeError
  end.

(** The two dictionaries [files] and [subbuilds] that the parser fills. *)
Definition index : Type :=
  gmap string (option operation) * list (json * option operation).

(** The constructor calls of [_operation_from_json] followed by the
    assignment to [files] or [subbuilds]. *)
Definition new_build_file (filename : json) (file_comparison : FileComparison)
    (func_name args kwargs : json) (suboperations : list operation)
    (return_value file_comparison_result raised setup_failed : json)
    (idx : index) : result (operation * index) :=
  filename ← as_str filename;
  func_name ← as_str func_name;
  raised ← as_bool raised;
  setup_failed ← as_bool setup_failed;
  let operation :=
    BuildFileOperation filename file_comparison func_name args kwargs
      suboperations return_value file_comparison_result raised setup_failed
      true in
  Ok (operation,
      if negb setup_failed
      then (<[filename := Some operation]> idx.1, idx.2)
      else idx).

Definition new_subbuild (func_name args kwargs : json)
    (suboperations : list operation) (return_value raised setup_failed : json)
    (idx : index) : result (operation * index) :=
  func_name ← as_str func_name;
  raised ← as_bool raised;
  setup_failed ← as_bool setup_failed;
  let operation :=
    SubbuildOperation func_name args kwargs suboperations return_value raised
      setup_failed true in
  Ok (operation,
      if negb setup_failed
      then (idx.1, dict_set py_eq (subbuild_key operation) (Some operation) idx.2)
      else idx).

Definition new_simple (type_ args return_value exception_type : json)
    : result operation :=
  name ← as_str type_;
  exception_type_str ← as_optional_str exception_type;
  Ok (SimpleOperation name args return_value exception_type_str true).

(** [Cache._operation_from_json].  The parser of
    [operation_json['suboperations']] is read from the dictionary of the
    parsers of the items, so that the recursion stays on the items of
    [operation_json].  Iterating over a non-empty [str] or [dict] yields
    strings, on which [operation_json['type']] raises [TypeError]. *)
Fixpoint _operation_from_json (operation_json : json) (idx : index)
    : result (operation * index) :=
  let operations_from :=
    match operation_json with
    | JDict d =>
        map (λ kv,
               (kv.1,
                match kv.2 with
                | JList l | JTuple l =>
                    (fix loop (l : list json) (idx : index)
                       : result (list operation * index) :=
                       match l with
                       | [] => Ok ([], idx)
                       | operation_json :: l' =>
                           match _operation_from_json operation_json idx with
                           | Raise e => Raise e
                           | Ok (operation, idx) =>
                               match loop l' idx with
                               | Raise e => Raise e
                               | Ok (operations, idx) =>
                                   Ok (operation :: operations, idx)
                               end
                           end
                       end) l
                | JStr EmptyString | JDict [] => λ idx, Ok ([], idx)
                | _ => λ _, Raise TypeError
                end)) d
    | _ => []
    end in
  type_ ← getitem operation_json "type";
  if py_eq type_ (JStr "build_file") then
    filename ← getitem operation_json "filename";
    file_comparison ← getitem operation_json "fileComparison";
    file_comparison ← FileComparison_getitem file_comparison;
    func_name ← getitem operation_json "funcName";
    args ← getitem operation_json "args";
    kwargs ← getitem operation_json "kwargs";
    _ ← getitem operation_json "suboperations";
    '(suboperations, idx) ←
      default (λ _, Raise TypeError)
        (dict_get str_eqb "suboperations" operations_from) idx;
    return_value ← getitem operation_json "returnValue";
    file_comparison_result ← getitem operation_json "fileComparisonResult";
    raised ← get operation_json "raised" (JBool false);
    setup_failed ← get operation_json "setupFailed" (JBool false);
    new_build_file filename file_comparison func_name args kwargs suboperations
      return_value file_comparison_result raised setup_failed idx
  else if py_eq type_ (JStr "subbuild") then
    func_name ← getitem operation_json "funcName";
    args ← getitem operation_json "args";
    kwargs ← getitem operation_json "kwargs";
    _ ← getitem operation_json "suboperations";
    '(suboperations, idx) ←
      default (λ _, Raise TypeError)
        (dict_get str_eqb "suboperations" operations_from) idx;
    return_value ← getitem operation_json "returnValue";
    raised ← get operation_json "raised" (JBool false);
    setup_failed ← get operation_json "setupFailed" (JBool false);
    new_subbuild func_name args kwargs suboperations return_value raised
      setup_failed idx
  else
    args ← getitem operation_json "args";
    return_value ← getitem operation_json "returnValue";
    exception_type ← get operation_json "exceptionType" JNone;
    operation ← new_simple type_ args return_value exception_type;
    Ok (operation, idx).

(** [for operation_json in operations_json] *)
Definition iter (operations_json : json) : result (list json) :=
  match operations_json with
  | JList l | JTuple l => Ok l
  | JStr s => Ok (map (λ c, JStr (String c EmptyString)) (list_ascii_of_string s))
  | JDict d => Ok (map JStr (dict_keys d))
  | _ => Raise TypeError
  end.

(** [Cache._operations_from_json] *)
Definition _operations_from_json (operations_json : json) (idx : index)
    : result (list operation * index) :=
  l ← iter operations_json;
  (fix loop (l : list json) (idx : index) : result (list operation * index) :=
     match l with
     | [] => Ok ([], idx)
     | operation_json :: l' =>
         '(operation, idx) ← _operation_from_json operation_json idx;
         '(operations, idx) ← loop l' idx;
         Ok (operation :: operations, idx)
     end) l idx.

(** [set(cache_json['createdDirs'])] with [str] elements. *)
Definition created_dirs_from_json (created_dirs : json) : result (gset string) :=
  l ← iter created_dirs;
  (fix loop (l : list json) : result (gset string) :=
     match l with
     | [] => Ok ∅
     | JStr s :: l' => dirs ← loop l'; Ok ({[ s ]} ∪ dirs)
     | (JList _ | JDict _) :: _ => Raise TypeError
     | _ :: _ => Raise ModelTypeError
     end) l.

(** [Cache.read_immutable] *)
Definition read_immutable (files_ : os.fs) (filename : string) : result t :=
  match files_ !! filename with
  | Some os.Dir => Raise IsADirectoryError
  | None => Raise FileNotFoundError
  | Some (os.File (os.Bytes _)) => Raise CacheFormat
  | Some (os.File (os.GzipJson cache_json)) =>
      if negb (match cache_json with JDict _ => true | _ => false end)
         || negb (py_eq (default JNone
                           (match cache_json with
                            | JDict d => dict_get str_eqb "software" d
                            | _ => None
                            end))
                    (JStr _SOFTWARE))
      then Raise CacheFormat
      else
        cache_file_version ← getitem cache_json "cacheFileVersion";
        if negb (is_equal cache_file_version _CACHE_FILE_VERSION)
        then Raise CacheFormat
        else
          root_operations ← getitem cache_json "rootOperations";
          '(_, (files, subbuilds)) ← _operations_from_json root_operations (∅, []);
          build_name ← getitem cache_json "buildName";
          created_dirs ← getitem cache_json "createdDirs";
          created_dirs ← created_dirs_from_json created_dirs;
          func_versions ← getitem cache_json "funcVersions";
          operation_versions ← getitem cache_json "operationVersions";
          build_name ← as_str build_name;
          Ok (__init__ build_name files subbuilds created_dirs func_versions
                operation_versions false)
  end.

(** The tests of [read_immutable] that raise the parse error: the file is
    not a gzip stream of a JSON document, the document is not a dictionary
    whose ['software'] is this package, or its ['cacheFileVersion'] differs
    from the current one. *)
Definition is_cache_format_error (files_ : os.fs) (filename : string) : bool :=
  match files_ !! filename with
  | Some (os.File (os.Bytes _)) => true
  | Some (os.File (os.GzipJson (JDict d))) =>
      negb (py_eq (default JNone (dict_get str_eqb "software" d))
              (JStr _SOFTWARE))
      || match dict_get str_eqb "cacheFileVersion" d with
         | Some version => negb (is_equal version _CACHE_FILE_VERSION)
         | None => false
         end
  | Some (os.File (os.GzipJson _)) => true
  | _ => false
  end.

(** *** Writing a cache file *)

(** [Cache._simple_operation_to_json]; the argument is a
    [SimpleOperation]. *)
Definition _simple_operation_to_json (operation : operation) : json :=
  match operation with
  | SimpleOperation name args return_value exception_type_str _ =>
      let operation_json :=
        [("args", args); ("returnValue", return_value); ("type", JStr name)] in
      JDict
        match exception_type_str with
        | Some exception_type_str =>
            dict_set str_eqb "exceptionType" (JStr exception_type_str)
              operation_json
        | None => operation_json
        end
  | _ => JNone
  end.

(** The entries that [_complex_operation_to_json] adds after the
    suboperations. *)
Definition complex_operation_json (operation : operation)
    (suboperations_json : list json) : json :=
  let operation_json :=
    [("args", match operation with
              | BuildFileOperation _ _ _ args _ _ _ _ _ _ _
              | SubbuildOperation _ args _ _ _ _ _ _ => args
              | SimpleOperation _ args _ _ _ => args
              end);
     ("funcName", match operation with
                  | BuildFileOperation _ _ func_name _ _ _ _ _ _ _ _
                  | SubbuildOperation func_name _ _ _ _ _ _ _ => JStr func_name
                  | SimpleOperation _ _ _ _ _ => JNone
                  end);
     ("kwargs", match operation with
                | BuildFileOperation _ _ _ _ kwargs _ _ _ _ _ _
                | SubbuildOperation _ _ kwargs _ _ _ _ _ => kwargs
                | SimpleOperation _ _ _ _ _ => JNone
                end);
     ("returnValue", match operation with
                     | BuildFileOperation _ _ _ _ _ _ return_value _ _ _ _
                     | SubbuildOperation _ _ _ _ return_value _ _ _
                     | SimpleOperation _ _ return_value _ _ => return_value
                     end);
     ("suboperations", JList suboperations_json)] in
  let operation_json :=
    if raised operation
    then dict_set str_eqb "raised" (JBool true) operation_json
    else operation_json in
  let operation_json :=
    if setup_failed operation
    then dict_set str_eqb "setupFailed" (JBool true) operation_json
    else operation_json in
  match operation with
  | BuildFileOperation filename file_comparison _ _ _ _ _
      file_comparison_result _ _ _ =>
      JDict
        (dict_set str_eqb "fileComparisonResult" file_comparison_result
           (dict_set str_eqb "fileComparison"
              (JStr (FileComparison_name file_comparison))
              (dict_set str_eqb "filename" (JStr filename)
                 (dict_set str_eqb "type" (JStr "build_file") operation_json))))
  | SubbuildOperation _ _ _ _ _ _ _ _ =>
      JDict (dict_set str_eqb "type" (JStr "subbuild") operation_json)
  | SimpleOperation _ _ _ _ _ => JNone
  end.

(** [Cache._operation_to_json], with [Cache._complex_operation_to_json]
    inlined for the recursion. *)
Fixpoint _operation_to_json (operation : operation) : json :=
  match operation with
  | SimpleOperation _ _ _ _ _ => _simple_operation_to_json operation
  | BuildFileOperation _ _ _ _ _ suboperations _ _ _ _ _
  | SubbuildOperation _ _ _ suboperations _ _ _ _ =>
      complex_operation_json operation (map _operation_to_json suboperations)
  end.

(** [Cache._complex_operation_to_json] *)
Definition _complex_operation_to_json (operation : operation) : json :=
  complex_operation_json operation
    (map _operation_to_json (suboperations operation)).

(** An operation tree as [_operation_from_json] builds it: every operation
    is finished, and the name of a simple operation is not one of the two
    types of the complex operations. *)
Fixpoint is_parsed_tree (operation : operation) : bool :=
  match operation with
  | SimpleOperation name _ _ _ is_finished =>
      is_finished && negb (str_eqb name "build_file")
      && negb (str_eqb name "subbuild")
  | BuildFileOperation _ _ _ _ _ suboperations _ _ _ _ is_finished
  | SubbuildOperation _ _ _ suboperations _ _ _ is_finished =>
      is_finished && forallb is_parsed_tree suboperations
  end.

(** The assignment to [files] or [subbuilds] for one parsed record. *)
Definition index_record (idx : index) (operation : operation) : index :=
  match operation with
  | BuildFileOperation filename _ _ _ _ _ _ _ _ _ _ =>
      (<[filename := Some operation]> idx.1, idx.2)
  | SubbuildOperation _ _ _ _ _ _ _ _ =>
      (idx.1, dict_set py_eq (subbuild_key operation) (Some operation) idx.2)
  | SimpleOperation _ _ _ _ _ => idx
  end.

(** The records of a tree in the order in which [_operation_from_json]
    stores them: those of the suboperations first. *)
Fixpoint parsed_records (operation : operation) : list Operation.operation :=
  match operation with
  | SimpleOperation _ _ _ _ _ => []
  | BuildFileOperation _ _ _ _ _ suboperations _ _ _ _ _
  | SubbuildOperation _ _ _ suboperations _ _ _ _ =>
      (fix loop (l : list Operation.operation) :=
         match l with
         | [] => []
         | suboperation :: l' => parsed_records suboperation ++ loop l'
         end) suboperations
  end
  ++ (if is_complex operation && negb (setup_failed operation)
      then [operation] else []).

End with_os_path.
End Cache.

(** A cache file whose only root operation, a subbuild, holds a
    suboperation of a type that no release of the package has. *)
Definition example_unknown_type_operation : JsonUtil.json :=
  JsonUtil.JDict
    [("args", JsonUtil.JList []); ("returnValue", JsonUtil.JNone);
     ("type", JsonUtil.JStr "frobnicate")].

Definition example_unknown_type_cache_json : JsonUtil.json :=
  JsonUtil.JDict
    [("buildName", JsonUtil.JStr "build");
     ("cacheFileVersion", JsonUtil.JNone);
     ("createdDirs", JsonUtil.JList []);
     ("funcVersions", JsonUtil.JDict []);
     ("operationVersions", JsonUtil.JDict []);
     ("rootOperations",
      JsonUtil.JList
        [JsonUtil.JDict
           [("args", JsonUtil.JList []); ("funcName", JsonUtil.JStr "sub");
            ("kwargs", JsonUtil.JDict []); ("returnValue", JsonUtil.JNone);
            ("suboperations", JsonUtil.JList [example_unknown_type_operation]);
            ("type", JsonUtil.JStr "subbuild")]]);
     ("software", JsonUtil.JStr "file_builder")].

Definition example_unknown_type_fs : os.fs :=
  {[ "/build/cache.gz" := os.File (os.GzipJson example_unknown_type_cache_json) ]}.

(** ** build_dirs.py *)

Module BuildDirs.

(** The attributes of a [BuildDirs] object; the lock is not modelled, every
    method is one atomic step. *)
Record t : Type := mk {
  _build_dir_counts : gmap string Z;
  _created_dirs_map : gmap string string;
  _error_created_dirs : gset string;
  _removed_dirs : gset string;
  _exists_dirs : gset string;
  _maybe_removed_dirs : gset string;
  _removed_files : gset string;
}.

Definition set_build_dir_counts (s : t) v : t :=
  mk v (_created_dirs_map s) (_error_created_dirs s) (_removed_dirs s)
     (_exists_dirs s) (_maybe_removed_dirs s) (_removed_files s).
Definition set_created_dirs_map (s : t) v : t :=
  mk (_build_dir_counts s) v (_error_created_dirs s) (_removed_dirs s)
     (_exists_dirs s) (_maybe_removed_dirs s) (_removed_files s).
Definition set_error_created_dirs (s : t) v : t :=
  mk (_build_dir_counts s) (_created_dirs_map s) v (_removed_dirs s)
     (_exists_dirs s) (_maybe_removed_dirs s) (_removed_files s).
Definition set_removed_dirs (s : t) v : t :=
  mk (_build_dir_counts s) (_created_dirs_map s) (_error_created_dirs s) v
     (_exists_dirs s) (_maybe_removed_dirs s) (_removed_files s).
Definition set_exists_dirs (s : t) v : t :=
  mk (_build_dir_counts s) (_created_dirs_map s) (_error_created_dirs s)
     (_removed_dirs s) v (_maybe_removed_dirs s) (_removed_files s).
Definition set_maybe_removed_dirs (s : t) v : t :=
  mk (_build_dir_counts s) (_created_dirs_map s) (_error_created_dirs s)
     (_removed_dirs s) (_exists_dirs s) v (_removed_files s).
Definition set_removed_files (s : t) v : t :=
  mk (_build_dir_counts s) (_created_dirs_map s) (_error_created_dirs s)
     (_removed_dirs s) (_exists_dirs s) (_maybe_removed_dirs s) v.

Section with_os.
Context `{OsPath}.

(** The real file system as [_check_maybe_removed_dir] sees it:
    [os.listdir], which may raise, [os.path.isfile] and [os.path.isdir]. *)
Variable listdir : string → result (list string).
Variable isfile : string → bool.
Variable isdir : string → bool.

(** [BuildDirs.__init__] *)
Definition __init__ (old_cache_dirs old_cache_files : list string) : t :=
  mk ∅ ∅ ∅ ∅ ∅
     (list_to_set (map normcase old_cache_dirs))
     (list_to_set (map normcase old_cache_files)).

(** The loops below walk up the directories with [os.path.dirname]; a bound
    on the number of rounds, which the length of the path provides, stands
    for the [while]. *)

(** The first loop of [_handle_dir_exists]; it returns [parent] too. *)
Fixpoint _handle_dir_exists_while1 (rounds : nat) (s : t) (parent : string)
    : t * string :=
  match rounds with
  | O => (s, parent)
  | S rounds =>
      if negb (bool_decide (parent ∈ _exists_dirs s))
         && negb (bool_decide (is_Some (_build_dir_counts s !! parent)))
      then
        let s := set_removed_dirs s (_removed_dirs s ∖ {[ parent ]}) in
        let s := set_maybe_removed_dirs s (_maybe_removed_dirs s ∖ {[ parent ]}) in
        let s := set_removed_files s (_removed_files s ∖ {[ parent ]}) in
        let s := set_exists_dirs s (_exists_dirs s ∪ {[ parent ]}) in
        _handle_dir_exists_while1 rounds s (dirname parent)
      else (s, parent)
  end.

(** The second loop of [_handle_dir_exists]. *)
Fixpoint _handle_dir_exists_while2 (rounds : nat) (s : t) (parent : string)
    : t :=
  match rounds with
  | O => s
  | S rounds =>
      if negb (bool_decide (parent ∈ _exists_dirs s))
      then
        let s := set_exists_dirs s (_exists_dirs s ∪ {[ parent ]}) in
        _handle_dir_exists_while2 rounds s (dirname parent)
      else s
  end.

(** [BuildDirs._handle_dir_exists] *)
Definition _handle_dir_exists (s : t) (norm_cased_dir : string) : t :=
  let '(s, parent) :=
    _handle_dir_exists_while1 (String.length norm_cased_dir + 2) s
      norm_cased_dir in
  _handle_dir_exists_while2 (String.length parent + 2) s parent.

(** [BuildDirs.handle_norm_cased_dir_exists] *)
Definition handle_norm_cased_dir_exists (s : t) (norm_cased_dir : string) : t :=
  _handle_dir_exists s norm_cased_dir.

(** The loop of [started_building_file]. *)
Fixpoint started_building_file_while (rounds : nat) (created_dirs_set : gset string)
    (s : t) (prev_parent parent : string) (locked_created_dirs : list string)
    : list string * t :=
  match rounds with
  | O => (locked_created_dirs, s)
  | S rounds =>
      if bool_decide (parent ≠ prev_parent) then
        let norm_cased_parent := normcase parent in
        let count := default 0%Z (_build_dir_counts s !! norm_cased_parent) in
        let s :=
          set_build_dir_counts s
            (<[norm_cased_parent := (count + 1)%Z]> (_build_dir_counts s)) in
        if bool_decide (0 < count)%Z then (locked_created_dirs, s)
        else
          let '(s, locked_created_dirs) :=
            if bool_decide (parent ∈ created_dirs_set) then
              let s :=
                set_created_dirs_map s
                  (<[norm_cased_parent := parent]> (_created_dirs_map s)) in
              let s :=
                set_error_created_dirs s
                  (_error_created_dirs s ∖ {[ norm_cased_parent ]}) in
              let s :=
                set_removed_files s
                  (_removed_files s ∖ {[ norm_cased_parent ]}) in
              (s, locked_created_dirs ++ [parent])
            else (s, locked_created_dirs) in
          started_building_file_while rounds created_dirs_set s parent
            (dirname parent) locked_created_dirs
      else (locked_created_dirs, s)
  end.

(** [BuildDirs.started_building_file] *)
Definition started_building_file (s : t) (filename : string)
    (created_dirs : list string) : list string * t :=
  let created_dirs_set : gset string := list_to_set created_dirs in
  let s := set_removed_files s (_removed_files s ∖ {[ normcase filename ]}) in
  started_building_file_while (String.length filename + 1) created_dirs_set s
    filename (dirname filename) [].

(** The loop of [error_building_file]; [_build_dir_counts[parent]] raises
    [KeyError] for a directory without a count. *)
Fixpoint error_building_file_while (rounds : nat) (s : t)
    (prev_parent parent : string) : result unit * t :=
  match rounds with
  | O => (Ok (), s)
  | S rounds =>
      if bool_decide (parent ≠ prev_parent) then
        match _build_dir_counts s !! parent with
        | None => (Raise (KeyError (JsonUtil.JStr parent)), s)
        | Some count =>
            let count := (count - 1)%Z in
            if bool_decide (0 < count)%Z then
              (Ok (),
               set_build_dir_counts s (<[parent := count]> (_build_dir_counts s)))
            else
              let s :=
                set_build_dir_counts s (delete parent (_build_dir_counts s)) in
              let popped := _created_dirs_map s !! parent in
              let s :=
                set_created_dirs_map s (delete parent (_created_dirs_map s)) in
              let s :=
                match popped with
                | Some _ =>
                    let s :=
                      set_error_created_dirs s
                        (_error_created_dirs s ∪ {[ parent ]}) in
                    let s :=
                      set_maybe_removed_dirs s
                        (_maybe_removed_dirs s ∪ {[ parent ]}) in
                    set_exists_dirs s ∅
                | None => s
                end in
              error_building_file_while rounds s parent (dirname parent)
        end
      else (Ok (), s)
  end.

(** [BuildDirs.error_building_file] *)
Definition error_building_file (s : t) (filename : string) : result unit * t :=
  let prev_parent := normcase filename in
  error_building_file_while (String.length prev_parent + 1) s prev_parent
    (dirname prev_parent).

(** [BuildDirs.created_dirs], [BuildDirs.norm_cased_error_created_dirs] *)
Definition created_dirs (s : t) : list string :=
  (map_to_list (_created_dirs_map s)).*2.

Definition norm_cased_error_created_dirs (s : t) : list string :=
  elements (_error_created_dirs s).

(** [BuildDirs._check_maybe_removed_dir].  Every call removes its directory
    from [_maybe_removed_dirs] and the recursive calls are on members of that
    set, so the depth of the recursion is at most its size; [depth] bounds
    it.  [set.remove] raises [KeyError] for an absent element, and an error
    of [os.listdir] other than the two handled ones propagates. *)
Fixpoint _check_maybe_removed_dir (depth : nat) (s : t) (norm_cased_dir : string)
    : result bool * t :=
  match depth with
  | O => (Raise RecursionError, s)
  | S depth =>
      if negb (bool_decide (norm_cased_dir ∈ _maybe_removed_dirs s))
      then (Raise (KeyError (JsonUtil.JStr norm_cased_dir)), s)
      else
        let s :=
          set_maybe_removed_dirs s
            (_maybe_removed_dirs s ∖ {[ norm_cased_dir ]}) in
        match listdir norm_cased_dir with
        | Raise FileNotFoundError =>
            (Ok true,
             set_removed_dirs s (_removed_dirs s ∪ {[ norm_cased_dir ]}))
        | Raise NotADirectoryError =>
            (Ok false, _handle_dir_exists s (dirname norm_cased_dir))
        | Raise e => (Raise e, s)
        | Ok subfiles =>
            (fix loop (subfiles : list string) (s : t) : result bool * t :=
               match subfiles with
               | [] =>
                   (Ok true,
                    set_removed_dirs s (_removed_dirs s ∪ {[ norm_cased_dir ]}))
               | subfile :: subfiles =>
                   let absolute_subfile :=
                     join norm_cased_dir (normcase subfile) in
                   if bool_decide (absolute_subfile ∈ _removed_dirs s) then
                     if isfile absolute_subfile
                     then (Ok false, _handle_dir_exists s norm_cased_dir)
                     else loop subfiles s
                   else if bool_decide (absolute_subfile ∈ _removed_files s) then
                     if isdir absolute_subfile
                     then (Ok false, _handle_dir_exists s absolute_subfile)
                     else loop subfiles s
                   else if bool_decide
                             (absolute_subfile ∈ _maybe_removed_dirs s) then
                     match _check_maybe_removed_dir depth s absolute_subfile with
                     | (Raise e, s) => (Raise e, s)
                     | (Ok false, s) => (Ok false, s)
                     | (Ok true, s) => loop subfiles s
                     end
                   else if isdir absolute_subfile
                   then (Ok false, _handle_dir_exists s absolute_subfile)
                   else (Ok false, _handle_dir_exists s norm_cased_dir)
               end) subfiles s
        end
  end.

(** [BuildDirs.is_removed_norm_case] *)
Definition is_removed_norm_case (s : t) (norm_cased_dir : string)
    : result bool * t :=
  if bool_decide (is_Some (_build_dir_counts s !! norm_cased_dir))
  then (Ok false, s)
  else if bool_decide (norm_cased_dir ∈ _removed_dirs s) then (Ok true, s)
  else if negb (bool_decide (norm_cased_dir ∈ _maybe_removed_dirs s))
  then (Ok false, s)
  else _check_maybe_removed_dir (S (size (_maybe_removed_dirs s))) s
         norm_cased_dir.

(** The invariant of [_exists_dirs]: with a directory it holds the parent
    directory. *)
Definition exists_dirs_closed (s : t) : Prop :=
  ∀ D, D ∈ _exists_dirs s → dirname D ∈ _exists_dirs s.

End with_os.
End BuildDirs.

(** ** created_files.py *)

Module CreatedFiles.

(** The attributes of a [CreatedFiles] object. *)
Record t : Type := mk {
  _norm_cased_files : gset string;
  _norm_cased_dirs : gset string;
  _norm_cased_dir_to_subfiles : gmap string (list (string * string));
  _norm_cased_dir_to_started_count : gmap string Z;
}.

(** [CreatedFiles.__init__] *)
Definition __init__ : t := mk ∅ ∅ ∅ ∅.

(** [CreatedFiles.has_norm_cased_file] *)
Definition has_norm_cased_file (cf : t) (norm_cased_filename : string) : bool :=
  bool_decide (norm_cased_filename ∈ _norm_cased_files cf).

(** [CreatedFiles.has_norm_cased_dir] *)
Definition has_norm_cased_dir (cf : t) (norm_cased_dir : string) : bool :=
  bool_decide (norm_cased_dir ∈ _norm_cased_dirs cf).

Definition set_norm_cased_files (cf : t) (norm_cased_files : gset string) : t :=
  mk norm_cased_files (_norm_cased_dirs cf) (_norm_cased_dir_to_subfiles cf)
     (_norm_cased_dir_to_started_count cf).

Definition set_norm_cased_dirs (cf : t) (norm_cased_dirs : gset string) : t :=
  mk (_norm_cased_files cf) norm_cased_dirs (_norm_cased_dir_to_subfiles cf)
     (_norm_cased_dir_to_started_count cf).

Definition set_norm_cased_dir_to_subfiles (cf : t)
    (norm_cased_dir_to_subfiles : gmap string (list (string * string))) : t :=
  mk (_norm_cased_files cf) (_norm_cased_dirs cf) norm_cased_dir_to_subfiles
     (_norm_cased_dir_to_started_count cf).

Definition set_norm_cased_dir_to_started_count (cf : t)
    (norm_cased_dir_to_started_count : gmap string Z) : t :=
  mk (_norm_cased_files cf) (_norm_cased_dirs cf)
     (_norm_cased_dir_to_subfiles cf) norm_cased_dir_to_started_count.

(** [subfiles.pop(key)] on a dictionary of subfiles: the dictionary without
    the key, or [None] where Python raises [KeyError]. *)
Definition pop (key : string) (subfiles : list (string * string))
    : option (list (string * string)) :=
  if dict_has str_eqb key subfiles
  then Some (List.filter (λ kv, negb (str_eqb kv.1 key)) subfiles)
  else None.

(** The methods that use [os.path].  [os.path.split(p)] is the pair of
    [dirname p] and [basename p]. *)
Section with_os_path.
Context `{OsPath}.
Variable basename : string → string.

(** [CreatedFiles._add_to_subfiles] *)
Definition _add_to_subfiles (cf : t) (filename : string) : t :=
  let dir_name := dirname filename in
  let base_name := basename filename in
  if negb (bool_decide (dir_name = filename)) then
    let subfiles :=
      default [] (_norm_cased_dir_to_subfiles cf !! normcase dir_name) in
    let norm_cased_base_name := normcase base_name in
    let subfiles :=
      if negb (dict_has str_eqb norm_cased_base_name subfiles)
      then dict_set str_eqb norm_cased_base_name base_name subfiles
      else subfiles in
    set_norm_cased_dir_to_subfiles cf
      (<[normcase dir_name := subfiles]> (_norm_cased_dir_to_subfiles cf))
  else cf.

(** [CreatedFiles._remove_from_subfiles] *)
Definition _remove_from_subfiles (cf : t) (norm_cased_filename : string)
    : result bool * t :=
  let norm_cased_dir_name := dirname norm_cased_filename in
  let norm_cased_base_name := basename norm_cased_filename in
  if bool_decide (norm_cased_dir_name = norm_cased_filename) then (Ok false, cf)
  else
    match _norm_cased_dir_to_subfiles cf !! norm_cased_dir_name with
    | None => (Raise (KeyError (JsonUtil.JStr norm_cased_dir_name)), cf)
    | Some subfiles =>
        match pop norm_cased_base_name subfiles with
        | None => (Raise (KeyError (JsonUtil.JStr norm_cased_base_name)), cf)
        | Some subfiles =>
            match subfiles with
            | _ :: _ =>
                (Ok false,
                 set_norm_cased_dir_to_subfiles cf
                   (<[norm_cased_dir_name := subfiles]>
                      (_norm_cased_dir_to_subfiles cf)))
            | [] =>
                (Ok true,
                 set_norm_cased_dir_to_subfiles cf
                   (delete norm_cased_dir_name
                      (_norm_cased_dir_to_subfiles cf)))
            end
        end
    end.

(** The loop of [started_building_file]. *)
Fixpoint started_building_file_while (rounds : nat) (cf : t)
    (parent norm_cased_parent : string) : t :=
  match rounds with
  | O => cf
  | S rounds =>
      if negb (bool_decide (norm_cased_parent ∈ _norm_cased_dirs cf)) then
        let cf :=
          set_norm_cased_dirs cf ({[norm_cased_parent]} ∪ _norm_cased_dirs cf) in
        let cf := _add_to_subfiles cf parent in
        let parent := dirname parent in
        let norm_cased_parent := normcase parent in
        started_building_file_while rounds cf parent norm_cased_parent
      else cf
  end.

(** [CreatedFiles.started_building_file].  The loop ends at the latest when
    [parent] has reached the fixed point of [dirname] and has been added, so
    the bound below does not cut it. *)
Definition started_building_file (cf : t) (filename : string) : t :=
  let parent := dirname filename in
  let norm_cased_parent := normcase parent in
  let cf :=
    set_norm_cased_dir_to_started_count cf
      (<[norm_cased_parent :=
           (default 0 (_norm_cased_dir_to_started_count cf !! norm_cased_parent)
            + 1)%Z]>
         (_norm_cased_dir_to_started_count cf)) in
  started_building_file_while (String.length parent + 2) cf parent
    norm_cased_parent.

(** [CreatedFiles.finished_building_file] *)
Definition finished_building_file (cf : t) (filename : string) : t :=
  let cf :=
    set_norm_cased_files cf ({[normcase filename]} ∪ _norm_cased_files cf) in
  _add_to_subfiles cf filename.

(** The loop of [error_building_file]; [set.remove] raises [KeyError] for a
    missing element. *)
Fixpoint error_building_file_while (rounds : nat) (cf : t) (parent : string)
    : result unit * t :=
  match rounds with
  | O => (Ok (), cf)
  | S rounds =>
      match _remove_from_subfiles cf parent with
      | (Raise e, cf) => (Raise e, cf)
      | (Ok false, cf) => (Ok (), cf)
      | (Ok true, cf) =>
          let parent := dirname parent in
          if bool_decide (parent ∈ _norm_cased_dirs cf) then
            error_building_file_while rounds
              (set_norm_cased_dirs cf (_norm_cased_dirs cf ∖ {[parent]})) parent
          else (Raise (KeyError (JsonUtil.JStr parent)), cf)
      end
  end.

(** [CreatedFiles.error_building_file].  Every round of the loop but the last
    one replaces [parent] by a shorter name, so the bound does not cut it. *)
Definition error_building_file (cf : t) (filename : string) : result unit * t :=
  let parent := normcase (dirname filename) in
  match _norm_cased_dir_to_started_count cf !! parent with
  | None => (Raise (KeyError (JsonUtil.JStr parent)), cf)
  | Some count =>
      let count := (count - 1)%Z in
      if (0 <? count)%Z then
        (Ok (),
         set_norm_cased_dir_to_started_count cf
           (<[parent := count]> (_norm_cased_dir_to_started_count cf)))
      else
        let cf :=
          set_norm_cased_dir_to_started_count cf
            (delete parent (_norm_cased_dir_to_started_count cf)) in
        if bool_decide (parent ∈ _norm_cased_dirs cf) then
          error_building_file_while (String.length parent + 1)
            (set_norm_cased_dirs cf (_norm_cased_dirs cf ∖ {[parent]})) parent
        else (Raise (KeyError (JsonUtil.JStr parent)), cf)
  end.

(** [CreatedFiles.list_dir] *)
Definition list_dir (cf : t) (dir_ : string) : list string :=
  match _norm_cased_dir_to_subfiles cf !! normcase dir_ with
  | Some subfiles => dict_values subfiles
  | None => []
  end.

End with_os_path.

End CreatedFiles.

(** ** simple_operation_executor.py *)

Module SimpleOperationExecutor.

(** The attributes of a [SimpleOperationExecutor]; a hash cache entry is a
    pair of the SHA-256 hex string and whether the file was being built. *)
Record t : Type := mk {
  _build_dirs : BuildDirs.t;
  _hash_cache : gmap string (string * bool);
  _new_cache : Cache.t;
  _norm_cased_cache_filename : string;
  _old_cache : Cache.t;
}.

Definition set_build_dirs (e : t) (build_dirs : BuildDirs.t) : t :=
  mk build_dirs (_hash_cache e) (_new_cache e) (_norm_cased_cache_filename e)
     (_old_cache e).

Section with_os_path.
Context `{OsPath}.

(** [SimpleOperationExecutor.__init__] *)
Definition __init__ (cache_filename : string) (old_cache new_cache : Cache.t)
    (build_dirs : BuildDirs.t) : t :=
  mk build_dirs ∅ new_cache (normcase cache_filename) old_cache.

(** [SimpleOperationExecutor.is_cache_file] *)
Definition is_cache_file (e : t) (filename : string) : bool :=
  bool_decide (normcase filename = _norm_cased_cache_filename e).

(** [SimpleOperationExecutor._is_file_no_read]; the result [None] of the
    source is [None] here. *)
Definition _is_file_no_read (e : t) (norm_cased_filename : string)
    (created_files : option CreatedFiles.t) : option bool :=
  match
    match created_files with
    | Some created_files =>
        if CreatedFiles.has_norm_cased_file created_files norm_cased_filename
        then Some true
        else if CreatedFiles.has_norm_cased_dir created_files norm_cased_filename
        then Some false
        else None
    | None => None
    end
  with
  | Some result => Some result
  | None =>
      if bool_decide (norm_cased_filename = _norm_cased_cache_filename e)
      then Some false
      else if Cache.has_norm_cased_file (_new_cache e) norm_cased_filename then
        match Cache.get_norm_cased_file (_new_cache e) norm_cased_filename with
        | None => Some false
        | Some _ => None
        end
      else if Cache.created_norm_cased_file (_old_cache e) norm_cased_filename
      then Some false
      else None
  end.

(** Whether the overlay [created_files], if any, holds the file as a regular
    file, or as a directory. *)
Definition in_overlay_files (created_files : option CreatedFiles.t)
    (norm_cased_filename : string) : bool :=
  match created_files with
  | Some created_files =>
      CreatedFiles.has_norm_cased_file created_files norm_cased_filename
  | None => false
  end.

Definition in_overlay_dirs (created_files : option CreatedFiles.t)
    (norm_cased_filename : string) : bool :=
  match created_files with
  | Some created_files =>
      CreatedFiles.has_norm_cased_dir created_files norm_cased_filename
  | None => false
  end.

(** [SimpleOperationExecutor.is_file], on the real file system [real]. *)
Definition is_file (real : os.fs) (e : t) (filename : string)
    (created_files : option CreatedFiles.t) : bool * t :=
  let norm_cased_filename := normcase filename in
  match _is_file_no_read e norm_cased_filename created_files with
  | Some is_file_no_read => (is_file_no_read, e)
  | None =>
      if os.isfile real norm_cased_filename
      then
        (true,
         set_build_dirs e
           (BuildDirs.handle_norm_cased_dir_exists (_build_dirs e)
              (dirname norm_cased_filename)))
      else (false, e)
  end.

End with_os_path.
End SimpleOperationExecutor.

(** ** file_backups.py *)

Module FileBackups.

(** The attributes of a [FileBackups] object; the lock is not modelled. *)
Record t : Type := mk {
  _backups : list (string * string);
  _next_backup_index : Z;
  _temp_dir : option string;
}.

(** [FileBackups.__init__] *)
Definition __init__ : t := mk [] 0 None.

(** [format(d, 'x')] for one digit, [format(value, 'x')] and
    ['{:02x}'.format(value)] for a natural number. *)
Definition hex_digit (d : Z) : ascii :=
  nth (Z.to_nat d) (list_ascii_of_string "0123456789abcdef") "0"%char.

Fixpoint to_hex (digits : nat) (value : Z) (acc : string) : string :=
  match digits with
  | O => acc
  | S digits =>
      let acc := String (hex_digit (value mod 16)) acc in
      if (value / 16 =? 0)%Z then acc else to_hex digits (value / 16) acc
  end.

Definition format_02x (value : Z) : string :=
  let s := to_hex (S (Z.to_nat (Z.log2 value))) value EmptyString in
  if (String.length s <? 2)%nat then String "0"%char s else s.

(** The loop that splits the index into the names of the subdirectories. *)
Fixpoint components_while (rounds : nat) (value : Z) (components : list string)
    : list string * Z :=
  match rounds with
  | O => (components, value)
  | S rounds =>
      if (128 <=? value)%Z
      then components_while rounds (value / 128)
             (components ++ [format_02x (value mod 128)])
      else (components, value)
  end.

Section with_os_path.
Context `{OsPath}.

(** [backup_dir] and [backup_filename] of [back_up_and_remove]. *)
Definition backup_location (temp_dir : string) (value : Z) : string * string :=
  let '(components, value) :=
    components_while (S (Z.to_nat (Z.log2 value))) value [] in
  let backup_dir := fold_left join components temp_dir in
  (backup_dir, join backup_dir (String.append "file_" (format_02x value))).

(** [FileBackups.__enter__]; [temp_dir] is the fresh directory that
    [tempfile.mkdtemp] chooses and creates. *)
Definition __enter__ (files : os.fs) (b : t) (temp_dir : string)
    : result unit * (os.fs * t) :=
  match os.mkdir files temp_dir with
  | Raise e => (Raise e, (files, b))
  | Ok files => (Ok (), (files, mk (_backups b) (_next_backup_index b) (Some temp_dir)))
  end.

(** [FileBackups.back_up_and_remove].  Outside of an entered scope
    [_temp_dir] is [None], on which [os.path.join] raises [TypeError]. *)
Definition back_up_and_remove (files : os.fs) (b : t) (filename : string)
    : result bool * (os.fs * t) :=
  let value := _next_backup_index b in
  let b := mk (_backups b) (_next_backup_index b + 1) (_temp_dir b) in
  match _temp_dir b with
  | None => (Raise TypeError, (files, b))
  | Some temp_dir =>
      let '(backup_dir, backup_filename) := backup_location temp_dir value in
      match os.makedirs files backup_dir with
      | (Raise e, files) => (Raise e, (files, b))
      | (Ok _, files) =>
          match os.rename files filename backup_filename with
          | Raise FileNotFoundError => (Ok false, (files, b))
          | Raise e => (Raise e, (files, b))
          | Ok files =>
              if os.isdir files backup_filename
              then (Ok false, (files, b))
              else
                (Ok true,
                 (files,
                  mk (_backups b ++ [(filename, backup_filename)])
                     (_next_backup_index b) (_temp_dir b)))
          end
      end
  end.

(** The loop of [FileBackups.restore_all].  [os.replace] is [os.rename] on a
    POSIX system; an [OSError] of [os.makedirs] or [os.replace] skips the
    file, any other exception ends the loop. *)
Fixpoint restore_all_for (files : os.fs) (backups : list (string * string))
    : result unit * os.fs :=
  match backups with
  | [] => (Ok (), files)
  | (filename, backup_filename) :: backups =>
      if os.isdir files filename then restore_all_for files backups
      else
        match os.makedirs files (dirname filename) with
        | (Raise e, files) =>
            if is_OSError e then restore_all_for files backups
            else (Raise e, files)
        | (Ok _, files) =>
            match os.rename files backup_filename filename with
            | Raise e =>
                if is_OSError e then restore_all_for files backups
                else (Raise e, files)
            | Ok files => restore_all_for files backups
            end
        end
  end.

(** [FileBackups.restore_all] *)
Definition restore_all (files : os.fs) (b : t) : result unit * (os.fs * t) :=
  let backups := _backups b in
  let b := mk [] (_next_backup_index b) (_temp_dir b) in
  let '(r, files) := restore_all_for files backups in
  (r, (files, b)).

End with_os_path.
End FileBackups.

(** ** file_builder.py: [clean] *)

Module FileBuilder.

(** [sorted(dirs, key=lambda dir_: -len(dir_))]: a stable sort, the longest
    paths first. *)
Fixpoint insert_by_neg_len (dir_ : string) (sorted_dirs : list string)
    : list string :=
  match sorted_dirs with
  | [] => [dir_]
  | other :: rest =>
      if (String.length other <=? String.length dir_)%nat
      then dir_ :: sorted_dirs
      else other :: insert_by_neg_len dir_ rest
  end.

Definition sorted_by_neg_len (dirs : list string) : list string :=
  foldr insert_by_neg_len [] dirs.

Section with_os.
Context `{OsPath}.

(** The paths that the system refuses to remove. *)
Variable denied : string → bool.

(** [list(cache._files)]: the filenames of a cache in the order in which its
    [dict] lists them. *)
Variable files_keys : Cache.t → list string.

(** [FileBuilder._try_to_remove_file].  Every error of [os.remove] is an
    [OSError], which is logged and dropped. *)
Definition _try_to_remove_file (files : os.fs) (filename : string) : os.fs :=
  if os.isfile files filename then
    match os.remove denied files filename with
    | Ok files => files
    | Raise _ => files
    end
  else files.

(** [FileBuilder._remove_empty_dirs].  Every error of [os.rmdir] is an
    [OSError], on which the loop continues. *)
Definition _remove_empty_dirs (files : os.fs) (dirs : list string) : os.fs :=
  fold_left
    (λ files dir_,
       match os.rmdir denied files dir_ with
       | Ok files => files
       | Raise _ => files
       end)
    (sorted_by_neg_len dirs) files.

(** [FileBuilder.clean].  The arguments are typed, and [cache_filename] is a
    sanitized filename already; [build_name] may be [None]. *)
Definition clean (files : os.fs) (cache_filename : string)
    (build_name : option string) : result unit * os.fs :=
  if negb (os.exists_ files cache_filename) then (Ok (), files)
  else
    match Cache.read_immutable files cache_filename with
    | Raise e => (Raise e, files)
    | Ok cache =>
        if match build_name with
           | Some build_name =>
               negb (str_eqb (Cache.build_name cache) build_name)
           | None => false
           end
        then (Raise BuildNameMismatch, files)
        else
          let files :=
            fold_left _try_to_remove_file
              (Cache.created_files (files_keys cache) cache) files in
          let files := _try_to_remove_file files cache_filename in
          (Ok (), _remove_empty_dirs files (Cache.created_dirs cache))
    end.

End with_os.
End FileBuilder.

(** * Properties *)

Module JsonUtilTests.
Import JsonUtil.

(** Cases of [test_is_equal_to_hashable] in [test/json_util_test.py]. *)
Example test_is_equal_true_1 : is_equal (JBool true) (JInt 1) = false.
Proof. reflexivity. Qed.

Example test_is_equal_float_int :
  is_equal (JFloat (S754_finite false 7 0)) (JInt 7) = true.
Proof. vm_compute. reflexivity. Qed.

Example test_is_equal_list_tuple :
  is_equal (JList [JInt 17; JTuple [JStr "foo"]; JNone])
           (JList [JInt 17; JList [JStr "foo"]; JNone]) = true.
Proof. vm_compute. reflexivity. Qed.

Example test_is_equal_dict_order :
  is_equal (JDict [("foo", JInt 5); ("bar", JInt 7)])
           (JDict [("bar", JInt 7); ("foo", JInt 5)]) = true
  ∧ py_eq (to_hashable (JDict [("foo", JInt 5); ("bar", JInt 7)]))
          (to_hashable (JDict [("bar", JInt 7); ("foo", JInt 5)])) = true
  ∧ to_hashable (JDict [("foo", JInt 5); ("bar", JInt 7)])
    = JTuple [JStr "bar"; JInt 7; JStr "foo"; JInt 5].
Proof. vm_compute. auto. Qed.

Example test_is_equal_zero_false :
  is_equal (JList [JInt 17; JList [JInt 0]; JNone])
           (JList [JInt 17; JList [JBool false]; JNone]) = false
  ∧ py_eq (to_hashable (JList [JInt 17; JList [JInt 0]; JNone]))
          (to_hashable (JList [JInt 17; JList [JBool false]; JNone])) = false.
Proof. vm_compute. auto. Qed.

Example test_sanitize_tuples :
  sanitize (JTuple [JInt 17; JTuple [JInt 4]; JStr "foo"])
  = JList [JInt 17; JList [JInt 4]; JStr "foo"].
Proof. reflexivity. Qed.

End JsonUtilTests.

(** ** Dictionaries with [str] keys *)

Lemma str_eqb_spec (k1 k2 : string) : reflect (k1 = k2) (str_eqb k1 k2).
Proof. unfold str_eqb. case_bool_decide; by constructor. Qed.

Lemma str_eqb_refl (k : string) : str_eqb k k = true.
Proof. by destruct (str_eqb_spec k k). Qed.

Section pydict_facts.
Context {V : Type}.
Implicit Types (d : list (string * V)) (k : string) (v : V).

Lemma dict_get_Some_elem d k v : dict_get str_eqb k d = Some v → (k, v) ∈ d.
Proof.
  induction d as [|[k' v'] d IH]; simpl; [done|].
  destruct (str_eqb_spec k' k) as [->|Hk].
  - intros [= ->]. left.
  - intros H. right. by apply IH.
Qed.

Lemma dict_get_None d k : dict_get str_eqb k d = None ↔ k ∉ dict_keys d.
Proof.
  unfold dict_keys. induction d as [|[k' v'] d IH]; simpl.
  - split; [intros _; apply not_elem_of_nil | done].
  - destruct (str_eqb_spec k' k) as [->|Hk].
    + split; [done | intros []; left].
    + rewrite IH, not_elem_of_cons. split; [intros ?; split; [congruence|done] | tauto].
Qed.

Lemma dict_get_NoDup d k v :
  NoDup (dict_keys d) → (k, v) ∈ d → dict_get str_eqb k d = Some v.
Proof.
  unfold dict_keys. induction d as [|[k' v'] d IH]; simpl.
  - intros _ H. by apply elem_of_nil in H.
  - rewrite NoDup_cons. intros [Hk' Hnd] [[= -> ->]|Hin]%elem_of_cons.
    + by rewrite str_eqb_refl.
    + destruct (str_eqb_spec k' k) as [->|Hk]; [|by apply IH].
      exfalso. apply Hk'. apply list_elem_of_fmap. by exists (k, v).
Qed.

Lemma dict_get_is_Some d k : is_Some (dict_get str_eqb k d) ↔ k ∈ dict_keys d.
Proof.
  rewrite <-not_eq_None_Some, dict_get_None.
  split; [apply dec_stable | tauto].
Qed.

Lemma dict_set_fresh d k v :
  k ∉ dict_keys d → dict_set str_eqb k v d = d ++ [(k, v)].
Proof.
  unfold dict_keys. induction d as [|[k' v'] d IH]; simpl; [done|].
  rewrite not_elem_of_cons. intros [Hne Hk].
  destruct (str_eqb_spec k' k) as [->|_]; [done|].
  by rewrite IH.
Qed.

Lemma dict_get_fmap {W} (f : V → W) d k :
  dict_get str_eqb k (map (λ kv, (kv.1, f kv.2)) d) = f <$> dict_get str_eqb k d.
Proof.
  induction d as [|[k' v'] d IH]; simpl; [done|].
  by destruct (str_eqb k' k).
Qed.

Lemma dict_keys_fmap {W} (f : V → W) d :
  dict_keys (map (λ kv, (kv.1, f kv.2)) d) = dict_keys d.
Proof.
  unfold dict_keys. induction d as [|[??] d IH]; [done|].
  cbn. by f_equal.
Qed.

End pydict_facts.

Lemma dict_fold_set_fresh {V W} (f : V → W) (d : list (string * V))
    (acc : list (string * W)) :
  NoDup (dict_keys acc ++ dict_keys d) →
  fold_left (λ result kv, dict_set str_eqb kv.1 (f kv.2) result) d acc
  = acc ++ map (λ kv, (kv.1, f kv.2)) d.
Proof.
  revert acc. induction d as [|[k v] d IH]; intros acc Hnd; cbn [fold_left map fst snd].
  - by rewrite app_nil_r.
  - unfold dict_keys in Hnd. simpl in Hnd.
    apply NoDup_app in Hnd as (Hacc & Hdisj & [Hk Hd]%NoDup_cons).
    rewrite dict_set_fresh.
    2:{ intros Hin. apply (Hdisj k Hin). left. }
    rewrite IH.
    + by rewrite <-app_assoc.
    + unfold dict_keys. rewrite fmap_app. simpl.
      rewrite <-app_assoc. simpl. apply NoDup_app. split_and!; [done| |].
      * intros x Hx [->|Hx']%elem_of_cons; [|by eapply Hdisj; [|right]].
        apply (Hdisj k Hx). left.
      * by apply NoDup_cons.
Qed.

(** Assignments to a dictionary, for any comparison of the keys. *)

Lemma dict_get_set_same {K V} (keq : K → K → bool) k (v : V) d :
  keq k k = true → dict_get keq k (dict_set keq k v d) = Some v.
Proof.
  intros Hk. induction d as [|[k0 v0] d IH]; cbn.
  - by rewrite Hk.
  - destruct (keq k0 k) eqn:Hk0; cbn; by rewrite Hk0.
Qed.

(** A key that matches no stored key is appended. *)
Lemma dict_set_absent {K V} (keq : K → K → bool) k (v : V) d :
  dict_has keq k d = false → dict_set keq k v d = d ++ [(k, v)].
Proof.
  unfold dict_has. induction d as [|[k0 v0] d IH]; cbn; [done|].
  destruct (keq k0 k); [done|]. intros Hd. by rewrite IH.
Qed.

Lemma dict_set_last {K V} (keq : K → K → bool) k (v v0 : V) d :
  dict_has keq k d = false → keq k k = true →
  dict_set keq k v (d ++ [(k, v0)]) = d ++ [(k, v)].
Proof.
  unfold dict_has. intros Hd Hk. induction d as [|[k1 v1] d IH]; cbn.
  - by rewrite Hk.
  - cbn in Hd. destruct (keq k1 k); [done|]. by rewrite IH.
Qed.

Lemma dict_get_last {K V} (keq : K → K → bool) k (v : V) d :
  dict_has keq k d = false → keq k k = true →
  dict_get keq k (d ++ [(k, v)]) = Some v.
Proof.
  unfold dict_has. intros Hd Hk. induction d as [|[k1 v1] d IH]; cbn.
  - by rewrite Hk.
  - cbn in Hd. destruct (keq k1 k); [done|]. by apply IH.
Qed.

Lemma dict_set_app_absent {K V} (keq : K → K → bool) k (v : V) d rest :
  dict_has keq k d = false →
  dict_set keq k v (d ++ rest) = d ++ dict_set keq k v rest.
Proof.
  unfold dict_has. induction d as [|[k0 v0] d IH]; cbn; [done|].
  destruct (keq k0 k); [done|]. intros Hd. by rewrite IH.
Qed.

(** ** json_util.py: sanitizing *)

Module JsonUtilFacts.
Import JsonUtil.


Lemma forallb_Forall {A} (f : A → bool) (l : list A) :
  forallb f l = true ↔ Forall (λ x, f x = true) l.
Proof.
  induction l as [|x l IH]; simpl.
  - split; [constructor | done].
  - rewrite andb_true_iff, Forall_cons, IH. done.
Qed.

Lemma sanitize_dict d :
  NoDup (dict_keys d) →
  sanitize (JDict d) = JDict (map (λ kv, (kv.1, sanitize kv.2)) d).
Proof.
  intros Hnd. cbn [sanitize]. f_equal. unfold _key_to_str.
  by rewrite (dict_fold_set_fresh sanitize d []).
Qed.

(** A sanitized value is a fixed point of [sanitize]. *)
Lemma sanitize_fixed v : is_sanitized v = true → sanitize v = v.
Proof.
  induction v as [| | | | |l IH|l IH|d IH] using json_nested_ind;
    try done; cbn [is_sanitized].
  - rewrite forallb_Forall. intros Hl. cbn [sanitize]. f_equal.
    induction Hl as [|x l Hx Hl IHl]; [done|].
    apply Forall_cons in IH as [IHx IH]. cbn. by rewrite IHx, IHl.
  - rewrite andb_true_iff, bool_decide_eq_true, forallb_Forall.
    intros [Hnd Hd]. rewrite sanitize_dict by done. f_equal.
    clear Hnd. induction Hd as [|[k x] d Hx Hd IHd]; [done|].
    apply Forall_cons in IH as [IHx IH]. cbn in *. by rewrite IHx, IHd.
Qed.

(** The result of [sanitize] is sanitized. *)
Lemma sanitize_is_sanitized v :
  well_formed v = true → is_sanitized (sanitize v) = true.
Proof.
  induction v as [| | | | |l IH|l IH|d IH] using json_nested_ind;
    try done; cbn [well_formed].
  - rewrite forallb_Forall. intros Hl. cbn [sanitize is_sanitized].
    apply forallb_Forall.
    induction Hl as [|x l Hx Hl IHl]; [constructor|].
    apply Forall_cons in IH as [IHx IH]. cbn. constructor; auto.
  - rewrite forallb_Forall. intros Hl. cbn [sanitize is_sanitized].
    apply forallb_Forall.
    induction Hl as [|x l Hx Hl IHl]; [constructor|].
    apply Forall_cons in IH as [IHx IH]. cbn. constructor; auto.
  - rewrite andb_true_iff, bool_decide_eq_true, forallb_Forall.
    intros [Hnd Hd]. rewrite sanitize_dict by done. cbn [is_sanitized].
    rewrite dict_keys_fmap, bool_decide_eq_true_2 by done. cbn.
    apply forallb_Forall. clear Hnd.
    induction Hd as [|[k x] d Hx Hd IHd]; [constructor|].
    apply Forall_cons in IH as [IHx IH]. cbn in *. constructor; auto.
Qed.

Lemma sanitize_idem v :
  well_formed v = true → sanitize (sanitize v) = sanitize v.
Proof. intros Hv. by apply sanitize_fixed, sanitize_is_sanitized. Qed.

(** [==] is reflexive on scalars other than NaN. *)
Lemma number_eqb_refl a : a ≠ NNan → number_eqb a a = true.
Proof. destruct a; [done| |]; intros _; cbn; by apply bool_decide_eq_true_2. Qed.

Lemma is_equal_sanitize v :
  well_formed v = true → nan_free v = true → is_equal (sanitize v) v = true.
Proof.
  induction v as [|b|z|f|s|l IH|l IH|d IH] using json_nested_ind;
    cbn [well_formed nan_free].
  - done.
  - intros _ _. destruct b; cbn; by apply bool_decide_eq_true_2.
  - intros _ _. cbn. by apply bool_decide_eq_true_2.
  - intros _ Hf. cbn. apply number_eqb_refl. by destruct f.
  - intros _ _. cbn. apply str_eqb_refl.
  - rewrite !forallb_Forall. intros Hw Hn. cbn [sanitize is_equal].
    rewrite length_map, bool_decide_eq_true_2 by done. cbn [negb].
    induction l as [|x l IHl]; [done|].
    apply Forall_cons in IH as [IHx IH], Hw as [Hwx Hw], Hn as [Hnx Hn].
    cbn. rewrite IHx by done. cbn. auto.
  - rewrite !forallb_Forall. intros Hw Hn. cbn [sanitize is_equal].
    rewrite length_map, bool_decide_eq_true_2 by done. cbn [negb].
    induction l as [|x l IHl]; [done|].
    apply Forall_cons in IH as [IHx IH], Hw as [Hwx Hw], Hn as [Hnx Hn].
    cbn. rewrite IHx by done. cbn. auto.
  - rewrite andb_true_iff, bool_decide_eq_true, !forallb_Forall.
    intros [Hnd Hw] Hn. rewrite sanitize_dict by done. cbn [is_equal].
    rewrite length_map, bool_decide_eq_true_2 by done. cbn [negb].
    apply forallb_Forall, Forall_forall. intros [k sx] Hin.
    apply list_elem_of_fmap in Hin as ([k' x] & [= -> ->] & Hin). cbn.
    rewrite (dict_get_NoDup d k' x) by done.
    rewrite Forall_forall in IH, Hw, Hn.
    apply (IH (k', x) Hin); [apply (Hw _ Hin) | apply (Hn _ Hin)].
Qed.

(** *** Hashable encodings *)

Lemma py_eq_tuple l1 l2 : py_eq (JTuple l1) (JTuple l2) = all2b py_eq l1 l2.
Proof. reflexivity. Qed.

Lemma py_eq_list l1 l2 : py_eq (JList l1) (JList l2) = all2b py_eq l1 l2.
Proof. reflexivity. Qed.

Lemma all2b_length {A B} (f : A → B → bool) l1 l2 :
  all2b f l1 l2 = true → length l1 = length l2.
Proof.
  revert l2. induction l1 as [|x l1 IH]; intros [|y l2]; try done.
  cbn. rewrite andb_true_iff. intros [_ H]. f_equal. by apply IH.
Qed.

Lemma zipb_all2b {A B} (f : A → B → bool) l1 l2 :
  length l1 = length l2 → zipb f l1 l2 = all2b f l1 l2.
Proof.
  revert l2. induction l1 as [|x l1 IH]; intros [|y l2]; try done.
  cbn. intros [= Hlen]. rewrite IH by done. by destruct (f x y).
Qed.

Lemma is_equal_seq_unfold l1 l2 :
  is_equal (JList l1) (JList l2)
  = if negb (bool_decide (length l1 = length l2)) then false
    else zipb is_equal l1 l2.
Proof. reflexivity. Qed.

Lemma is_equal_seq l1 l2 :
  is_equal (JList l1) (JList l2) = all2b is_equal l1 l2.
Proof.
  rewrite is_equal_seq_unfold. case_bool_decide as Hlen; cbn [negb].
  - by apply zipb_all2b.
  - symmetry. apply not_true_is_false. intros H. by apply all2b_length in H.
Qed.

Lemma all2b_ext {A B} (f g : A → B → bool) l1 l2 :
  Forall (λ x, ∀ y, y ∈ l2 → f x y = g x y) l1 → all2b f l1 l2 = all2b g l1 l2.
Proof.
  intros H. revert l2 H. induction l1 as [|x l1 IH]; intros [|y l2] H; try done.
  apply Forall_cons in H as [Hx H]. cbn. rewrite Hx by left. f_equal.
  apply IH. eapply Forall_impl; [done|]. intros x' Hx' y' Hy'. apply Hx'. by right.
Qed.

Lemma all2b_map {A B A' B'} (f : A' → B' → bool) (g : A → A') (h : B → B') l1 l2 :
  all2b f (map g l1) (map h l2) = all2b (λ x y, f (g x) (h y)) l1 l2.
Proof.
  revert l2. induction l1 as [|x l1 IH]; intros [|y l2]; try done.
  cbn. by rewrite IH.
Qed.

Lemma to_hashable_dict d : to_hashable (JDict d) = JTuple (hash_items d).
Proof. reflexivity. Qed.

Lemma hash_items_head d :
  hash_items d = [] ∨ ∃ k l, hash_items d = JStr k :: l.
Proof.
  unfold hash_items. destruct (sorted_keys d) as [|k ks]; [by left|].
  right. cbn. eauto.
Qed.

Lemma all2b_hash_items (g1 g2 : string → json) ks1 ks2 :
  all2b py_eq (flat_map (λ k, [JStr k; g1 k]) ks1)
              (flat_map (λ k, [JStr k; g2 k]) ks2) = true
  ↔ ks1 = ks2 ∧ Forall (λ k, py_eq (g1 k) (g2 k) = true) ks1.
Proof.
  revert ks2. induction ks1 as [|k1 ks1 IH]; intros [|k2 ks2]; cbn.
  - split; [by split|done].
  - split; [done|]. by intros [? _].
  - split; [done|]. by intros [? _].
  - rewrite !andb_true_iff, IH, Forall_cons.
    destruct (str_eqb_spec k1 k2) as [->|Hne].
    + split; [by intros (_ & ? & -> & ?)|]. intros ([= ->] & ? & ?). done.
    + split; [by intros [? _]|]. intros ([= ? ?] & _). done.
Qed.

Lemma sorted_keys_perm {V} (d : list (string * V)) :
  sorted_keys d ≡ₚ dict_keys d.
Proof. apply merge_sort_Permutation. Qed.

Lemma sorted_keys_eq {V W} (d1 : list (string * V)) (d2 : list (string * W)) :
  dict_keys d1 ≡ₚ dict_keys d2 → sorted_keys d1 = sorted_keys d2.
Proof.
  intros Hp. apply (Sorted_unique String.le).
  - apply Sorted_merge_sort; apply _.
  - apply Sorted_merge_sort; apply _.
  - by rewrite !sorted_keys_perm.
Qed.

Lemma is_equal_dict d1 d2 :
  is_equal (JDict d1) (JDict d2) = true
  ↔ length d1 = length d2
    ∧ ∀ k v, (k, v) ∈ d1 →
        ∃ v2, dict_get str_eqb k d2 = Some v2 ∧ is_equal v v2 = true.
Proof.
  cbn [is_equal]. case_bool_decide as Hlen; cbn [negb].
  - rewrite forallb_Forall, Forall_forall. split.
    + intros H. split; [done|]. intros k v Hin. specialize (H _ Hin). cbn in H.
      destruct (dict_get str_eqb k d2); [eauto|done].
    + intros [_ H] [k v] Hin. cbn. destruct (H k v Hin) as (v2 & -> & ?). done.
  - split; [done|]. by intros [? _].
Qed.

Lemma py_eq_int z1 z2 : py_eq (JInt z1) (JInt z2) = bool_decide (z1 = z2).
Proof.
  cbn. case_bool_decide as H1; case_bool_decide as H2; try done; exfalso.
  - assert (Hq : Q2Qc (inject_Z z1) = Q2Qc (inject_Z z2)) by congruence.
    apply Q2Qc_eq_iff in Hq. apply H2. revert Hq. unfold Qeq. cbn. lia.
  - by subst.
Qed.

Lemma is_sanitized_dict_get d k v :
  is_sanitized (JDict d) = true → dict_get str_eqb k d = Some v →
  is_sanitized v = true.
Proof.
  cbn [is_sanitized]. rewrite andb_true_iff, forallb_Forall, Forall_forall.
  intros [_ H] Hg. apply dict_get_Some_elem in Hg. apply (H _ Hg).
Qed.

Lemma is_sanitized_dict_NoDup d :
  is_sanitized (JDict d) = true → NoDup (dict_keys d).
Proof.
  cbn [is_sanitized]. rewrite andb_true_iff, bool_decide_eq_true. by intros [? _].
Qed.

Ltac hash_items_cases d :=
  rewrite (to_hashable_dict d);
  destruct (hash_items_head d) as [->|(? & ? & ->)]; reflexivity.

(** [to_hashable] preserves equality (on the value model, where sequences
    compare element by element). *)
Lemma to_hashable_eq v1 :
  is_sanitized v1 = true → ∀ v2, is_sanitized v2 = true →
  py_eq (to_hashable v1) (to_hashable v2) = is_equal v1 v2.
Proof.
  induction v1 as [|b|z|f|s|l1 IH|l1 IH|d1 IH] using json_nested_ind;
    intros Hs1 v2 Hs2.
  - destruct v2 as [|[]| | | | | |d2]; try reflexivity; try discriminate;
      by rewrite to_hashable_dict.
  - destruct b; destruct v2 as [|[]|z2| | |l2| |d2]; try reflexivity;
      try discriminate; hash_items_cases d2.
  - destruct v2 as [|[]| | | | | |d2]; try reflexivity; try discriminate;
      by rewrite to_hashable_dict.
  - destruct v2 as [|[]| | | | | |d2]; try reflexivity; try discriminate;
      by rewrite to_hashable_dict.
  - destruct v2 as [|[]| | | | | |d2]; try reflexivity; try discriminate;
      by rewrite to_hashable_dict.
  - destruct v2 as [|[]| | | |l2| |d2]; try reflexivity; try discriminate.
    + cbn [to_hashable]. rewrite py_eq_tuple, is_equal_seq. cbn [all2b].
      rewrite py_eq_int, all2b_map. cbn.
      cbn [is_sanitized] in Hs1, Hs2. rewrite forallb_Forall in Hs1, Hs2.
      apply all2b_ext. rewrite Forall_forall in IH, Hs1, Hs2 |- *.
      intros x Hx y Hy. apply IH; auto.
    + cbn [is_equal]. hash_items_cases d2.
  - done.
  - destruct v2 as [|[]| | | |l2| |d2]; try discriminate;
      try (rewrite to_hashable_dict;
           destruct (hash_items_head d1) as [->|(? & ? & ->)]; reflexivity).
    + pose proof (is_sanitized_dict_NoDup _ Hs1) as Hnd1.
      pose proof (is_sanitized_dict_NoDup _ Hs2) as Hnd2.
      rewrite !to_hashable_dict, py_eq_tuple. apply eq_true_iff_eq.
      unfold hash_items. rewrite all2b_hash_items, is_equal_dict.
      assert (Hsub : ∀ k v, (k, v) ∈ d1 → is_sanitized v = true).
      { intros k v Hin. eapply (is_sanitized_dict_get d1); [done|].
        by apply dict_get_NoDup. }
      rewrite Forall_forall in IH. split.
      * intros [Hks Hall]. rewrite Forall_forall in Hall.
        assert (Hperm : dict_keys d1 ≡ₚ dict_keys d2).
        { by rewrite <-(sorted_keys_perm d1), Hks, sorted_keys_perm. }
        split.
        { apply Permutation_length in Hperm. unfold dict_keys in Hperm.
          by rewrite !length_fmap in Hperm. }
        intros k v Hin.
        assert (Hk1 : k ∈ dict_keys d1).
        { apply list_elem_of_fmap. by exists (k, v). }
        assert (Hk2 : is_Some (dict_get str_eqb k d2)).
        { apply dict_get_is_Some. by rewrite <-Hperm. }
        destruct Hk2 as [v2 Hv2]. exists v2. split; [done|].
        specialize (Hall k). rewrite !dict_get_fmap in Hall.
        rewrite (dict_get_NoDup d1 k v), Hv2 in Hall by done. cbn in Hall.
        rewrite <-(IH (k, v) Hin).
        -- apply Hall. by rewrite sorted_keys_perm.
        -- by eapply Hsub.
        -- by eapply is_sanitized_dict_get.
      * intros [Hlen Hall].
        assert (Hperm : dict_keys d1 ≡ₚ dict_keys d2).
        { apply submseteq_length_Permutation.
          - apply NoDup_submseteq; [done|]. intros k Hk.
            apply list_elem_of_fmap in Hk as ([k' v] & -> & Hin).
            destruct (Hall _ _ Hin) as (v2 & Hv2 & _).
            apply dict_get_is_Some. cbn. by rewrite Hv2.
          - unfold dict_keys. rewrite !length_fmap. lia. }
        split; [by apply sorted_keys_eq|].
        apply Forall_forall. intros k Hk. rewrite sorted_keys_perm in Hk.
        apply list_elem_of_fmap in Hk as ([k' v] & -> & Hin).
        destruct (Hall _ _ Hin) as (v2 & Hv2 & Heq). cbn.
        rewrite !dict_get_fmap, (dict_get_NoDup d1 k' v), Hv2 by done. cbn.
        rewrite (IH (k', v) Hin); [done| |].
        -- by eapply Hsub.
        -- by eapply is_sanitized_dict_get.
Qed.

Lemma number_eqb_eq a b : number_eqb a b = true → a = b.
Proof. destruct a, b; cbn; try done; by intros ?%bool_decide_eq_true. Qed.

Lemma py_eq_number_of a b : py_eq a b = true → number_of a = number_of b.
Proof.
  destruct a, b; cbn [py_eq number_of]; try discriminate; intros H;
    try reflexivity; apply number_eqb_eq in H; by rewrite H.
Qed.

Lemma numerator_hash_eq a b :
  py_eq a b = true → numerator_hash a = numerator_hash b.
Proof. intros H. unfold numerator_hash. by rewrite (py_eq_number_of a b H). Qed.

(** Any function into a range of [n] values collides on [n + 1] arguments. *)
Lemma pigeonhole_search (f : Z → Z) (v m : Z) :
  (0 ≤ m)%Z →
  (∃ x, (0 ≤ x ≤ m)%Z ∧ f x = v) ∨ (∀ x, (0 ≤ x ≤ m)%Z → f x ≠ v).
Proof.
  revert m. apply natlike_ind.
  - destruct (decide (f 0%Z = v)) as [H|H]; [left; exists 0%Z; split; [lia|done]|].
    right. intros x Hx. by replace x with 0%Z by lia.
  - intros m Hm [(x & Hx & Hfx)|Hnone].
    + left. exists x. split; [lia|done].
    + destruct (decide (f (Z.succ m) = v)) as [H|H].
      * left. exists (Z.succ m). split; [lia|done].
      * right. intros x Hx. destruct (decide (x = Z.succ m)) as [->|Hne]; [done|].
        apply Hnone. lia.
Qed.

Lemma pigeonhole (n : Z) :
  (0 ≤ n)%Z → ∀ f : Z → Z,
  (∀ x, (0 ≤ x ≤ n)%Z → (0 ≤ f x < n)%Z) →
  ∃ x y, ((0 ≤ x < y)%Z ∧ (y ≤ n)%Z) ∧ f x = f y.
Proof.
  revert n. apply (natlike_ind (λ n, ∀ f : Z → Z,
    (∀ x, (0 ≤ x ≤ n)%Z → (0 ≤ f x < n)%Z) →
    ∃ x y, ((0 ≤ x < y)%Z ∧ (y ≤ n)%Z) ∧ f x = f y)).
  - intros f Hf. specialize (Hf 0%Z). lia.
  - intros n Hn IH f Hf.
    destruct (pigeonhole_search f (f (Z.succ n)) n Hn) as [(x & Hx & Hfx)|Hnone].
    + exists x, (Z.succ n). split; [lia|done].
    + destruct (IH (λ x, if (f x <? f (Z.succ n))%Z then f x else (f x - 1)%Z))
        as (x & y & Hxy & Hg).
      * intros x Hx. specialize (Hnone x Hx).
        pose proof (Hf x ltac:(lia)). pose proof (Hf (Z.succ n) ltac:(lia)).
        destruct (Z.ltb_spec (f x) (f (Z.succ n))); lia.
      * exists x, y. split; [lia|].
        pose proof (Hnone x ltac:(lia)). pose proof (Hnone y ltac:(lia)).
        destruct (Z.ltb_spec (f x) (f (Z.succ n)));
          destruct (Z.ltb_spec (f y) (f (Z.succ n))); lia.
Qed.

(** No hash function with machine-word results separates all unequal
    sanitized values. *)
Lemma bounded_hash_collides (h : json → Z) :
  (∀ v, (- 2 ^ 63 ≤ h v < 2 ^ 63)%Z) →
  ∃ v1 v2, is_sanitized v1 = true ∧ is_sanitized v2 = true
           ∧ h (to_hashable v1) = h (to_hashable v2)
           ∧ is_equal v1 v2 = false.
Proof.
  intros Hh.
  destruct (pigeonhole (2 ^ 64)%Z ltac:(done) (λ x, (h (JInt x) + 2 ^ 63)%Z))
    as (x & y & Hxy & Hf).
  - intros x _. specialize (Hh (JInt x)).
    change (2 ^ 64)%Z with (2 ^ 63 + 2 ^ 63)%Z. lia.
  - exists (JInt x), (JInt y). split_and!; [done|done|cbn; lia|].
    cbn [is_equal is_bool Bool.eqb negb]. rewrite py_eq_int.
    apply bool_decide_eq_false_2. lia.
Qed.

End JsonUtilFacts.

(** ** json_util.py: hashable values and the equality *)

Module JsonEqualFacts.
Import JsonUtil.

Lemma forallb_flat_map {A B} (f : B → bool) (g : A → list B) l :
  forallb f (flat_map g l) = forallb (λ x, forallb f (g x)) l.
Proof.
  induction l as [|x l IH]; [done|]. cbn. by rewrite forallb_app, IH.
Qed.

Lemma to_hashable_hashable v :
  is_sanitized v = true →
  is_hashable (to_hashable v) = true ∧ has_no_bool (to_hashable v) = true.
Proof.
  induction v as [|b|z|f|s|l IH|l IH|d IH] using json_nested_ind;
    try done; cbn [is_sanitized].
  - by destruct b.
  - intros Hl. cbn [to_hashable is_hashable has_no_bool forallb andb].
    rewrite !forallb_forall. rewrite forallb_forall in Hl.
    rewrite Forall_forall in IH.
    split; intros x (y & <- & Hy)%in_map_iff;
      apply IH; try (by apply list_elem_of_In); by apply Hl.
  - intros [Hnd Hd]%andb_true_iff. rewrite forallb_forall in Hd.
    rewrite Forall_forall in IH.
    cbn [to_hashable is_hashable has_no_bool]. rewrite !forallb_flat_map.
    rewrite !forallb_forall.
    assert (Hget : ∀ key,
              is_hashable (default JNone
                (dict_get str_eqb key (map (λ kv, (kv.1, to_hashable kv.2)) d)))
              = true
              ∧ has_no_bool (default JNone
                  (dict_get str_eqb key (map (λ kv, (kv.1, to_hashable kv.2)) d)))
                = true).
    { intros key. rewrite (dict_get_fmap to_hashable).
      destruct (dict_get str_eqb key d) as [v|] eqn:Hv; [|done].
      apply dict_get_Some_elem in Hv. cbn.
      apply (IH (key, v)); [done|]. apply (Hd (key, v)). by apply list_elem_of_In. }
    split; intros key _; cbn; destruct (Hget key) as [H1 H2];
      rewrite ?H1, ?H2; done.
Qed.

Lemma number_eqb_sym a b : number_eqb a b = number_eqb b a.
Proof.
  unfold number_eqb. destruct a, b; try reflexivity;
    apply bool_decide_ext; split; congruence.
Qed.

Lemma number_eqb_trans a b c :
  number_eqb a b = true → number_eqb b c = true → number_eqb a c = true.
Proof. intros Hab Hbc. by rewrite (JsonUtilFacts.number_eqb_eq a b Hab). Qed.

Lemma str_eqb_sym (a b : string) : str_eqb a b = str_eqb b a.
Proof. unfold str_eqb. apply bool_decide_ext. split; congruence. Qed.

Lemma all2b_sym {A} (f : A → A → bool) l1 :
  Forall (λ x, ∀ y, f x y = f y x) l1 → ∀ l2, all2b f l1 l2 = all2b f l2 l1.
Proof.
  induction 1 as [|x l1 Hx _ IH]; intros [|y l2]; try done.
  cbn. by rewrite Hx, IH.
Qed.

Lemma all2b_trans {A} (f : A → A → bool) l1 :
  Forall (λ x, ∀ y z, f x y = true → f y z = true → f x z = true) l1 →
  ∀ l2 l3, all2b f l1 l2 = true → all2b f l2 l3 = true → all2b f l1 l3 = true.
Proof.
  induction 1 as [|x l1 Hx _ IH]; intros [|y l2] [|z l3]; try done.
  cbn. rewrite !andb_true_iff. intros [Hxy H12] [Hyz H23].
  split; [by eapply Hx | by eapply IH].
Qed.

(** Python's [==] is symmetric and transitive on hashable values. *)
Lemma py_eq_sym v1 :
  is_hashable v1 = true → ∀ v2, py_eq v1 v2 = py_eq v2 v1.
Proof.
  induction v1 as [|b|z|f|s|l IH|l IH|d IH] using json_nested_ind;
    try discriminate; intros Hh v2.
  1-5: destruct v2; cbn [py_eq number_of];
       first [apply number_eqb_sym | apply str_eqb_sym | reflexivity].
  destruct v2 as [| | | | | |l2|]; try reflexivity.
  rewrite !JsonUtilFacts.py_eq_tuple. apply all2b_sym.
  cbn [is_hashable] in Hh. rewrite JsonUtilFacts.forallb_Forall in Hh.
  rewrite Forall_forall in IH, Hh.
  apply Forall_forall. intros x Hx. apply IH; [done | by apply Hh].
Qed.

Lemma py_eq_trans v1 :
  is_hashable v1 = true →
  ∀ v2 v3, py_eq v1 v2 = true → py_eq v2 v3 = true → py_eq v1 v3 = true.
Proof.
  induction v1 as [|b|z|f|s|l IH|l IH|d IH] using json_nested_ind;
    try discriminate; intros Hh v2 v3.
  1-5: destruct v2; cbn [py_eq number_of]; try discriminate;
       destruct v3; cbn [py_eq number_of]; try discriminate;
       first [apply number_eqb_trans | done
             | unfold str_eqb; intros ->%bool_decide_eq_true; done].
  destruct v2 as [| | | | | |l2|]; try discriminate.
  destruct v3 as [| | | | | |l3|]; try discriminate.
  rewrite !JsonUtilFacts.py_eq_tuple. apply all2b_trans.
  cbn [is_hashable] in Hh. rewrite JsonUtilFacts.forallb_Forall in Hh.
  rewrite Forall_forall in IH, Hh.
  apply Forall_forall. intros x Hx. apply IH; [done | by apply Hh].
Qed.

Lemma all2b_refl {A} (f : A → A → bool) l :
  Forall (λ x, f x x = true) l → all2b f l l = true.
Proof. induction 1 as [|x l Hx _ IH]; [done|]. cbn. by rewrite Hx, IH. Qed.

(** A hashable value without NaN equals itself. *)
Lemma py_eq_refl v : is_hashable v = true → nan_free v = true → py_eq v v = true.
Proof.
  induction v as [|b|z|f|s|l IH|l IH|d IH] using json_nested_ind;
    try discriminate; intros Hh Hn.
  - done.
  - cbn [py_eq number_of]. by apply JsonUtilFacts.number_eqb_refl.
  - cbn [py_eq number_of]. by apply JsonUtilFacts.number_eqb_refl.
  - cbn [py_eq number_of]. apply JsonUtilFacts.number_eqb_refl.
    by destruct f.
  - apply str_eqb_refl.
  - rewrite JsonUtilFacts.py_eq_tuple. apply all2b_refl.
    cbn [is_hashable nan_free] in Hh, Hn.
    rewrite JsonUtilFacts.forallb_Forall in Hh, Hn.
    rewrite Forall_forall in IH, Hh, Hn.
    apply Forall_forall. intros x Hx. apply IH; [done|by apply Hh|by apply Hn].
Qed.

End JsonEqualFacts.

(** C10, as amended: [sanitize] is idempotent on every Python value, and the
    sanitized value [is_equal] to the original one when the value holds no
    NaN. *)
Theorem sanitize_idempotent_and_equal (v : JsonUtil.json) :
  JsonUtil.well_formed v = true →
  JsonUtil.sanitize (JsonUtil.sanitize v) = JsonUtil.sanitize v
  ∧ (JsonUtil.nan_free v = true →
     JsonUtil.is_equal (JsonUtil.sanitize v) v = true).
Proof.
  intros Hv. split.
  - by apply JsonUtilFacts.sanitize_idem.
  - by apply JsonUtilFacts.is_equal_sanitize.
Qed.

Lemma sanitize_idempotent_and_equal_witness :
  JsonUtil.sanitize (JsonUtil.sanitize JsonUtil.example_value)
  = JsonUtil.sanitize JsonUtil.example_value
  ∧ JsonUtil.is_equal (JsonUtil.sanitize JsonUtil.example_value)
      JsonUtil.example_value = true.
Proof.
  destruct (sanitize_idempotent_and_equal JsonUtil.example_value) as [H1 H2].
  - vm_compute. reflexivity.
  - split; [exact H1|]. apply H2. vm_compute. reflexivity.
Defined.

(** C10, as stated, fails on NaN: [sanitize] returns the float, and
    [is_equal] compares it with [==]. *)
Lemma sanitize_not_equal_on_nan :
  JsonUtil.well_formed (JsonUtil.JFloat S754_nan) = true
  ∧ JsonUtil.is_equal (JsonUtil.sanitize (JsonUtil.JFloat S754_nan))
      (JsonUtil.JFloat S754_nan) = false.
Proof. split; reflexivity. Qed.

(** C2, as amended: on sanitized values, the hashable encodings are equal
    ([==]) exactly when the values are [is_equal]; so [is_equal] values have
    equal hashes under any hash function that respects [==].  The encoding of
    a boolean never equals the encoding of an int or a float, and an int and a
    float that denote the same number have equal encodings and hashes.  NaN
    is left out of the first value: CPython compares the elements of a tuple
    by identity before [==], which the value model does not represent. *)
Theorem to_hashable_equal_iff_is_equal
    (hash : JsonUtil.json → Z)
    (hash_respects_eq :
       ∀ a b, JsonUtil.py_eq a b = true → hash a = hash b)
    (v1 v2 : JsonUtil.json) :
  JsonUtil.is_sanitized v1 = true →
  JsonUtil.is_sanitized v2 = true →
  JsonUtil.nan_free v1 = true →
  (JsonUtil.py_eq (JsonUtil.to_hashable v1) (JsonUtil.to_hashable v2) = true
   ↔ JsonUtil.is_equal v1 v2 = true)
  ∧ (JsonUtil.is_equal v1 v2 = true →
     hash (JsonUtil.to_hashable v1) = hash (JsonUtil.to_hashable v2))
  ∧ (∀ b n, JsonUtil.is_number n = true →
       JsonUtil.py_eq (JsonUtil.to_hashable (JsonUtil.JBool b))
         (JsonUtil.to_hashable n) = false)
  ∧ (∀ z f,
       JsonUtil.py_eq (JsonUtil.JInt z) (JsonUtil.JFloat f) = true →
       JsonUtil.is_equal (JsonUtil.JInt z) (JsonUtil.JFloat f) = true
       ∧ hash (JsonUtil.to_hashable (JsonUtil.JInt z))
         = hash (JsonUtil.to_hashable (JsonUtil.JFloat f))).
Proof.
  intros Hs1 Hs2 _.
  pose proof (JsonUtilFacts.to_hashable_eq v1 Hs1 v2 Hs2) as Heq.
  split_and!.
  - by rewrite Heq.
  - intros H. apply hash_respects_eq. by rewrite Heq.
  - intros b [] Hn; try done; by destruct b.
  - intros z f H. split; [exact H|]. by apply hash_respects_eq.
Qed.

Lemma to_hashable_equal_iff_is_equal_witness :
  (JsonUtil.py_eq (JsonUtil.to_hashable JsonUtil.example_sanitized)
     (JsonUtil.to_hashable JsonUtil.example_sanitized_float) = true
   ↔ JsonUtil.is_equal JsonUtil.example_sanitized
       JsonUtil.example_sanitized_float = true)
  ∧ JsonUtil.numerator_hash (JsonUtil.to_hashable JsonUtil.example_sanitized)
    = JsonUtil.numerator_hash
        (JsonUtil.to_hashable JsonUtil.example_sanitized_float).
Proof.
  destruct (to_hashable_equal_iff_is_equal JsonUtil.numerator_hash
              JsonUtilFacts.numerator_hash_eq
              JsonUtil.example_sanitized JsonUtil.example_sanitized_float)
    as (H1 & H2 & _); [vm_compute; reflexivity..|].
  split; [exact H1|]. apply H2. vm_compute. reflexivity.
Defined.

(** C2, as stated, fails: [-1] and [-2] are not [is_equal], and CPython gives
    both the hash [-2]. *)
Lemma hash_equal_not_is_equal :
  JsonUtil.hash (JsonUtil.to_hashable (JsonUtil.JInt (-1))) = Some (-2)%Z
  ∧ JsonUtil.hash (JsonUtil.to_hashable (JsonUtil.JInt (-2))) = Some (-2)%Z
  ∧ JsonUtil.is_sanitized (JsonUtil.JInt (-1)) = true
  ∧ JsonUtil.is_sanitized (JsonUtil.JInt (-2)) = true
  ∧ JsonUtil.is_equal (JsonUtil.JInt (-1)) (JsonUtil.JInt (-2)) = false.
Proof. vm_compute. auto. Qed.

(** ** posixpath *)

Module posixpathFacts.
Import posixpath.

Example dirname_examples :
  dirname "/foo/bar/a.txt" = "/foo/bar" ∧ dirname "/foo" = "/"
  ∧ dirname "/" = "/" ∧ dirname "foo" = "" ∧ dirname "" = ""
  ∧ dirname "//" = "//" ∧ dirname "/foo//bar" = "/foo"
  ∧ join "/tmp/x" "7f" = "/tmp/x/7f".
Proof. repeat split; reflexivity. Qed.

Definition str_prefix (a b : string) : Prop := ∃ c, b = String.append a c.

Lemma append_cons x a c :
  String.append (String x a) c = String x (String.append a c).
Proof. reflexivity. Qed.

Lemma str_prefix_length a b :
  str_prefix a b → a = b ∨ String.length a < String.length b.
Proof.
  intros [c ->]. revert c. induction a as [|x a IH]; intros c.
  - destruct c as [|y c]; [by left|right].
    change (0 < S (String.length c)). lia.
  - rewrite append_cons.
    destruct (IH c) as [Heq|Hlt]; [left; by rewrite <-Heq|right].
    change (S (String.length a) < S (String.length (String.append a c))). lia.
Qed.

Lemma str_prefix_refl a : str_prefix a a.
Proof.
  exists EmptyString. induction a as [|x a IH]; [done|].
  rewrite append_cons. by rewrite <-IH.
Qed.

Lemma str_prefix_trans a b c : str_prefix a b → str_prefix b c → str_prefix a c.
Proof.
  intros [x ->] [y ->]. exists (String.append x y).
  induction a as [|z a IH]; [done|]. rewrite !append_cons. by rewrite IH.
Qed.

Lemma str_prefix_nil a : str_prefix EmptyString a.
Proof. by exists a. Qed.

Lemma str_prefix_cons x a b : str_prefix a b → str_prefix (String x a) (String x b).
Proof. intros [c ->]. by exists c. Qed.

Lemma head_of_prefix p : str_prefix (head_of p) p.
Proof.
  induction p as [|c r IH]; [apply str_prefix_refl|].
  cbn [head_of]. destruct (contains_sep (String c r)).
  - by apply str_prefix_cons.
  - apply str_prefix_nil.
Qed.

Lemma rstrip_sep_prefix s : str_prefix (rstrip_sep s) s.
Proof.
  induction s as [|c r IH]; [apply str_prefix_refl|].
  cbn [rstrip_sep]. destruct (rstrip_sep r) as [|c' r'] eqn:E.
  - destruct (is_sep c); [apply str_prefix_nil|].
    apply str_prefix_cons, str_prefix_nil.
  - by apply str_prefix_cons.
Qed.

Lemma dirname_prefix p : str_prefix (dirname p) p.
Proof.
  unfold dirname. destruct (_ && _).
  - eapply str_prefix_trans; [apply rstrip_sep_prefix | apply head_of_prefix].
  - apply head_of_prefix.
Qed.

Lemma posix_dirname_shrinks p :
  dirname p = p ∨ String.length (dirname p) < String.length p.
Proof. apply str_prefix_length, dirname_prefix. Qed.

End posixpathFacts.

#[export] Instance posix_OsPath : OsPath := {|
  normcase := posixpath.normcase;
  dirname := posixpath.dirname;
  join := posixpath.join;
  dirname_shrinks := posixpathFacts.posix_dirname_shrinks;
|}.

(** ** cache.py: starting a file, reusing a cached operation tree *)

Module CacheFacts.
Import JsonUtil Operation Cache.

Section with_os_path.
Context `{OsPath}.

Lemma init_norm_cased_files (files : gmap string (option operation)) n :
  is_Some (map_fold (λ filename operation
                       (norm_cased_files : gmap string (option Operation.operation)),
                       <[normcase filename := operation]> norm_cased_files)
                    ∅ files !! n)
  ↔ ∃ filename, is_Some (files !! filename) ∧ normcase filename = n.
Proof.
  apply (map_fold_weak_ind (λ r m,
    is_Some (r !! n) ↔ ∃ filename, is_Some (m !! filename) ∧ normcase filename = n)).
  - rewrite lookup_empty. split; [by intros [? ?]|].
    intros (f & Hf & _). rewrite lookup_empty in Hf. by destruct Hf.
  - intros f x m r Hfresh IH. split.
    + destruct (decide (normcase f = n)) as [<-|Hne].
      * intros _. exists f. by rewrite lookup_insert_eq.
      * rewrite lookup_insert_ne by done. intros (g & Hg & Hgn)%IH.
        exists g. split; [|done].
        rewrite lookup_insert_ne; [done|]. intros ->. by rewrite Hfresh in Hg; destruct Hg.
    + intros (g & Hg & <-).
      destruct (decide (f = g)) as [->|Hne]; [by rewrite lookup_insert_eq|].
      rewrite lookup_insert_ne in Hg by done.
      destruct (decide (normcase f = normcase g)) as [->|Hne'];
        [by rewrite lookup_insert_eq|].
      rewrite lookup_insert_ne by done. apply IH. by exists g.
Qed.

(** The constructor establishes the invariant. *)
Lemma norm_cased_files_inv_init bn files subbuilds dirs fv ov m :
  norm_cased_files_inv (__init__ bn files subbuilds dirs fv ov m).
Proof. intros n. apply init_norm_cased_files. Qed.

Lemma norm_cased_files_inv_insert c filename entry :
  norm_cased_files_inv c →
  norm_cased_files_inv
    (set_files c (<[filename := entry]> (_files c))
       (<[normcase filename := entry]> (_norm_cased_files c))).
Proof.
  intros Hinv n. cbn. split.
  - destruct (decide (normcase filename = n)) as [<-|Hne].
    + intros _. exists filename. by rewrite lookup_insert_eq.
    + rewrite lookup_insert_ne by done. intros (g & Hg & Hgn)%Hinv.
      exists g. split; [|done].
      destruct (decide (filename = g)) as [->|?];
        [by rewrite lookup_insert_eq | by rewrite lookup_insert_ne].
  - intros (g & Hg & <-).
    destruct (decide (normcase filename = normcase g)) as [->|Hne];
      [by rewrite lookup_insert_eq|].
    rewrite lookup_insert_ne by done. apply Hinv. exists g. split; [|done].
    rewrite lookup_insert_ne in Hg; [done|]. by intros ->.
Qed.

Lemma has_norm_cased_file_spec c n :
  has_norm_cased_file c n = true ↔ is_Some (_norm_cased_files c !! n).
Proof. unfold has_norm_cased_file. by rewrite bool_decide_eq_true. Qed.

(** *** [use_cached_operation] *)

Lemma records_loop subs :
  (fix loop (l : list operation) : list operation :=
     match l with
     | [] => []
     | suboperation :: l' => records suboperation ++ loop l'
     end) subs = flat_map records subs.
Proof. induction subs as [|o subs IH]; [done|]. cbn [flat_map]. by rewrite <-IH. Qed.

Lemma records_complex o :
  is_complex o = true →
  records o = (if negb (setup_failed o) then [o] else [])
              ++ flat_map records (suboperations o).
Proof.
  destruct o; [done| |]; intros _; rewrite <-records_loop; reflexivity.
Qed.

Lemma records_simple o : is_complex o = false → records o = [].
Proof. by destruct o. Qed.

Lemma records_are_complex o x :
  x ∈ records o → is_complex x = true ∧ setup_failed x = false.
Proof.
  revert x. induction o as [| fn fc f a k subs rv fcr ra sf fi IH
                            | f a k subs rv ra sf fi IH]
    using operation_nested_ind; intros x.
  - cbn. by intros ?%elem_of_nil.
  - rewrite records_complex by done. cbn [setup_failed suboperations].
    intros [Hx|Hx]%elem_of_app.
    + destruct sf; cbn in Hx; [by apply elem_of_nil in Hx|].
      by apply list_elem_of_singleton in Hx as ->.
    + apply list_elem_of_In, in_flat_map in Hx as (y & Hy%list_elem_of_In & Hx%list_elem_of_In).
      rewrite Forall_forall in IH. by apply (IH y).
  - rewrite records_complex by done. cbn [setup_failed suboperations].
    intros [Hx|Hx]%elem_of_app.
    + destruct sf; cbn in Hx; [by apply elem_of_nil in Hx|].
      by apply list_elem_of_singleton in Hx as ->.
    + apply list_elem_of_In, in_flat_map in Hx as (y & Hy%list_elem_of_In & Hx%list_elem_of_In).
      rewrite Forall_forall in IH. by apply (IH y).
Qed.

Lemma first_collision_app c l1 l2 :
  first_collision c (l1 ++ l2)
  = match first_collision c l1 with
    | Some o => Some o
    | None => first_collision c l2
    end.
Proof. induction l1 as [|o l1 IH]; [done|]. cbn. by destruct (collides c o). Qed.

Lemma first_collision_Some c l o :
  first_collision c l = Some o → o ∈ l ∧ collides c o = true.
Proof.
  induction l as [|x l IH]; [done|]. cbn. destruct (collides c x) eqn:Hx.
  - intros [= ->]. split; [left | done].
  - intros [? ?]%IH. split; [by right | done].
Qed.

Lemma first_collision_None c l :
  first_collision c l = None ↔ ∀ o, o ∈ l → collides c o = false.
Proof.
  induction l as [|x l IH]; cbn.
  - split; [intros _ o ?%elem_of_nil; done | done].
  - destruct (collides c x) eqn:Hx.
    + split; [done|]. intros Hall. rewrite Hall in Hx; [done | left].
    + rewrite IH. split.
      * intros Hall o [->|?]%elem_of_cons; [done | by apply Hall].
      * intros Hall o ?. apply Hall. by right.
Qed.

(** The outcome of checking a list of records against the cache. *)
Definition check_all (c : t) (l : list operation) : result unit :=
  match first_collision c l with
  | Some o => Raise (duplicate_error o)
  | None => Ok ()
  end.

Lemma check_all_app c l1 l2 :
  check_all c (l1 ++ l2)
  = match check_all c l1 with Raise e => Raise e | Ok _ => check_all c l2 end.
Proof.
  unfold check_all. rewrite first_collision_app.
  by destruct (first_collision c l1).
Qed.

(** The loop of [_assert_no_repeats] over the suboperations. *)
Definition assert_loop (c : t) : list operation → result unit :=
  fix loop (l : list operation) : result unit :=
    match l with
    | [] => Ok ()
    | suboperation :: l' =>
        match
          (if is_complex suboperation
           then _assert_no_repeats c suboperation else Ok ())
        with
        | Raise e => Raise e
        | Ok _ => loop l'
        end
    end.

Lemma assert_loop_spec c subs :
  Forall (λ o, is_complex o = true →
               _assert_no_repeats c o = check_all c (records o)) subs →
  assert_loop c subs = check_all c (flat_map records subs).
Proof.
  induction 1 as [|o subs Ho _ IH]; [done|].
  cbn [assert_loop flat_map]. rewrite check_all_app.
  destruct (is_complex o) eqn:Hc.
  - rewrite Ho by done. destruct (check_all c (records o)); [|done]. apply IH.
  - rewrite records_simple by done. apply IH.
Qed.

Lemma assert_no_repeats_spec c o :
  is_complex o = true → _assert_no_repeats c o = check_all c (records o).
Proof.
  induction o as [| fn fc f a k subs rv fcr ra sf fi IH
                  | f a k subs rv ra sf fi IH]
    using operation_nested_ind; [done| |]; intros _.
  - rewrite records_complex by done. cbn [setup_failed suboperations].
    rewrite check_all_app.
    change (_assert_no_repeats c (BuildFileOperation fn fc f a k subs rv fcr ra sf fi))
      with (match (if negb sf
                   then _assert_doesnt_have_norm_cased_file c (normcase fn) fn
                   else Ok ())
            with Raise e => Raise e | Ok _ => assert_loop c subs end).
    rewrite (assert_loop_spec c subs IH).
    destruct sf; cbn [negb]; [done|].
    unfold _assert_doesnt_have_norm_cased_file, check_all. cbn.
    by destruct (has_norm_cased_file c (normcase fn)).
  - rewrite records_complex by done. cbn [setup_failed suboperations].
    rewrite check_all_app.
    change (_assert_no_repeats c (SubbuildOperation f a k subs rv ra sf fi))
      with (match (if negb sf
                   then _assert_doesnt_have_subbuild c
                          (subbuild_key (SubbuildOperation f a k subs rv ra sf fi))
                          (SubbuildOperation f a k subs rv ra sf fi)
                   else Ok ())
            with Raise e => Raise e | Ok _ => assert_loop c subs end).
    rewrite (assert_loop_spec c subs IH).
    destruct sf; cbn [negb]; [done|].
    unfold _assert_doesnt_have_subbuild, check_all. cbn [first_collision collides].
    by destruct (has_subbuild c _).
Qed.

(** The loop of [_use_cached_operation] over the suboperations. *)
Definition use_loop : t → list operation → result unit * t :=
  fix loop (c : t) (l : list operation) : result unit * t :=
    match l with
    | [] => (Ok (), c)
    | suboperation :: l' =>
        if is_complex suboperation
        then match _use_cached_operation c suboperation with
             | (Raise e, c) => (Raise e, c)
             | (Ok _, c) => loop c l'
             end
        else loop c l'
    end.

Lemma use_loop_spec subs :
  Forall (λ o, ∀ c, is_complex o = true →
            _use_cached_operation c o = (Ok (), fold_left plant (records o) c))
         subs →
  ∀ c, use_loop c subs = (Ok (), fold_left plant (flat_map records subs) c).
Proof.
  induction 1 as [|o subs Ho _ IH]; intros c; [done|].
  cbn [use_loop flat_map]. rewrite fold_left_app.
  destruct (is_complex o) eqn:Hc.
  - rewrite Ho by done. apply IH.
  - rewrite records_simple by done. apply IH.
Qed.

Lemma use_cached_operation_spec o :
  ∀ c, is_complex o = true →
       _use_cached_operation c o = (Ok (), fold_left plant (records o) c).
Proof.
  induction o as [| fn fc f a k subs rv fcr ra sf fi IH
                  | f a k subs rv ra sf fi IH]
    using operation_nested_ind; [done| |]; intros c _.
  - rewrite records_complex by done. cbn [setup_failed suboperations].
    rewrite fold_left_app.
    change (_use_cached_operation c (BuildFileOperation fn fc f a k subs rv fcr ra sf fi))
      with (use_loop (if negb sf
                      then plant c (BuildFileOperation fn fc f a k subs rv fcr ra sf fi)
                      else c) subs).
    rewrite (use_loop_spec subs IH). by destruct sf.
  - rewrite records_complex by done. cbn [setup_failed suboperations].
    rewrite fold_left_app.
    change (_use_cached_operation c (SubbuildOperation f a k subs rv ra sf fi))
      with (use_loop (if negb sf
                      then plant c (SubbuildOperation f a k subs rv ra sf fi)
                      else c) subs).
    rewrite (use_loop_spec subs IH). by destruct sf.
Qed.

Lemma dict_has_set_same {K V} (keq : K → K → bool) k (v : V) d :
  keq k k = true → dict_has keq k (dict_set keq k v d) = true.
Proof.
  intros Hk. unfold dict_has. induction d as [|[k0 v0] d IH]; cbn.
  - by rewrite Hk.
  - destruct (keq k0 k) eqn:Hk0; cbn; by rewrite Hk0.
Qed.

Lemma dict_has_set_mono {K V} (keq : K → K → bool) k k' (v : V) d :
  dict_has keq k' d = true → dict_has keq k' (dict_set keq k v d) = true.
Proof.
  unfold dict_has. induction d as [|[k0 v0] d IH]; cbn; [done|].
  destruct (keq k0 k) eqn:Hk0; cbn; by destruct (keq k0 k').
Qed.

Lemma fold_plant_files_keep l : ∀ c f o,
  _files c !! f = Some (Some o) →
  ∃ o', (o' = o ∨ o' ∈ l) ∧ _files (fold_left plant l c) !! f = Some (Some o').
Proof.
  induction l as [|x l IH]; intros c f o Hf; [by exists o; split; [left|]|].
  cbn [fold_left].
  assert (∃ o1, (o1 = o ∨ o1 = x) ∧ _files (plant c x) !! f = Some (Some o1))
    as (o1 & Ho1 & Hf1).
  { destruct x as [| fn ? ? ? ? ? ? ? ? ? ? |]; cbn; [by exists o; split; [left|] | |
      by exists o; split; [left|]].
    destruct (decide (fn = f)) as [->|Hne].
    - eexists; split; [by right | by rewrite lookup_insert_eq].
    - exists o. split; [by left | by rewrite lookup_insert_ne]. }
  destruct (IH _ _ _ Hf1) as (o' & Ho' & Hf').
  exists o'. split; [|done].
  destruct Ho' as [->|?]; [|by right; right].
  destruct Ho1 as [->| ->]; [by left | right; left].
Qed.

Lemma fold_plant_norm_cased_files_keep l : ∀ c n o,
  _norm_cased_files c !! n = Some (Some o) →
  ∃ o', (o' = o ∨ o' ∈ l)
        ∧ _norm_cased_files (fold_left plant l c) !! n = Some (Some o').
Proof.
  induction l as [|x l IH]; intros c n o Hn; [by exists o; split; [left|]|].
  cbn [fold_left].
  assert (∃ o1, (o1 = o ∨ o1 = x)
                ∧ _norm_cased_files (plant c x) !! n = Some (Some o1))
    as (o1 & Ho1 & Hn1).
  { destruct x as [| fn ? ? ? ? ? ? ? ? ? ? |]; cbn; [by exists o; split; [left|] | |
      by exists o; split; [left|]].
    destruct (decide (normcase fn = n)) as [->|Hne].
    - eexists; split; [by right | by rewrite lookup_insert_eq].
    - exists o. split; [by left | by rewrite lookup_insert_ne]. }
  destruct (IH _ _ _ Hn1) as (o' & Ho' & Hn').
  exists o'. split; [|done].
  destruct Ho' as [->|?]; [|by right; right].
  destruct Ho1 as [->| ->]; [by left | right; left].
Qed.

Lemma fold_plant_has_subbuild_keep l : ∀ c key,
  has_subbuild c key = true → has_subbuild (fold_left plant l c) key = true.
Proof.
  induction l as [|x l IH]; intros c key Hkey; [done|].
  cbn [fold_left]. apply IH.
  destruct x; cbn; [done | done |].
  by apply dict_has_set_mono.
Qed.

(** *** What [use_cached_operation] leaves in the cache *)

Lemma filenames_app l1 l2 : filenames (l1 ++ l2) = filenames l1 ++ filenames l2.
Proof. apply flat_map_app. Qed.

Lemma subbuild_keys_app l1 l2 :
  subbuild_keys (l1 ++ l2) = subbuild_keys l1 ++ subbuild_keys l2.
Proof. apply flat_map_app. Qed.

Lemma fold_plant_files_other l : ∀ c filename,
  filename ∉ filenames l →
  _files (fold_left plant l c) !! filename = _files c !! filename.
Proof.
  induction l as [|o l IH]; intros c filename Hf; [done|].
  cbn [fold_left]. change (o :: l) with ([o] ++ l) in Hf.
  rewrite filenames_app, not_elem_of_app in Hf. destruct Hf as [Ho Hl].
  rewrite IH by done.
  destruct o as [|fn ? ? ? ? ? ? ? ? ? ?|]; cbn [plant]; [done| |done].
  cbn. apply lookup_insert_ne. intros ->. apply Ho. cbn. left.
Qed.

Lemma fold_plant_norm_cased_files_other l : ∀ c n,
  n ∉ map normcase (filenames l) →
  _norm_cased_files (fold_left plant l c) !! n = _norm_cased_files c !! n.
Proof.
  induction l as [|o l IH]; intros c n Hn; [done|].
  cbn [fold_left]. change (o :: l) with ([o] ++ l) in Hn.
  rewrite filenames_app, map_app, not_elem_of_app in Hn. destruct Hn as [Ho Hl].
  rewrite IH by done.
  destruct o as [|fn ? ? ? ? ? ? ? ? ? ?|]; cbn [plant]; [done| |done].
  cbn. apply lookup_insert_ne. intros <-. apply Ho. cbn. left.
Qed.

Lemma dict_set_keys_Forall {V} (P : json → Prop) key (v : V) d :
  Forall P (dict_keys d) → P key → Forall P (dict_keys (dict_set py_eq key v d)).
Proof.
  unfold dict_keys. intros Hd Hkey. induction d as [|[k v0] d IH]; cbn.
  - by repeat constructor.
  - cbn in Hd. apply Forall_cons in Hd as [Hk Hd].
    destruct (py_eq k key); cbn; constructor; auto.
Qed.

(** Assigning to a key leaves the entries of the keys that are not equal to
    it. *)
Lemma dict_get_set_ne {V} (d : list (json * V)) key' key v :
  Forall (λ k, is_hashable k = true) (dict_keys d) → is_hashable key' = true →
  py_eq key' key = false →
  dict_get py_eq key (dict_set py_eq key' v d) = dict_get py_eq key d.
Proof.
  unfold dict_keys. intros Hd Hk' Hne. induction d as [|[k v0] d IH]; cbn.
  - by rewrite Hne.
  - cbn in Hd. apply Forall_cons in Hd as [Hk Hd].
    destruct (py_eq k key') eqn:Hkk'; cbn.
    + destruct (py_eq k key) eqn:Hkkey; [|done].
      exfalso. rewrite (JsonEqualFacts.py_eq_sym k Hk) in Hkk'.
      by rewrite (JsonEqualFacts.py_eq_trans key' Hk' k key Hkk' Hkkey) in Hne.
    + destruct (py_eq k key); [done|]. by apply IH.
Qed.

Lemma plain_key_Forall l :
  forallb plain_key l = true
  ↔ Forall (λ k, is_hashable k = true ∧ nan_free k = true) l.
Proof.
  rewrite JsonUtilFacts.forallb_Forall. apply Forall_iff. intros k.
  unfold plain_key. by rewrite andb_true_iff.
Qed.

Lemma fold_plant_plain l : ∀ c,
  forallb plain_key (dict_keys (_subbuilds c)) = true →
  forallb plain_key (subbuild_keys l) = true →
  forallb plain_key (dict_keys (_subbuilds (fold_left plant l c))) = true.
Proof.
  induction l as [|o l IH]; intros c Hc Hl; [done|].
  cbn [fold_left]. change (o :: l) with ([o] ++ l) in Hl.
  rewrite subbuild_keys_app, forallb_app, andb_true_iff in Hl.
  destruct Hl as [Ho Hl]. apply IH; [|done].
  destruct o as [| |f a k subs rv ra sf fi]; cbn [plant]; [done..|].
  cbn [_subbuilds set_subbuilds]. cbn in Ho. rewrite andb_true_r in Ho.
  rewrite JsonUtilFacts.forallb_Forall in *.
  by apply dict_set_keys_Forall.
Qed.

Lemma fold_plant_subbuilds_other l : ∀ c key,
  forallb plain_key (dict_keys (_subbuilds c)) = true →
  forallb plain_key (subbuild_keys l) = true →
  forallb (λ k, negb (py_eq k key)) (subbuild_keys l) = true →
  dict_get py_eq key (_subbuilds (fold_left plant l c))
  = dict_get py_eq key (_subbuilds c).
Proof.
  induction l as [|o l IH]; intros c key Hc Hl Hne; [done|].
  cbn [fold_left]. change (o :: l) with ([o] ++ l) in Hl, Hne.
  rewrite subbuild_keys_app, forallb_app, andb_true_iff in Hl, Hne.
  destruct Hl as [Ho Hl], Hne as [Hoe Hne].
  rewrite IH; [|by apply (fold_plant_plain [o])|done|done].
  destruct o as [| |f a k subs rv ra sf fi]; cbn [plant]; [done..|].
  cbn [_subbuilds set_subbuilds]. cbn in Ho, Hoe.
  rewrite andb_true_r in Ho, Hoe.
  apply andb_true_iff in Ho as [Hh _]. apply negb_true_iff in Hoe.
  apply dict_get_set_ne; [|done|done].
  apply plain_key_Forall in Hc. eapply Forall_impl; [exact Hc|]. by intros ? [? _].
Qed.

(** Each record is the entry under its keys, unless a later record of the
    tree has the same key. *)
Lemma fold_plant_stored before o later c :
  forallb plain_key (dict_keys (_subbuilds c)) = true →
  forallb plain_key (subbuild_keys (before ++ o :: later)) = true →
  is_complex o = true →
  stored (fold_left plant (before ++ o :: later) c) o later.
Proof.
  intros Hc Hl Ho. rewrite fold_left_app. cbn [fold_left].
  set (c1 := fold_left plant before c).
  change (o :: later) with ([o] ++ later) in Hl.
  rewrite !subbuild_keys_app, !forallb_app, !andb_true_iff in Hl.
  destruct Hl as (Hb & Hoo & Hla).
  destruct o as [| fn fc f a k subs rv fcr ra sf fi | f a k subs rv ra sf fi];
    [done| |]; cbn [stored].
  - split.
    + intros Hf. rewrite fold_plant_files_other by done. cbn.
      apply lookup_insert_eq.
    + intros Hn. rewrite fold_plant_norm_cased_files_other by done. cbn.
      apply lookup_insert_eq.
  - intros Hne.
    assert (forallb plain_key (dict_keys (_subbuilds c1)) = true) as Hc1
      by by apply fold_plant_plain.
    pose proof (fold_plant_plain [_] c1 Hc1 Hoo) as Hc2. cbn [fold_left] in Hc2.
    rewrite fold_plant_subbuilds_other by done.
    cbn [plant _subbuilds set_subbuilds].
    apply dict_get_set_same.
    cbn in Hoo. rewrite andb_true_r in Hoo.
    apply andb_true_iff in Hoo as [? ?]. by apply JsonEqualFacts.py_eq_refl.
Qed.

(** Storing records that do not collide with the cache [c0] appends to its
    subbuilds. *)
Lemma fold_plant_subbuilds_app (c0 : Cache.t) l : ∀ c,
  (∀ o, o ∈ l → collides c0 o = false) →
  (∃ rest, _subbuilds c = _subbuilds c0 ++ rest) →
  ∃ rest, _subbuilds (fold_left plant l c) = _subbuilds c0 ++ rest.
Proof.
  induction l as [|o l IH]; intros c Hcol Hs; [done|].
  cbn [fold_left]. apply IH; [intros o' Ho'; apply Hcol; by right|].
  destruct Hs as [rest Hs].
  destruct o as [| |f a k subs rv ra sf fi]; cbn [plant]; [by exists rest..|].
  cbn [_subbuilds set_subbuilds]. rewrite Hs.
  specialize (Hcol _ (list_elem_of_here _ _)). cbn [collides] in Hcol.
  unfold has_subbuild in Hcol.
  rewrite (dict_set_app_absent _ _ _ _ _ Hcol). by eexists.
Qed.

(** With the class invariant, storing records that do not collide with the
    cache [c0] keeps its files. *)
Lemma fold_plant_files_keeps (c0 : Cache.t) l : ∀ c,
  norm_cased_files_inv c0 →
  (∀ o, o ∈ l → collides c0 o = false) →
  _files c0 ⊆ _files c → _norm_cased_files c0 ⊆ _norm_cased_files c →
  _files c0 ⊆ _files (fold_left plant l c)
  ∧ _norm_cased_files c0 ⊆ _norm_cased_files (fold_left plant l c).
Proof.
  induction l as [|o l IH]; intros c Hinv Hcol Hf Hn; [done|].
  cbn [fold_left]. apply IH; [done | intros o' Ho'; apply Hcol; by right | ..].
  - destruct o as [| fn ? ? ? ? ? ? ? ? ? ? |]; cbn; [done| |done].
    apply insert_subseteq_r; [|done].
    specialize (Hcol _ (list_elem_of_here _ _)). cbn in Hcol.
    unfold has_norm_cased_file in Hcol. apply bool_decide_eq_false in Hcol.
    destruct (_files c0 !! fn) eqn:Hfn; [|done].
    exfalso. apply Hcol, Hinv. exists fn. by rewrite Hfn.
  - destruct o as [| fn ? ? ? ? ? ? ? ? ? ? |]; cbn; [done| |done].
    apply insert_subseteq_r; [|done].
    specialize (Hcol _ (list_elem_of_here _ _)). cbn in Hcol.
    unfold has_norm_cased_file in Hcol. apply bool_decide_eq_false in Hcol.
    by destruct (_norm_cased_files c0 !! normcase fn) eqn:Hfn;
      [exfalso; apply Hcol|].
Qed.

Lemma fold_plant_frame l : ∀ c,
  _build_name (fold_left plant l c) = _build_name c
  ∧ _created_dirs (fold_left plant l c) = _created_dirs c.
Proof.
  induction l as [|o l IH]; intros c; [done|]. cbn [fold_left].
  destruct (IH (plant c o)) as [-> ->]. by destruct o.
Qed.

(** Planting records keeps the class invariant. *)
Lemma fold_plant_inv l : ∀ c,
  norm_cased_files_inv c → norm_cased_files_inv (fold_left plant l c).
Proof.
  induction l as [|x l IH]; intros c Hinv; [done|].
  cbn [fold_left]. apply IH. destruct x; cbn [plant]; [done| |done].
  by apply norm_cased_files_inv_insert.
Qed.

End with_os_path.
End CacheFacts.

(** C3.  [Cache.start_building_file] raises the duplicate-build error exactly
    when the cache already holds a filename, started or finished, with the
    same norm-cased form as [name]; it has no other failure.  On success the
    in-progress entry [None] is stored under [name] in [_files] and under its
    norm-cased form in [_norm_cased_files], nothing else changes and the
    class invariant keeps holding; when it raises the cache is unchanged. *)
Theorem start_building_file_duplicate_iff `{OsPath} (c : Cache.t) (name : string) :
  Cache.norm_cased_files_inv c →
  let r := (Cache.start_building_file c name).1 in
  let c' := (Cache.start_building_file c name).2 in
  (r = Raise (DuplicateBuild name)
   ↔ ∃ filename, is_Some (Cache._files c !! filename)
                 ∧ normcase filename = normcase name)
  ∧ (r = Raise (DuplicateBuild name) ∨ r = Ok ())
  ∧ (r = Ok () →
     c' = Cache.set_files c (<[name := None]> (Cache._files c))
            (<[normcase name := None]> (Cache._norm_cased_files c))
     ∧ Cache._files c' !! name = Some None
     ∧ Cache._norm_cased_files c' !! normcase name = Some None
     ∧ Cache.norm_cased_files_inv c')
  ∧ (r = Raise (DuplicateBuild name) → c' = c).
Proof.
  intros Hinv. cbv zeta.
  unfold Cache.start_building_file, Cache._assert_doesnt_have_norm_cased_file.
  destruct (Cache.has_norm_cased_file c (normcase name)) eqn:Hhas; cbn [fst snd].
  - apply CacheFacts.has_norm_cased_file_spec, Hinv in Hhas.
    split_and!; [done | by left | done | done].
  - split_and!.
    + split; [done|]. intros Hex%Hinv%CacheFacts.has_norm_cased_file_spec. congruence.
    + by right.
    + intros _. split_and!; [done | cbn; by rewrite lookup_insert_eq
                             | cbn; by rewrite lookup_insert_eq |].
      by apply CacheFacts.norm_cased_files_inv_insert.
    + done.
Qed.


(** A cache in which [out/a.txt] is being built, and a finished operation
    tree: a build file operation whose function checked a file and ran a
    subbuild that built a second file. *)
Definition example_started_cache : Cache.t :=
  (Cache.start_building_file
     (Cache.create_empty_mutable "build" (JsonUtil.JDict [])) "out/a.txt").2.

Definition example_tree : Operation.operation :=
  Operation.BuildFileOperation "out/b.txt" Operation.METADATA "make_b"
    (JsonUtil.JList []) (JsonUtil.JDict [])
    [ Operation.SimpleOperation "is_file"
        (JsonUtil.JList [JsonUtil.JStr "in.txt"]) (JsonUtil.JBool true) None true;
      Operation.SubbuildOperation "sub" (JsonUtil.JList [JsonUtil.JInt 1])
        (JsonUtil.JDict [])
        [ Operation.BuildFileOperation "out/c.txt" Operation.HASH "make_c"
            (JsonUtil.JList []) (JsonUtil.JDict []) []
            JsonUtil.JNone (JsonUtil.JStr "h") false false true ]
        JsonUtil.JNone false false true ]
    JsonUtil.JNone (JsonUtil.JList [JsonUtil.JInt 3]) false false true.

Lemma example_started_cache_inv : Cache.norm_cased_files_inv example_started_cache.
Proof.
  apply (CacheFacts.norm_cased_files_inv_insert
           (Cache.create_empty_mutable "build" (JsonUtil.JDict [])) "out/a.txt" None).
  apply CacheFacts.norm_cased_files_inv_init.
Qed.

Lemma start_building_file_duplicate_iff_witness :
  Cache.norm_cased_files_inv example_started_cache
  ∧ (let r := (Cache.start_building_file example_started_cache "out/a.txt").1 in
     let c' := (Cache.start_building_file example_started_cache "out/a.txt").2 in
     (r = Raise (DuplicateBuild "out/a.txt")
      ↔ ∃ filename, is_Some (Cache._files example_started_cache !! filename)
                    ∧ normcase filename = normcase "out/a.txt")
     ∧ (r = Raise (DuplicateBuild "out/a.txt") ∨ r = Ok ())
     ∧ (r = Ok () →
        c' = Cache.set_files example_started_cache
               (<["out/a.txt" := None]> (Cache._files example_started_cache))
               (<[normcase "out/a.txt" := None]>
                  (Cache._norm_cased_files example_started_cache))
        ∧ Cache._files c' !! "out/a.txt" = Some None
        ∧ Cache._norm_cased_files c' !! normcase "out/a.txt" = Some None
        ∧ Cache.norm_cased_files_inv c')
     ∧ (r = Raise (DuplicateBuild "out/a.txt") → c' = example_started_cache)).
Proof.
  split; [exact example_started_cache_inv|].
  exact (start_building_file_duplicate_iff example_started_cache "out/a.txt"
           example_started_cache_inv).
Defined.

(** The second start of the same file is refused; a different file is
    accepted. *)
Example start_building_file_twice :
  (Cache.start_building_file example_started_cache "out/a.txt").1
  = Raise (DuplicateBuild "out/a.txt")
  ∧ (Cache.start_building_file example_started_cache "out/b.txt").1 = Ok ().
Proof. split; vm_compute; reflexivity. Qed.


(** The record of [out/c.txt], the last record of the example tree, is the
    entry of the cache under that name. *)
Example use_cached_operation_stores_record :
  Cache.get_file
    (Cache.use_cached_operation example_started_cache example_tree).2
    "out/c.txt"
  = Some (Operation.BuildFileOperation "out/c.txt" Operation.HASH "make_c"
            (JsonUtil.JList []) (JsonUtil.JDict []) []
            JsonUtil.JNone (JsonUtil.JStr "h") false false true).
Proof. vm_compute. reflexivity. Qed.

(** The three records of the example tree are stored; reusing the tree a
    second time is refused and leaves the cache as it was. *)
Example use_cached_operation_example :
  length (Cache.records example_tree) = 3
  ∧ (Cache.use_cached_operation example_started_cache example_tree).1 = Ok ()
  ∧ (Cache.use_cached_operation
       (Cache.use_cached_operation example_started_cache example_tree).2
       example_tree)
    = (Raise (DuplicateBuild "out/b.txt"),
       (Cache.use_cached_operation example_started_cache example_tree).2).
Proof. split_and!; vm_compute; reflexivity. Qed.

(** ** cache.py: parsing *)

Module CacheParseFacts.
Import JsonUtil Operation Cache.

(** The loop of [_operations_from_json]. *)
Definition from_json_loop : list json → index → result (list operation * index) :=
  fix loop (l : list json) (idx : index) : result (list operation * index) :=
    match l with
    | [] => Ok ([], idx)
    | operation_json :: l' =>
        match _operation_from_json operation_json idx with
        | Raise e => Raise e
        | Ok (operation, idx) =>
            match loop l' idx with
            | Raise e => Raise e
            | Ok (operations, idx) => Ok (operation :: operations, idx)
            end
        end
    end.

Lemma operations_from_json_eq operations_json idx :
  _operations_from_json operations_json idx
  = (l ← iter operations_json; from_json_loop l idx).
Proof. reflexivity. Qed.

Lemma operation_from_json_not_dict operation_json idx :
  (∀ d, operation_json ≠ JDict d) →
  _operation_from_json operation_json idx = Raise TypeError.
Proof. destruct operation_json; try reflexivity. intros Hd. by destruct (Hd d). Qed.

(** The parser stored for an item is [_operations_from_json] of its value. *)
Lemma item_parser_eq (v : json) idx :
  match v with
  | JList l | JTuple l => from_json_loop l
  | JStr EmptyString | JDict [] => λ idx, Ok ([], idx)
  | _ => λ _, Raise TypeError
  end idx = _operations_from_json v idx.
Proof.
  rewrite operations_from_json_eq.
  destruct v as [| | | | s | l | l | d]; try reflexivity.
  - destruct s; reflexivity.
  - destruct d as [|[k v] d]; reflexivity.
Qed.

(** [_operation_from_json] as the source states it, with the call of
    [_operations_from_json] on [operation_json['suboperations']]. *)
Lemma operation_from_json_unfold operation_json idx :
  _operation_from_json operation_json idx
  = (type_ ← getitem operation_json "type";
     if py_eq type_ (JStr "build_file") then
       filename ← getitem operation_json "filename";
       file_comparison ← getitem operation_json "fileComparison";
       file_comparison ← FileComparison_getitem file_comparison;
       func_name ← getitem operation_json "funcName";
       args ← getitem operation_json "args";
       kwargs ← getitem operation_json "kwargs";
       suboperations_json ← getitem operation_json "suboperations";
       '(suboperations, idx) ← _operations_from_json suboperations_json idx;
       return_value ← getitem operation_json "returnValue";
       file_comparison_result ← getitem operation_json "fileComparisonResult";
       raised ← get operation_json "raised" (JBool false);
       setup_failed ← get operation_json "setupFailed" (JBool false);
       new_build_file filename file_comparison func_name args kwargs
         suboperations return_value file_comparison_result raised setup_failed
         idx
     else if py_eq type_ (JStr "subbuild") then
       func_name ← getitem operation_json "funcName";
       args ← getitem operation_json "args";
       kwargs ← getitem operation_json "kwargs";
       suboperations_json ← getitem operation_json "suboperations";
       '(suboperations, idx) ← _operations_from_json suboperations_json idx;
       return_value ← getitem operation_json "returnValue";
       raised ← get operation_json "raised" (JBool false);
       setup_failed ← get operation_json "setupFailed" (JBool false);
       new_subbuild func_name args kwargs suboperations return_value raised
         setup_failed idx
     else
       args ← getitem operation_json "args";
       return_value ← getitem operation_json "returnValue";
       exception_type ← get operation_json "exceptionType" JNone;
       operation ← new_simple type_ args return_value exception_type;
       Ok (operation, idx)).
Proof.
  destruct operation_json as [| | | | | | | d]; try reflexivity.
  cbn [_operation_from_json]. fold from_json_loop.
  rewrite (dict_get_fmap
             (λ v : json,
                match v with
                | JList l | JTuple l => from_json_loop l
                | JStr EmptyString | JDict [] => λ idx, Ok ([], idx)
                | _ => λ _, Raise TypeError
                end) d "suboperations").
  unfold getitem.
  destruct (dict_get str_eqb "suboperations" d) as [v|];
    cbn [fmap option_fmap option_map default]; [|reflexivity].
  unfold mbind, result_bind; cbv beta iota.
  rewrite <-(item_parser_eq v idx). reflexivity.
Qed.

(** *** The parser does not raise the parse error *)

Definition no_cf {A} (r : result A) : Prop := r ≠ Raise CacheFormat.

Lemma no_cf_bind {A B} (m : result A) (k : A → result B) :
  no_cf m → (∀ a, m = Ok a → no_cf (k a)) → no_cf (m ≫= k).
Proof.
  destruct m as [a|e]; intros Hm Hk; [by apply Hk|].
  intros [= ->]. by apply Hm.
Qed.

Lemma no_cf_Ok {A} (a : A) : no_cf (Ok a).
Proof. done. Qed.

Lemma no_cf_getitem j key : no_cf (getitem j key).
Proof. destruct j; try done. cbn. by destruct (dict_get _ _ _). Qed.

Lemma no_cf_get j key v : no_cf (get j key v).
Proof. by destruct j. Qed.

Lemma no_cf_FileComparison_getitem j : no_cf (FileComparison_getitem j).
Proof.
  destruct j; try done. cbn.
  destruct (str_eqb s "METADATA"); [done|]. by destruct (str_eqb s "HASH").
Qed.

Lemma no_cf_as_str j : no_cf (as_str j).
Proof. by destruct j. Qed.

Lemma no_cf_as_bool j : no_cf (as_bool j).
Proof. by destruct j. Qed.

Lemma no_cf_as_optional_str j : no_cf (as_optional_str j).
Proof. by destruct j. Qed.

Ltac no_cf_step :=
  first [ apply no_cf_Ok | apply no_cf_getitem | apply no_cf_get
        | apply no_cf_FileComparison_getitem | apply no_cf_as_str
        | apply no_cf_as_bool | apply no_cf_as_optional_str
        | apply no_cf_bind; [|intros ? ?] ].

Lemma no_cf_new_build_file fn fc f a k subs rv fcr ra sf idx :
  no_cf (new_build_file fn fc f a k subs rv fcr ra sf idx).
Proof. unfold new_build_file. repeat no_cf_step. Qed.

Lemma no_cf_new_subbuild f a k subs rv ra sf idx :
  no_cf (new_subbuild f a k subs rv ra sf idx).
Proof. unfold new_subbuild. repeat no_cf_step. Qed.

Lemma no_cf_new_simple ty a rv e : no_cf (new_simple ty a rv e).
Proof. unfold new_simple. repeat no_cf_step. Qed.

Lemma no_cf_from_json_loop l :
  Forall (λ j, ∀ idx, no_cf (_operation_from_json j idx)) l →
  ∀ idx, no_cf (from_json_loop l idx).
Proof.
  induction 1 as [|j l Hj _ IH]; intros idx; [done|].
  cbn [from_json_loop]. specialize (Hj idx). unfold no_cf in *.
  destruct (_operation_from_json j idx) as [[o idx']|e];
    [|intros [= ->]; by apply Hj].
  specialize (IH idx'). destruct (from_json_loop l idx') as [[os idx'']|e];
    [done | intros [= ->]; by apply IH].
Qed.

Lemma no_cf_from_json :
  ∀ j, (∀ idx, no_cf (_operation_from_json j idx))
       ∧ (∀ idx, no_cf (_operations_from_json j idx)).
Proof.
  assert (Hstr : ∀ {A} (f : A → json) (l : list A),
             (∀ a, ∃ s, f a = JStr s) →
             Forall (λ j, ∀ idx, no_cf (_operation_from_json j idx)) (map f l)).
  { intros A f l Hf. apply Forall_forall.
    intros j (a & <- & _)%list_elem_of_In%in_map_iff idx.
    destruct (Hf a) as [s ->]. done. }
  induction j as [| b | z | f | s | l IH | l IH | d IH] using json_nested_ind;
    (split; [try (intros idx; rewrite operation_from_json_not_dict; done)|]);
    try (intros idx; done).
  - intros idx. rewrite operations_from_json_eq. cbn [iter mbind result_bind].
    apply no_cf_from_json_loop. apply Hstr. by eexists.
  - intros idx. rewrite operations_from_json_eq. cbn [iter mbind result_bind].
    apply no_cf_from_json_loop. eapply Forall_impl; [exact IH|]. by intros j [? _].
  - intros idx. rewrite operations_from_json_eq. cbn [iter mbind result_bind].
    apply no_cf_from_json_loop. eapply Forall_impl; [exact IH|]. by intros j [? _].
  - intros idx. rewrite operation_from_json_unfold.
    assert (Hsub : ∀ v idx', getitem (JDict d) "suboperations" = Ok v →
                             no_cf (_operations_from_json v idx')).
    { intros v idx'. cbn. destruct (dict_get str_eqb "suboperations" d) as [v'|] eqn:Hv;
        [|done]. intros [= ->].
      apply dict_get_Some_elem in Hv. rewrite Forall_forall in IH.
      by destruct (IH _ Hv) as [_ ?]. }
    apply no_cf_bind; [apply no_cf_getitem|]. intros type_ _.
    destruct (py_eq type_ (JStr "build_file")); [|destruct (py_eq type_ (JStr "subbuild"))].
    + repeat first [ apply no_cf_new_build_file | by eapply Hsub | no_cf_step
                   | match goal with |- no_cf (let '(_, _) := ?a in _) => destruct a end ].
    + repeat first [ apply no_cf_new_subbuild | by eapply Hsub | no_cf_step
                   | match goal with |- no_cf (let '(_, _) := ?a in _) => destruct a end ].
    + repeat first [ apply no_cf_new_simple | no_cf_step ].
  - intros idx. rewrite operations_from_json_eq. cbn [iter mbind result_bind].
    apply no_cf_from_json_loop. apply Hstr. by eexists.
Qed.

Lemma no_cf_operations_from_json j idx : no_cf (_operations_from_json j idx).
Proof. apply no_cf_from_json. Qed.

Lemma no_cf_created_dirs_from_json j : no_cf (created_dirs_from_json j).
Proof.
  unfold created_dirs_from_json. apply no_cf_bind; [by destruct j|].
  intros l _. induction l as [|x l IH]; [done|].
  destruct x; try done.
  apply no_cf_bind; [exact IH | done].
Qed.

Lemma read_immutable_CacheFormat_iff `{OsPath} files_ filename :
  read_immutable files_ filename = Raise CacheFormat
  ↔ is_cache_format_error files_ filename = true.
Proof.
  unfold read_immutable, is_cache_format_error.
  destruct (files_ !! filename) as [[[j|b]|]|]; [|done..].
  destruct j as [| | | | | | | d]; try done.
  cbn [negb orb].
  destruct (py_eq _ (JStr _SOFTWARE)); cbn [negb orb]; [|done].
  cbn [getitem]. destruct (dict_get str_eqb "cacheFileVersion" d) as [v|];
    [|done].
  cbn [mbind result_bind].
  destruct (is_equal v _CACHE_FILE_VERSION); cbn [negb]; [|done].
  split; [|done]. intros Hcf. exfalso. revert Hcf.
  change (no_cf
    (root_operations ← match dict_get str_eqb "rootOperations" d with
                       | Some value => Ok value
                       | None => Raise (KeyError (JStr "rootOperations"))
                       end;
     '(_, (files, subbuilds)) ← _operations_from_json root_operations (∅, []);
     build_name ← getitem (JDict d) "buildName";
     created_dirs ← getitem (JDict d) "createdDirs";
     created_dirs ← created_dirs_from_json created_dirs;
     func_versions ← getitem (JDict d) "funcVersions";
     operation_versions ← getitem (JDict d) "operationVersions";
     build_name ← as_str build_name;
     Ok (__init__ build_name files subbuilds created_dirs func_versions
           operation_versions false))).
  apply no_cf_bind; [apply (no_cf_getitem (JDict d))|]. intros ro _.
  apply no_cf_bind; [apply no_cf_operations_from_json|]. intros [os [fi su]] _.
  repeat first [ apply no_cf_created_dirs_from_json | no_cf_step ].
Qed.

End CacheParseFacts.

(** C6.  An operation whose ['type'] is a string other than ['build_file']
    and ['subbuild'] is parsed as a simple operation of that name, provided
    it has ['args'] and ['returnValue'] and its ['exceptionType'], if any, is
    a string or null; the two dictionaries are left as they are.  The parser
    of operations never raises the parse error, and [read_immutable] raises
    it exactly when the file is not a gzip stream of a JSON document, the
    document is not a dictionary naming this package as its software, or
    its cache file version differs from the current one. *)
Theorem unknown_type_parsed_as_simple_operation `{OsPath}
    (d : list (string * JsonUtil.json)) (type_ : string)
    (args return_value : JsonUtil.json) (exception_type_str : option string)
    (idx : Cache.index) :
  dict_get str_eqb "type" d = Some (JsonUtil.JStr type_) →
  type_ ≠ "build_file" → type_ ≠ "subbuild" →
  dict_get str_eqb "args" d = Some args →
  dict_get str_eqb "returnValue" d = Some return_value →
  Cache.as_optional_str
    (default JsonUtil.JNone (dict_get str_eqb "exceptionType" d))
  = Ok exception_type_str →
  Cache._operation_from_json (JsonUtil.JDict d) idx
  = Ok (Operation.SimpleOperation type_ args return_value exception_type_str
          true, idx)
  ∧ (∀ operation_json idx',
       Cache._operation_from_json operation_json idx' ≠ Raise CacheFormat)
  ∧ (∀ files_ filename,
       Cache.read_immutable files_ filename = Raise CacheFormat
       ↔ Cache.is_cache_format_error files_ filename = true).
Proof.
  intros Htype Hbf Hsb Hargs Hrv Hexc. split_and!.
  - rewrite CacheParseFacts.operation_from_json_unfold.
    cbn [Cache.getitem Cache.get]. rewrite Htype, Hargs, Hrv.
    cbn [mbind result_bind JsonUtil.py_eq].
    destruct (str_eqb_spec type_ "build_file") as [?|_]; [done|].
    destruct (str_eqb_spec type_ "subbuild") as [?|_]; [done|].
    cbn [mbind result_bind]. unfold Cache.new_simple.
    cbn [Cache.as_str mbind result_bind]. by rewrite Hexc.
  - intros operation_json idx'. apply CacheParseFacts.no_cf_from_json.
  - intros files_ filename. apply CacheParseFacts.read_immutable_CacheFormat_iff.
Qed.

Lemma unknown_type_parsed_as_simple_operation_witness :
  Cache._operation_from_json example_unknown_type_operation (∅, [])
  = Ok (Operation.SimpleOperation "frobnicate" (JsonUtil.JList [])
          JsonUtil.JNone None true, (∅, []))
  ∧ (∀ operation_json idx',
       Cache._operation_from_json operation_json idx' ≠ Raise CacheFormat)
  ∧ (∀ files_ filename,
       Cache.read_immutable files_ filename = Raise CacheFormat
       ↔ Cache.is_cache_format_error files_ filename = true).
Proof.
  apply (unknown_type_parsed_as_simple_operation
           [("args", JsonUtil.JList []); ("returnValue", JsonUtil.JNone);
            ("type", JsonUtil.JStr "frobnicate")]
           "frobnicate" (JsonUtil.JList []) JsonUtil.JNone None (∅, []));
    [reflexivity | discriminate | discriminate | reflexivity | reflexivity
    | reflexivity].
Defined.

(** Reading a cache file that holds an operation of an unknown type returns a
    cache: the operation is kept as a simple operation of that name. *)
Lemma unknown_type_read_without_error :
  Cache.is_cache_format_error example_unknown_type_fs "/build/cache.gz" = false
  ∧ ∃ c, Cache.read_immutable example_unknown_type_fs "/build/cache.gz" = Ok c
         ∧ Cache._subbuilds c
           = [(JsonUtil.JTuple
                 [JsonUtil.JInt 0; JsonUtil.JStr "sub";
                  JsonUtil.JTuple [JsonUtil.JInt 0]; JsonUtil.JTuple []],
               Some (Operation.SubbuildOperation "sub" (JsonUtil.JList [])
                       (JsonUtil.JDict [])
                       [Operation.SimpleOperation "frobnicate"
                          (JsonUtil.JList []) JsonUtil.JNone None true]
                       JsonUtil.JNone false false true))].
Proof.
  split; [vm_compute; reflexivity|].
  eexists. split; [vm_compute; reflexivity|]. vm_compute. reflexivity.
Qed.

(** ** build_dirs.py: the invariant of [_exists_dirs] *)

Module BuildDirsFacts.
Import BuildDirs.

Section with_os.
Context `{OsPath}.

(** The invariant of the two loops of [_handle_dir_exists]: only [parent]
    may be missing as a parent directory. *)
Definition closed_up_to (E : gset string) (parent : string) : Prop :=
  ∀ D, D ∈ E → dirname D ∈ E ∨ dirname D = parent.

Lemma closed_up_to_start s parent :
  exists_dirs_closed s → closed_up_to (_exists_dirs s) parent.
Proof. intros Hs D HD. left. by apply Hs. Qed.

Lemma closed_up_to_add E parent :
  closed_up_to E parent → closed_up_to (E ∪ {[ parent ]}) (dirname parent).
Proof.
  intros HE D [HD| ->%elem_of_singleton]%elem_of_union; [|by right].
  left. destruct (HE D HD) as [?| ->]; set_solver.
Qed.

Lemma dirname_rounds parent rounds (E : gset string) :
  (String.length parent + 2 ≤ S rounds)%nat →
  dirname parent ∈ E ∪ {[ parent ]}
  ∨ (String.length (dirname parent) + 2 ≤ rounds)%nat.
Proof.
  intros Hr. destruct (dirname_shrinks parent) as [->|Hlt]; [left; set_solver|].
  right. lia.
Qed.

Lemma handle_dir_exists_while2_spec rounds : ∀ s parent,
  closed_up_to (_exists_dirs s) parent →
  parent ∈ _exists_dirs s ∨ (String.length parent + 2 ≤ rounds)%nat →
  exists_dirs_closed (_handle_dir_exists_while2 rounds s parent)
  ∧ _exists_dirs s ⊆ _exists_dirs (_handle_dir_exists_while2 rounds s parent)
  ∧ parent ∈ _exists_dirs (_handle_dir_exists_while2 rounds s parent).
Proof.
  induction rounds as [|rounds IH]; intros s parent Hc Hpre; cbn.
  - destruct Hpre as [Hin|?]; [|lia]. split_and!; [|done..].
    intros D HD. by destruct (Hc D HD) as [?| ->].
  - case_bool_decide as Hin; cbn [negb].
    + split_and!; [|done..]. intros D HD. by destruct (Hc D HD) as [?| ->].
    + destruct Hpre as [?|Hr]; [done|].
      destruct (IH (set_exists_dirs s (_exists_dirs s ∪ {[ parent ]}))
                  (dirname parent)) as (Hclosed & Hsub & Hp).
      * by apply closed_up_to_add.
      * by apply dirname_rounds.
      * cbn in Hsub. split_and!; [done | set_solver | set_solver].
Qed.

Lemma handle_dir_exists_while1_spec rounds : ∀ s parent,
  closed_up_to (_exists_dirs s) parent →
  let r := _handle_dir_exists_while1 rounds s parent in
  closed_up_to (_exists_dirs r.1) r.2
  ∧ _exists_dirs s ⊆ _exists_dirs r.1
  ∧ (parent ∈ _exists_dirs r.1 ∨ r.2 = parent)
  ∧ _build_dir_counts r.1 = _build_dir_counts s.
Proof.
  induction rounds as [|rounds IH]; intros s parent Hc; cbn.
  - split_and!; [done | done | by right | done].
  - destruct (negb _ && negb _); cbn; [|split_and!; [done | done | by right | done]].
    destruct (IH (set_exists_dirs
                    (set_removed_files
                       (set_maybe_removed_dirs
                          (set_removed_dirs s (_removed_dirs s ∖ {[ parent ]}))
                          (_maybe_removed_dirs s ∖ {[ parent ]}))
                       (_removed_files s ∖ {[ parent ]}))
                    (_exists_dirs s ∪ {[ parent ]}))
                (dirname parent)) as (Hc' & Hsub & Hp & Hcounts).
    + by apply closed_up_to_add.
    + cbn in Hsub. split_and!; [done | set_solver | left; set_solver | done].
Qed.

(** [_handle_dir_exists] keeps the invariant, forgets nothing and records the
    directory. *)
Lemma handle_dir_exists_closed s norm_cased_dir :
  exists_dirs_closed s →
  exists_dirs_closed (_handle_dir_exists s norm_cased_dir)
  ∧ _exists_dirs s ⊆ _exists_dirs (_handle_dir_exists s norm_cased_dir)
  ∧ norm_cased_dir ∈ _exists_dirs (_handle_dir_exists s norm_cased_dir).
Proof.
  intros Hs. unfold _handle_dir_exists.
  pose proof (handle_dir_exists_while1_spec (String.length norm_cased_dir + 2)
                s norm_cased_dir (closed_up_to_start s _ Hs)) as Hw1.
  destruct (_handle_dir_exists_while1 _ s norm_cased_dir) as [s1 parent].
  cbn in Hw1. destruct Hw1 as (Hc1 & Hsub1 & Hp1 & _).
  destruct (handle_dir_exists_while2_spec (String.length parent + 2) s1 parent
              Hc1 (or_intror (le_n _))) as (Hc2 & Hsub2 & Hp2).
  split_and!; [done | set_solver |].
  destruct Hp1 as [?| ->]; [set_solver | done].
Qed.

Lemma started_building_file_while_exists rounds cds : ∀ s prev_parent parent locked,
  _exists_dirs (started_building_file_while rounds cds s prev_parent parent
                  locked).2
  = _exists_dirs s.
Proof.
  induction rounds as [|rounds IH]; intros s prev_parent parent locked; cbn;
    [done|].
  case_bool_decide; [|done]. case_bool_decide; [done|].
  case_bool_decide; by rewrite IH.
Qed.

Lemma error_building_file_while_exists rounds : ∀ s prev_parent parent,
  let E := _exists_dirs (error_building_file_while rounds s prev_parent parent).2 in
  E = _exists_dirs s ∨ E = ∅.
Proof.
  induction rounds as [|rounds IH]; intros s prev_parent parent; cbn;
    [by left|].
  case_bool_decide; [|by left].
  destruct (_build_dir_counts s !! parent) as [count|]; [|by left].
  case_bool_decide; [by left|].
  cbn. destruct (_created_dirs_map s !! parent).
  - match goal with
    | |- context [error_building_file_while rounds ?s' parent (dirname parent)] =>
        destruct (IH s' parent (dirname parent)) as [->| ->]
    end; by right.
  - match goal with
    | |- context [error_building_file_while rounds ?s' parent (dirname parent)] =>
        destruct (IH s' parent (dirname parent)) as [->| ->]
    end; [by left | by right].
Qed.

Lemma exists_dirs_closed_eq s s' :
  _exists_dirs s' = _exists_dirs s → exists_dirs_closed s → exists_dirs_closed s'.
Proof. unfold exists_dirs_closed. by intros ->. Qed.

Lemma exists_dirs_closed_empty s : _exists_dirs s = ∅ → exists_dirs_closed s.
Proof. unfold exists_dirs_closed. intros ->. set_solver. Qed.

(** *** The bounds on the rounds do not cut the loops short *)

Lemma handle_dir_exists_while1_rounds rounds : ∀ rounds' s parent,
  parent ∈ _exists_dirs s ∨ is_Some (_build_dir_counts s !! parent)
  ∨ (String.length parent + 2 ≤ rounds)%nat →
  (rounds ≤ rounds')%nat →
  _handle_dir_exists_while1 rounds' s parent
  = _handle_dir_exists_while1 rounds s parent.
Proof.
  induction rounds as [|rounds IH]; intros rounds' s parent Hpre Hle.
  - destruct rounds' as [|rounds']; [done|]. cbn.
    destruct Hpre as [?|[?|?]]; [| |lia].
    + by rewrite (bool_decide_true (parent ∈ _)).
    + rewrite (bool_decide_true (is_Some _)) by done. by rewrite andb_false_r.
  - destruct rounds' as [|rounds']; [lia|]. cbn.
    case_bool_decide as Hin; cbn [negb andb]; [done|].
    case_bool_decide as Hcount; cbn [negb]; [done|].
    apply IH; [|lia]. cbn.
    destruct Hpre as [?|[?|Hr]]; [done | done |].
    destruct (dirname_rounds parent rounds (_exists_dirs s) Hr); auto.
Qed.

Lemma handle_dir_exists_while2_rounds rounds : ∀ rounds' s parent,
  parent ∈ _exists_dirs s ∨ (String.length parent + 2 ≤ rounds)%nat →
  (rounds ≤ rounds')%nat →
  _handle_dir_exists_while2 rounds' s parent
  = _handle_dir_exists_while2 rounds s parent.
Proof.
  induction rounds as [|rounds IH]; intros rounds' s parent Hpre Hle.
  - destruct rounds' as [|rounds']; [done|]. cbn.
    destruct Hpre as [?|?]; [|lia]. by rewrite (bool_decide_true (parent ∈ _)).
  - destruct rounds' as [|rounds']; [lia|]. cbn.
    case_bool_decide as Hin; cbn [negb]; [done|].
    apply IH; [|lia]. cbn. destruct Hpre as [?|Hr]; [done|].
    by apply dirname_rounds.
Qed.

Lemma dirname_shorter prev_parent :
  dirname prev_parent ≠ prev_parent →
  (String.length (dirname prev_parent) < String.length prev_parent)%nat.
Proof. intros Hne. by destruct (dirname_shrinks prev_parent). Qed.

Lemma started_building_file_while_rounds rounds cds :
  ∀ rounds' s prev_parent locked,
  (String.length prev_parent + 1 ≤ rounds)%nat → (rounds ≤ rounds')%nat →
  started_building_file_while rounds' cds s prev_parent (dirname prev_parent)
    locked
  = started_building_file_while rounds cds s prev_parent (dirname prev_parent)
      locked.
Proof.
  induction rounds as [|rounds IH]; intros rounds' s prev_parent locked Hr Hle;
    [lia|].
  destruct rounds' as [|rounds']; [lia|]. cbn.
  case_bool_decide as Hne; [|done]. case_bool_decide; [done|].
  apply dirname_shorter in Hne.
  case_bool_decide; apply IH; lia.
Qed.

Lemma error_building_file_while_rounds rounds : ∀ rounds' s prev_parent,
  (String.length prev_parent + 1 ≤ rounds)%nat → (rounds ≤ rounds')%nat →
  error_building_file_while rounds' s prev_parent (dirname prev_parent)
  = error_building_file_while rounds s prev_parent (dirname prev_parent).
Proof.
  induction rounds as [|rounds IH]; intros rounds' s prev_parent Hr Hle; [lia|].
  destruct rounds' as [|rounds']; [lia|]. cbn.
  case_bool_decide as Hne; [|done].
  destruct (_build_dir_counts s !! dirname prev_parent); [|done].
  case_bool_decide; [done|].
  apply dirname_shorter in Hne. apply IH; lia.
Qed.

Lemma handle_dir_exists_while1_maybe_removed rounds : ∀ s parent,
  _maybe_removed_dirs (_handle_dir_exists_while1 rounds s parent).1
  ⊆ _maybe_removed_dirs s.
Proof.
  induction rounds as [|rounds IH]; intros s parent; cbn; [done|].
  destruct (negb _ && negb _); [|done].
  etrans; [apply IH|]. cbn. set_solver.
Qed.

Lemma handle_dir_exists_while2_maybe_removed rounds : ∀ s parent,
  _maybe_removed_dirs (_handle_dir_exists_while2 rounds s parent)
  = _maybe_removed_dirs s.
Proof.
  induction rounds as [|rounds IH]; intros s parent; cbn; [done|].
  destruct (negb _); [|done]. by rewrite IH.
Qed.

Lemma handle_dir_exists_maybe_removed s norm_cased_dir :
  _maybe_removed_dirs (_handle_dir_exists s norm_cased_dir)
  ⊆ _maybe_removed_dirs s.
Proof.
  unfold _handle_dir_exists.
  pose proof (handle_dir_exists_while1_maybe_removed
                (String.length norm_cased_dir + 2) s norm_cased_dir) as Hsub.
  destruct (_handle_dir_exists_while1 _ s norm_cased_dir) as [s1 parent].
  by rewrite handle_dir_exists_while2_maybe_removed.
Qed.

(** What [_handle_dir_exists] leaves alone. *)
Definition dir_exists_frame (s s' : t) : Prop :=
  _build_dir_counts s' = _build_dir_counts s
  ∧ _created_dirs_map s' = _created_dirs_map s
  ∧ _error_created_dirs s' = _error_created_dirs s
  ∧ _removed_dirs s' ⊆ _removed_dirs s
  ∧ _maybe_removed_dirs s' ⊆ _maybe_removed_dirs s
  ∧ _removed_files s' ⊆ _removed_files s.

Lemma handle_dir_exists_while1_frame rounds : ∀ s parent,
  dir_exists_frame s (_handle_dir_exists_while1 rounds s parent).1.
Proof.
  induction rounds as [|rounds IH]; intros s parent; cbn;
    [by repeat split|].
  destruct (negb _ && negb _); [|by repeat split].
  match goal with
  | |- dir_exists_frame _ (_handle_dir_exists_while1 rounds ?s1 ?p).1 =>
      destruct (IH s1 p) as (H1 & H2 & H3 & H4 & H5 & H6)
  end.
  cbn in *. repeat split; try done; set_solver.
Qed.

Lemma handle_dir_exists_while2_frame rounds : ∀ s parent,
  dir_exists_frame s (_handle_dir_exists_while2 rounds s parent).
Proof.
  induction rounds as [|rounds IH]; intros s parent; cbn;
    [by repeat split|].
  destruct (negb _); [|by repeat split].
  match goal with
  | |- dir_exists_frame _ (_handle_dir_exists_while2 rounds ?s1 ?p) =>
      destruct (IH s1 p) as (H1 & H2 & H3 & H4 & H5 & H6)
  end.
  cbn in *. by repeat split.
Qed.

Lemma handle_dir_exists_frame s norm_cased_dir :
  dir_exists_frame s (_handle_dir_exists s norm_cased_dir).
Proof.
  unfold _handle_dir_exists.
  pose proof (handle_dir_exists_while1_frame
                (String.length norm_cased_dir + 2) s norm_cased_dir) as H1.
  destruct (_handle_dir_exists_while1 _ s norm_cased_dir) as [s1 parent].
  pose proof (handle_dir_exists_while2_frame (String.length parent + 2) s1
                parent) as H2.
  cbn [fst] in H1. unfold dir_exists_frame in *.
  destruct H1 as (? & ? & ? & ? & ? & ?), H2 as (? & ? & ? & ? & ? & ?).
  repeat split; try congruence; set_solver.
Qed.

(** *** The reservation counts

    What the loops of [started_building_file] and [error_building_file] do
    to [_build_dir_counts], which does not depend on the other
    attributes. *)
Fixpoint started_counts (rounds : nat) (counts : gmap string Z)
    (prev_parent parent : string) : gmap string Z :=
  match rounds with
  | O => counts
  | S rounds =>
      if bool_decide (parent ≠ prev_parent) then
        let count := default 0%Z (counts !! normcase parent) in
        let counts := <[normcase parent := (count + 1)%Z]> counts in
        if bool_decide (0 < count)%Z then counts
        else started_counts rounds counts parent (dirname parent)
      else counts
  end.

Fixpoint error_counts (rounds : nat) (counts : gmap string Z)
    (prev_parent parent : string) : result unit * gmap string Z :=
  match rounds with
  | O => (Ok (), counts)
  | S rounds =>
      if bool_decide (parent ≠ prev_parent) then
        match counts !! parent with
        | None => (Raise (KeyError (JsonUtil.JStr parent)), counts)
        | Some count =>
            if bool_decide (0 < count - 1)%Z
            then (Ok (), <[parent := (count - 1)%Z]> counts)
            else error_counts rounds (delete parent counts) parent
                   (dirname parent)
        end
      else (Ok (), counts)
  end.

Lemma started_building_file_while_counts rounds cds :
  ∀ s prev_parent parent locked,
  _build_dir_counts
    (started_building_file_while rounds cds s prev_parent parent locked).2
  = started_counts rounds (_build_dir_counts s) prev_parent parent.
Proof.
  induction rounds as [|rounds IH]; intros s prev_parent parent locked; cbn;
    [done|].
  case_bool_decide; [|done]. case_bool_decide; [done|].
  case_bool_decide; by rewrite IH.
Qed.

Lemma error_building_file_while_counts rounds : ∀ s prev_parent parent,
  ((error_building_file_while rounds s prev_parent parent).1,
   _build_dir_counts (error_building_file_while rounds s prev_parent parent).2)
  = error_counts rounds (_build_dir_counts s) prev_parent parent.
Proof.
  induction rounds as [|rounds IH]; intros s prev_parent parent; cbn; [done|].
  case_bool_decide; [|done].
  destruct (_build_dir_counts s !! parent) as [count|]; [|done].
  case_bool_decide; [done|].
  rewrite IH. cbn. by destruct (_created_dirs_map s !! parent).
Qed.

Section posix_case.
Hypothesis normcase_id : ∀ p, normcase p = p.

(** The loop of [started_building_file] from [parent] on leaves the counts
    of longer paths alone. *)
Lemma started_counts_insert rounds : ∀ counts p k v,
  (String.length (dirname p) < String.length k)%nat ∨ dirname p = p →
  started_counts rounds (<[k := v]> counts) p (dirname p)
  = <[k := v]> (started_counts rounds counts p (dirname p)).
Proof.
  induction rounds as [|rounds IH]; intros counts p k v Hk; cbn; [done|].
  case_bool_decide as Hne; [|done].
  destruct Hk as [Hk|Hk]; [|done].
  rewrite normcase_id.
  assert (Hqk : dirname p ≠ k) by (intros <-; lia).
  rewrite lookup_insert_ne by done.
  rewrite (insert_insert_ne _ (dirname p) k) by done.
  case_bool_decide; [done|].
  apply IH. destruct (dirname_shrinks (dirname p)); [by right | left; lia].
Qed.

Lemma started_counts_lookup rounds : ∀ counts p k,
  (String.length (dirname p) < String.length k)%nat ∨ dirname p = p →
  started_counts rounds counts p (dirname p) !! k = counts !! k.
Proof.
  induction rounds as [|rounds IH]; intros counts p k Hk; cbn; [done|].
  case_bool_decide as Hne; [|done].
  destruct Hk as [Hk|Hk]; [|done].
  rewrite normcase_id.
  assert (Hqk : dirname p ≠ k) by (intros <-; lia).
  case_bool_decide; [by rewrite lookup_insert_ne|].
  rewrite IH; [by rewrite lookup_insert_ne|].
  destruct (dirname_shrinks (dirname p)); [by right | left; lia].
Qed.

(** [error_building_file] undoes the reservations of
    [started_building_file]. *)
Lemma error_counts_started_counts rounds : ∀ counts prev_parent,
  (∀ k v, counts !! k = Some v → (0 < v)%Z) →
  error_counts rounds
    (started_counts rounds counts prev_parent (dirname prev_parent))
    prev_parent (dirname prev_parent)
  = (Ok (), counts).
Proof.
  induction rounds as [|rounds IH]; intros counts prev_parent Hpos; cbn;
    [done|].
  case_bool_decide as Hne; [|done].
  rewrite normcase_id. set (parent := dirname prev_parent) in *.
  assert (Hframe : (String.length (dirname parent) < String.length parent)%nat
                   ∨ dirname parent = parent).
  { destruct (dirname_shrinks parent); [by right | by left]. }
  destruct (counts !! parent) as [count|] eqn:Hcount; cbn [default].
  - pose proof (Hpos _ _ Hcount) as Hc.
    rewrite (bool_decide_true (0 < count)%Z) by done.
    rewrite lookup_insert_eq.
    case_bool_decide; [|unfold id in *; lia].
    rewrite insert_insert_eq. f_equal. apply insert_id.
    rewrite Hcount. f_equal. unfold id. lia.
  - rewrite (bool_decide_false (0 < 0)%Z) by lia.
    rewrite started_counts_insert by done.
    rewrite lookup_insert_eq.
    case_bool_decide; [unfold id in *; lia|].
    rewrite delete_insert_id
      by (by rewrite started_counts_lookup).
    by apply IH.
Qed.

End posix_case.

Section with_real_files.
Variable listdir : string → result (list string).
Variable isfile : string → bool.
Variable isdir : string → bool.

Lemma check_maybe_removed_dir_closed depth : ∀ s norm_cased_dir,
  exists_dirs_closed s →
  exists_dirs_closed
    (_check_maybe_removed_dir listdir isfile isdir depth s norm_cased_dir).2
  ∧ _exists_dirs s
    ⊆ _exists_dirs
        (_check_maybe_removed_dir listdir isfile isdir depth s norm_cased_dir).2.
Proof.
  induction depth as [|depth IH]; intros s norm_cased_dir Hs; cbn; [done|].
  case_bool_decide; cbn [negb]; [|done].
  set (s0 := set_maybe_removed_dirs s _).
  assert (Hs0 : exists_dirs_closed s0) by done.
  assert (Hsub0 : _exists_dirs s ⊆ _exists_dirs s0) by done.
  clearbody s0.
  destruct (listdir norm_cased_dir) as [subfiles|e].
  - clear H0. revert s0 Hs0 Hsub0.
    induction subfiles as [|subfile subfiles IHl]; intros s0 Hs0 Hsub0; [done|].
    repeat case_bool_decide;
      repeat match goal with |- context [if ?b then _ else _] => destruct b end;
      cbn [snd];
      try (destruct (handle_dir_exists_closed s0 norm_cased_dir Hs0) as (?&?&?);
           split; [done | set_solver]);
      try (destruct (handle_dir_exists_closed s0
                       (join norm_cased_dir (normcase subfile)) Hs0) as (?&?&?);
           split; [done | set_solver]);
      try (by apply IHl).
    destruct (IH s0 (join norm_cased_dir (normcase subfile)) Hs0) as [Hc1 Hsub1].
    destruct (_check_maybe_removed_dir _ _ _ depth s0 _) as [[[|]|e] s1];
      cbn [snd] in *; [|split; [done | set_solver]..].
    apply IHl; [done | set_solver].
  - destruct e; cbn [snd]; try done.
    destruct (handle_dir_exists_closed s0 (dirname norm_cased_dir) Hs0) as (?&?&?).
    split; [done | set_solver].
Qed.

(** The bound on the depth of [_check_maybe_removed_dir] that
    [is_removed_norm_case] passes is never reached. *)
Lemma check_maybe_removed_dir_depth depth : ∀ s norm_cased_dir,
  (∀ dir_, listdir dir_ ≠ Raise RecursionError) →
  (size (_maybe_removed_dirs s) < depth)%nat →
  (_check_maybe_removed_dir listdir isfile isdir depth s norm_cased_dir).1
  ≠ Raise RecursionError
  ∧ _maybe_removed_dirs
      (_check_maybe_removed_dir listdir isfile isdir depth s norm_cased_dir).2
    ⊆ _maybe_removed_dirs s.
Proof.
  intros s norm_cased_dir Hlistdir. revert s norm_cased_dir.
  induction depth as [|depth IH]; intros s norm_cased_dir Hsize; [lia|]. cbn.
  case_bool_decide as Hin; cbn [negb]; [|done].
  set (s0 := set_maybe_removed_dirs s _).
  assert (Hsub0 : _maybe_removed_dirs s0 ⊆ _maybe_removed_dirs s)
    by (cbn; set_solver).
  assert (Hsize0 : (size (_maybe_removed_dirs s0) < depth)%nat).
  { assert (_maybe_removed_dirs s0 ⊂ _maybe_removed_dirs s) as Hlt%subset_size
      by (cbn; set_solver).
    lia. }
  clearbody s0. specialize (Hlistdir norm_cased_dir).
  destruct (listdir norm_cased_dir) as [subfiles|e].
  - clear Hlistdir. revert s0 Hsub0 Hsize0.
    induction subfiles as [|subfile subfiles IHl]; intros s0 Hsub0 Hsize0;
      [done|].
    repeat case_bool_decide;
      repeat match goal with |- context [if ?b then _ else _] => destruct b end;
      cbn [fst snd];
      try (split; [done | by etrans; [apply handle_dir_exists_maybe_removed|]]);
      try (by apply IHl).
    destruct (IH s0 (join norm_cased_dir (normcase subfile)) Hsize0)
      as [Hr1 Hsub1].
    destruct (_check_maybe_removed_dir _ _ _ depth s0 _) as [[[|]|e] s1];
      cbn [fst snd] in *.
    + apply IHl; [set_solver|]. apply subseteq_size in Hsub1. lia.
    + split; [done | set_solver].
    + split; [|set_solver]. intros [= ->]. by apply Hr1.
  - destruct e; cbn [fst snd]; try done.
    split; [done | by etrans; [apply handle_dir_exists_maybe_removed|]].
Qed.

(** When the scan answers [True], the directory is in [_removed_dirs]. *)
Lemma check_maybe_removed_dir_true depth : ∀ s norm_cased_dir,
  (_check_maybe_removed_dir listdir isfile isdir depth s norm_cased_dir).1
  = Ok true →
  norm_cased_dir
  ∈ _removed_dirs
      (_check_maybe_removed_dir listdir isfile isdir depth s norm_cased_dir).2.
Proof.
  induction depth as [|depth IH]; intros s norm_cased_dir; cbn; [done|].
  case_bool_decide; cbn [negb]; [|done].
  set (s0 := set_maybe_removed_dirs s _). clearbody s0.
  destruct (listdir norm_cased_dir) as [subfiles|e].
  - revert s0. induction subfiles as [|subfile subfiles IHl]; intros s0.
    + intros _. cbn. set_solver.
    + repeat case_bool_decide;
        repeat match goal with |- context [if ?b then _ else _] => destruct b end;
        cbn [fst snd]; try done; try apply IHl.
      destruct (_check_maybe_removed_dir _ _ _ depth s0 _) as [[[|]|e] s1];
        cbn [fst snd]; try done. apply IHl.
  - destruct e; cbn [fst snd]; try done. intros _. cbn. set_solver.
Qed.

(** The scan leaves the reservation counts alone. *)
Lemma check_maybe_removed_dir_counts depth : ∀ s norm_cased_dir,
  _build_dir_counts
    (_check_maybe_removed_dir listdir isfile isdir depth s norm_cased_dir).2
  = _build_dir_counts s.
Proof.
  induction depth as [|depth IH]; intros s norm_cased_dir; cbn; [done|].
  case_bool_decide; cbn [negb]; [|done].
  set (s0 := set_maybe_removed_dirs s _).
  assert (Hs0 : _build_dir_counts s0 = _build_dir_counts s) by done.
  clearbody s0.
  destruct (listdir norm_cased_dir) as [subfiles|e].
  - revert s0 Hs0. induction subfiles as [|subfile subfiles IHl]; intros s0 Hs0;
      [done|].
    repeat case_bool_decide;
      repeat match goal with |- context [if ?b then _ else _] => destruct b end;
      cbn [fst snd];
      try (by etrans; [apply handle_dir_exists_frame|]);
      try (by apply IHl).
    pose proof (IH s0 (join norm_cased_dir (normcase subfile))) as Hc.
    destruct (_check_maybe_removed_dir _ _ _ depth s0 _) as [[[|]|e] s1];
      cbn [fst snd] in *; try congruence.
    apply IHl. congruence.
  - destruct e; cbn [fst snd]; try done.
    by etrans; [apply handle_dir_exists_frame|].
Qed.

End with_real_files.
End with_os.
End BuildDirsFacts.

(** C8.  [_exists_dirs] is closed under [os.path.dirname] when the object is
    created, and every method keeps it closed:
    [handle_norm_cased_dir_exists] only adds directories, among them the
    given one; [started_building_file] leaves the set as it is;
    [error_building_file] leaves it as it is or clears it;
    [is_removed_norm_case] only adds directories, whatever the real file
    system answers. *)
Theorem exists_dirs_closed_preserved `{OsPath}
    (listdir : string → result (list string)) (isfile isdir : string → bool)
    (s : BuildDirs.t) :
  BuildDirs.exists_dirs_closed s →
  (∀ old_cache_dirs old_cache_files,
     BuildDirs.exists_dirs_closed
       (BuildDirs.__init__ old_cache_dirs old_cache_files))
  ∧ (∀ norm_cased_dir,
       let s' := BuildDirs.handle_norm_cased_dir_exists s norm_cased_dir in
       BuildDirs.exists_dirs_closed s'
       ∧ BuildDirs._exists_dirs s ⊆ BuildDirs._exists_dirs s'
       ∧ norm_cased_dir ∈ BuildDirs._exists_dirs s')
  ∧ (∀ filename created_dirs,
       let s' := (BuildDirs.started_building_file s filename created_dirs).2 in
       BuildDirs.exists_dirs_closed s'
       ∧ BuildDirs._exists_dirs s' = BuildDirs._exists_dirs s)
  ∧ (∀ filename,
       let s' := (BuildDirs.error_building_file s filename).2 in
       BuildDirs.exists_dirs_closed s'
       ∧ (BuildDirs._exists_dirs s' = BuildDirs._exists_dirs s
          ∨ BuildDirs._exists_dirs s' = ∅))
  ∧ (∀ norm_cased_dir,
       let s' :=
         (BuildDirs.is_removed_norm_case listdir isfile isdir s norm_cased_dir).2 in
       BuildDirs.exists_dirs_closed s'
       ∧ BuildDirs._exists_dirs s ⊆ BuildDirs._exists_dirs s').
Proof.
  intros Hs. split_and!.
  - intros dirs files. by apply BuildDirsFacts.exists_dirs_closed_empty.
  - intros d. cbv zeta. by apply BuildDirsFacts.handle_dir_exists_closed.
  - intros filename created_dirs. cbv zeta.
    unfold BuildDirs.started_building_file.
    rewrite BuildDirsFacts.started_building_file_while_exists.
    split; [|done].
    eapply BuildDirsFacts.exists_dirs_closed_eq; [|exact Hs].
    by rewrite BuildDirsFacts.started_building_file_while_exists.
  - intros filename. cbv zeta. unfold BuildDirs.error_building_file.
    destruct (BuildDirsFacts.error_building_file_while_exists
                (String.length (normcase filename) + 1) s (normcase filename)
                (dirname (normcase filename))) as [Heq|Heq].
    + split; [|by left]. by eapply BuildDirsFacts.exists_dirs_closed_eq.
    + split; [|by right]. by apply BuildDirsFacts.exists_dirs_closed_empty.
  - intros d. cbv zeta. unfold BuildDirs.is_removed_norm_case.
    repeat case_bool_decide; cbn [negb snd]; try done.
    by apply BuildDirsFacts.check_maybe_removed_dir_closed.
Qed.

(** A [BuildDirs] object after the directory [/out/sub] was seen, and a real
    file system in which nothing exists. *)
Definition example_build_dirs : BuildDirs.t :=
  BuildDirs.handle_norm_cased_dir_exists
    (BuildDirs.__init__ ["/out"] ["/out/a.txt"]) "/out/sub".

Definition example_listdir (dir_ : string) : result (list string) :=
  Raise FileNotFoundError.

Definition example_isfile (filename : string) : bool := false.

Lemma example_build_dirs_closed : BuildDirs.exists_dirs_closed example_build_dirs.
Proof.
  destruct (BuildDirsFacts.handle_dir_exists_closed
              (BuildDirs.__init__ ["/out"] ["/out/a.txt"]) "/out/sub")
    as [Hclosed _]; [|exact Hclosed].
  by apply BuildDirsFacts.exists_dirs_closed_empty.
Qed.

Example example_build_dirs_exists_dirs :
  BuildDirs._exists_dirs example_build_dirs = {[ "/out/sub"; "/out"; "/" ]}
  ∧ BuildDirs._maybe_removed_dirs example_build_dirs = ∅.
Proof. split; vm_compute; reflexivity. Qed.

Lemma exists_dirs_closed_preserved_witness :
  BuildDirs.exists_dirs_closed example_build_dirs
  ∧ ((∀ old_cache_dirs old_cache_files,
        BuildDirs.exists_dirs_closed
          (BuildDirs.__init__ old_cache_dirs old_cache_files))
     ∧ (∀ norm_cased_dir,
          let s' :=
            BuildDirs.handle_norm_cased_dir_exists example_build_dirs
              norm_cased_dir in
          BuildDirs.exists_dirs_closed s'
          ∧ BuildDirs._exists_dirs example_build_dirs ⊆ BuildDirs._exists_dirs s'
          ∧ norm_cased_dir ∈ BuildDirs._exists_dirs s')
     ∧ (∀ filename created_dirs,
          let s' :=
            (BuildDirs.started_building_file example_build_dirs filename
               created_dirs).2 in
          BuildDirs.exists_dirs_closed s'
          ∧ BuildDirs._exists_dirs s' = BuildDirs._exists_dirs example_build_dirs)
     ∧ (∀ filename,
          let s' := (BuildDirs.error_building_file example_build_dirs filename).2 in
          BuildDirs.exists_dirs_closed s'
          ∧ (BuildDirs._exists_dirs s' = BuildDirs._exists_dirs example_build_dirs
             ∨ BuildDirs._exists_dirs s' = ∅))
     ∧ (∀ norm_cased_dir,
          let s' :=
            (BuildDirs.is_removed_norm_case example_listdir example_isfile
               example_isfile example_build_dirs norm_cased_dir).2 in
          BuildDirs.exists_dirs_closed s'
          ∧ BuildDirs._exists_dirs example_build_dirs ⊆ BuildDirs._exists_dirs s')).
Proof.
  split; [exact example_build_dirs_closed|].
  exact (exists_dirs_closed_preserved example_listdir example_isfile
           example_isfile example_build_dirs example_build_dirs_closed).
Defined.

(** ** simple_operation_executor.py: [is_file] *)

(** C4.  The rules of [SimpleOperationExecutor.is_file], in their order of
    precedence: a regular file of the overlay is a file and a directory of
    the overlay is not; then the cache file is not a file; then a file with
    an entry in the new cache is not a file while its build is in progress,
    and is checked in the real file system once its entry is finished; then
    a file that the previous build created, without an entry in the new
    cache, is not a file; every other file is checked in the real file
    system.  The call changes nothing but [BuildDirs], and only when the
    real file system was asked and the file is there. *)
Theorem is_file_rules `{OsPath} (real : os.fs) (e : SimpleOperationExecutor.t)
    (filename : string) (created_files : option CreatedFiles.t) :
  (SimpleOperationExecutor.in_overlay_files created_files (normcase filename)
   = true →
   (SimpleOperationExecutor.is_file real e filename created_files).1 = true)
  ∧ (SimpleOperationExecutor.in_overlay_files created_files (normcase filename)
     = false →
     (SimpleOperationExecutor.in_overlay_dirs created_files (normcase filename)
      = true →
      (SimpleOperationExecutor.is_file real e filename created_files).1 = false)
     ∧ (SimpleOperationExecutor.in_overlay_dirs created_files
          (normcase filename) = false →
        (normcase filename
         = SimpleOperationExecutor._norm_cased_cache_filename e →
         (SimpleOperationExecutor.is_file real e filename created_files).1
         = false)
        ∧ (normcase filename
           ≠ SimpleOperationExecutor._norm_cased_cache_filename e →
           (Cache._norm_cased_files (SimpleOperationExecutor._new_cache e)
              !! normcase filename = Some None →
            (SimpleOperationExecutor.is_file real e filename created_files).1
            = false)
           ∧ (∀ operation,
                Cache._norm_cased_files (SimpleOperationExecutor._new_cache e)
                  !! normcase filename = Some (Some operation) →
                (SimpleOperationExecutor.is_file real e filename
                   created_files).1
                = os.isfile real (normcase filename))
           ∧ (Cache._norm_cased_files (SimpleOperationExecutor._new_cache e)
                !! normcase filename = None →
              (SimpleOperationExecutor.is_file real e filename created_files).1
              = if Cache.created_norm_cased_file
                     (SimpleOperationExecutor._old_cache e) (normcase filename)
                then false
                else os.isfile real (normcase filename)))))
  ∧ ((SimpleOperationExecutor.is_file real e filename created_files).2 = e
     ∨ ((SimpleOperationExecutor.is_file real e filename created_files).1 = true
        ∧ os.isfile real (normcase filename) = true
        ∧ (SimpleOperationExecutor.is_file real e filename created_files).2
          = SimpleOperationExecutor.set_build_dirs e
              (BuildDirs.handle_norm_cased_dir_exists
                 (SimpleOperationExecutor._build_dirs e)
                 (dirname (normcase filename))))).
Proof.
  unfold SimpleOperationExecutor.is_file,
    SimpleOperationExecutor._is_file_no_read,
    SimpleOperationExecutor.in_overlay_files,
    SimpleOperationExecutor.in_overlay_dirs,
    Cache.has_norm_cased_file, Cache.get_norm_cased_file.
  set (n := normcase filename).
  destruct created_files as [cf|];
    [destruct (CreatedFiles.has_norm_cased_file cf n);
     [|destruct (CreatedFiles.has_norm_cased_dir cf n)]|];
    cbn [fst snd];
    (split; [done|]); (split; [|try by left]); try (intros _; split; done);
    try done.
  all: try (intros _; split; [done|]; intros _).
  all: case_bool_decide as Hcache; cbn [fst snd].
  all: try (split; [done|]; intros ?; done).
  all: try by left.
  all: try (split; [done|]; intros _).
  all: destruct (Cache._norm_cased_files (SimpleOperationExecutor._new_cache e) !! n)
         as [[operation|]|] eqn:Hnew; cbn [default fst snd].
  all: try (rewrite (bool_decide_true (is_Some (Some _))) by (by eexists)).
  all: try (rewrite (bool_decide_false (is_Some None)) by (by intros [? ?])).
  all: cbn [fst snd].
  all: try (destruct (Cache.created_norm_cased_file _ n)).
  all: destruct (os.isfile real n) eqn:Hreal; cbn [fst snd].
  all: try (split_and!; [done | by intros ? [= <-] | done]).
  all: try (by left).
  all: try (right; done).
Qed.

(** An executor whose new cache holds the finished entry of a build of
    [/out/a.txt] that raised, so that the file was not written. *)
Definition example_failed_build : Operation.operation :=
  Operation.BuildFileOperation "/out/a.txt" Operation.METADATA "make_a"
    (JsonUtil.JList []) (JsonUtil.JDict []) [] JsonUtil.JNone JsonUtil.JNone
    true false true.

Definition example_executor : SimpleOperationExecutor.t :=
  SimpleOperationExecutor.__init__ "/out/cache.gz"
    (Cache.create_empty_immutable "build" (JsonUtil.JDict []))
    (Cache.finish_building_file
       (Cache.start_building_file
          (Cache.create_empty_mutable "build" (JsonUtil.JDict []))
          "/out/a.txt").2
       example_failed_build).2
    (BuildDirs.__init__ [] []).

(** The entry of [/out/a.txt] in the new cache is finished, and [is_file]
    answers from the real file system, where the file does not exist. *)
Lemma is_file_false_on_finished_entry :
  Cache.has_norm_cased_file (SimpleOperationExecutor._new_cache example_executor)
    "/out/a.txt" = true
  ∧ Cache.get_norm_cased_file
      (SimpleOperationExecutor._new_cache example_executor) "/out/a.txt"
    = Some example_failed_build
  ∧ (SimpleOperationExecutor.is_file ∅ example_executor "/out/a.txt" None).1
    = false.
Proof. split_and!; vm_compute; reflexivity. Qed.

(** ** file_backups.py *)

Module FileBackupsFacts.
Import FileBackups.

Example format_02x_examples :
  format_02x 5 = "05" ∧ format_02x 127 = "7f" ∧ format_02x 0 = "00"
  ∧ backup_location "/tmp/file_builder_x" 3 =
      ("/tmp/file_builder_x", "/tmp/file_builder_x/file_03")
  ∧ backup_location "/tmp/file_builder_x" 130 =
      ("/tmp/file_builder_x/02", "/tmp/file_builder_x/02/file_01")
  ∧ backup_location "/tmp/file_builder_x" (128 * 128 * 5 + 128 * 127 + 10) =
      ("/tmp/file_builder_x/0a/7f", "/tmp/file_builder_x/0a/7f/file_05").
Proof. split_and!; vm_compute; reflexivity. Qed.

(** The bound on the rounds lets the loop run until the value is below
    128. *)
Lemma components_while_done rounds : ∀ value components,
  (0 ≤ value < 2 ^ Z.of_nat rounds)%Z →
  ((components_while rounds value components).2 < 128)%Z.
Proof.
  induction rounds as [|rounds IH]; intros value components Hv; cbn.
  - change (2 ^ Z.of_nat 0)%Z with 1%Z in Hv. lia.
  - destruct (128 <=? value)%Z eqn:Hge; [|cbn; lia].
    apply IH. rewrite Nat2Z.inj_succ, Z.pow_succ_r in Hv by lia.
    split; [apply Z.div_pos; lia|].
    apply Z.div_lt_upper_bound; lia.
Qed.

Lemma components_while_final value :
  (0 ≤ value)%Z →
  ((components_while (S (Z.to_nat (Z.log2 value))) value []).2 < 128)%Z.
Proof.
  intros Hv. apply components_while_done. split; [done|].
  rewrite Nat2Z.inj_succ, Z2Nat.id by apply Z.log2_nonneg.
  destruct (decide (value = 0%Z)) as [->|]; [done|].
  apply Z.log2_spec. lia.
Qed.

Section with_os_path.
Context `{OsPath}.

(** A path that is not there gives one of two errors. *)
Lemma absent_error_cases depth (files : os.fs) path :
  os.absent_error depth files path = FileNotFoundError
  ∨ os.absent_error depth files path = NotADirectoryError.
Proof.
  revert path. induction depth as [|depth IH]; intros path; cbn; [by left|].
  case_bool_decide; [by left|].
  destruct (files !! dirname path) as [[|]|]; [by right | by left | apply IH].
Qed.

Lemma absent_cases (files : os.fs) path :
  os.absent files path = FileNotFoundError
  ∨ os.absent files path = NotADirectoryError.
Proof. apply absent_error_cases. Qed.

Lemma absent_OSError (files : os.fs) path : is_OSError (os.absent files path) = true.
Proof. by destruct (absent_cases files path) as [-> | ->]. Qed.

(** Below a directory that is there, or at a root, the error is [ENOENT]. *)
Lemma absent_in_dir (files : os.fs) path :
  dirname path = path ∨ os.isdir files (dirname path) = true →
  os.absent files path = FileNotFoundError.
Proof.
  unfold os.absent, os.isdir. intros Hparent.
  destruct (String.length path) as [|depth]; [done|]. cbn.
  case_bool_decide as Hroot; [done|].
  destruct Hparent as [?|Hdir]; [done|].
  by destruct (files !! dirname path) as [[|]|].
Qed.

(** Below a regular file the error is [ENOTDIR]. *)
Lemma absent_below_file (files : os.fs) path :
  dirname path ≠ path → os.isfile files (dirname path) = true →
  os.absent files path = NotADirectoryError.
Proof.
  unfold os.absent, os.isfile. intros Hroot Hfile.
  destruct (String.length path) as [|depth] eqn:Hlen.
  - destruct path; [|done]. destruct (dirname_shrinks EmptyString) as [?|Hlt];
      [done | cbn in Hlt; lia].
  - cbn. rewrite bool_decide_eq_false_2 by done.
    by destruct (files !! dirname path) as [[|]|].
Qed.

Lemma mkdir_lookup files name files' path node :
  os.mkdir files name = Ok files' →
  files !! path = Some node → files' !! path = Some node.
Proof.
  unfold os.mkdir, os.exists_.
  destruct (files !! name) eqn:Hname; [done|].
  destruct (files !! dirname name) as [[|]|]; [done| |done].
  intros [= <-] Hpath. rewrite lookup_insert_ne; [done|]. intros ->. congruence.
Qed.

(** The last step of [os.makedirs]: [mkdir], whose error is dropped when the
    directory is there. *)
Definition mkdir_exist_ok (files : os.fs) (name : string) : result unit * os.fs :=
  match os.mkdir files name with
  | Ok files' => (Ok (), files')
  | Raise e => if os.isdir files name then (Ok (), files) else (Raise e, files)
  end.

Lemma mkdir_exist_ok_lookup (files : os.fs) name path node :
  files !! path = Some node →
  (mkdir_exist_ok files name).2 !! path = Some node.
Proof.
  intros Hpath. unfold mkdir_exist_ok.
  destruct (os.mkdir files name) as [files2|e] eqn:Hmk.
  - by eapply mkdir_lookup.
  - by destruct (os.isdir files name).
Qed.

Lemma mkdir_exist_ok_no_recursion_error (files : os.fs) name :
  (mkdir_exist_ok files name).1 ≠ Raise RecursionError.
Proof.
  unfold mkdir_exist_ok, os.mkdir. destruct (os.exists_ files name).
  - by destruct (os.isdir files name).
  - destruct (files !! dirname name) as [[|]|]; [|done|];
      [by destruct (os.isdir files name)|].
    by destruct (absent_cases files (dirname name)) as [-> | ->];
      destruct (os.isdir files name).
Qed.

(** [os.makedirs] leaves what exists where it is. *)
Lemma makedirs_rec_lookup depth : ∀ (files : os.fs) name path node,
  files !! path = Some node →
  (os.makedirs_rec depth files name).2 !! path = Some node.
Proof.
  induction depth as [|depth IH]; intros files name path node Hpath; [done|].
  cbn [os.makedirs_rec]. fold (mkdir_exist_ok files name).
  destruct (negb _ && negb _ && negb _).
  - specialize (IH files (dirname name) path node Hpath).
    destruct (os.makedirs_rec depth files (dirname name)) as [[[]|e] files1];
      cbn [snd] in IH.
    + fold (mkdir_exist_ok files1 name). by apply mkdir_exist_ok_lookup.
    + destruct e; try done.
      fold (mkdir_exist_ok files1 name). by apply mkdir_exist_ok_lookup.
  - by apply mkdir_exist_ok_lookup.
Qed.

Lemma makedirs_lookup files name files' path node :
  os.makedirs files name = (Ok (), files') →
  files !! path = Some node → files' !! path = Some node.
Proof.
  unfold os.makedirs. intros Hmk Hpath.
  pose proof (makedirs_rec_lookup (S (String.length name)) files name path node
                Hpath) as Hl.
  by rewrite Hmk in Hl.
Qed.

(** The bound on the depth of [os.makedirs] is never reached. *)
Lemma makedirs_rec_depth depth : ∀ (files : os.fs) name,
  (String.length name < depth)%nat →
  (os.makedirs_rec depth files name).1 ≠ Raise RecursionError.
Proof.
  induction depth as [|depth IH]; intros files name Hlen; [lia|].
  cbn [os.makedirs_rec]. fold (mkdir_exist_ok files name).
  destruct (negb (bool_decide (dirname name = EmptyString))); cbn [andb];
    [|apply mkdir_exist_ok_no_recursion_error].
  case_bool_decide as Hne; cbn [negb andb];
    [apply mkdir_exist_ok_no_recursion_error|].
  destruct (negb _); [|apply mkdir_exist_ok_no_recursion_error].
  assert (String.length (dirname name) < depth)%nat as Hd%(IH files).
  { destruct (dirname_shrinks name); [done | lia]. }
  destruct (os.makedirs_rec depth files (dirname name)) as [[[]|e] files1];
    cbn [fst] in Hd.
  - fold (mkdir_exist_ok files1 name). apply mkdir_exist_ok_no_recursion_error.
  - destruct e; try done.
    fold (mkdir_exist_ok files1 name). apply mkdir_exist_ok_no_recursion_error.
Qed.

(** [os.makedirs] on a directory whose parent is there changes nothing. *)
Lemma makedirs_existing (files : os.fs) name :
  os.isdir files name = true →
  dirname name = name ∨ dirname name = EmptyString
  ∨ os.exists_ files (dirname name) = true →
  os.makedirs files name = (Ok (), files).
Proof.
  intros Hdir Hparent. unfold os.makedirs. cbn [os.makedirs_rec].
  assert (negb (bool_decide (dirname name = EmptyString))
          && negb (bool_decide (dirname name = name))
          && negb (os.exists_ files (dirname name)) = false) as ->.
  { destruct Hparent as [Heq|[Heq|Hex]].
    - rewrite (bool_decide_true (dirname name = name)) by done.
      by rewrite andb_false_r.
    - by rewrite (bool_decide_true (dirname name = EmptyString)).
    - rewrite Hex. by rewrite andb_false_r. }
  unfold os.mkdir, os.exists_. unfold os.isdir in Hdir.
  destruct (files !! name) as [[|]|] eqn:Hname; try done.
  unfold os.isdir. by rewrite Hname.
Qed.

(** [back_up_and_remove] on a regular file. *)
Lemma back_up_and_remove_file (files files1 : os.fs) b temp_dir path content :
  _temp_dir b = Some temp_dir →
  os.makedirs files (backup_location temp_dir (_next_backup_index b)).1
  = (Ok (), files1) →
  files1 !! (backup_location temp_dir (_next_backup_index b)).2 = None →
  os.isdir files1 (dirname (backup_location temp_dir (_next_backup_index b)).2)
  = true →
  files1 !! path = Some (os.File content) →
  back_up_and_remove files b path
  = (Ok true,
     (<[(backup_location temp_dir (_next_backup_index b)).2 := os.File content]>
        (delete path files1),
      mk (_backups b
          ++ [(path, (backup_location temp_dir (_next_backup_index b)).2)])
         (_next_backup_index b + 1) (Some temp_dir))).
Proof.
  intros Htemp Hmk Hfree Hparent Hpath.
  unfold back_up_and_remove. cbn [_temp_dir]. rewrite Htemp.
  destruct (backup_location temp_dir (_next_backup_index b))
    as [backup_dir backup_filename].
  cbn [fst snd] in *. rewrite Hmk.
  unfold os.isdir in Hparent.
  destruct (files1 !! dirname backup_filename) as [[|]|] eqn:Hdir; try done.
  unfold os.rename. rewrite Hpath, Hdir, Hfree.
  unfold os.isdir. by rewrite lookup_insert_eq.
Qed.

(** The errors of the system calls are [OSError]s. *)
Lemma rename_error (files : os.fs) src dst e :
  os.rename files src dst = Raise e → is_OSError e = true.
Proof.
  unfold os.rename.
  destruct (files !! src) as [[|]|]; repeat case_bool_decide;
    repeat match goal with
           | |- context [match ?x with _ => _ end] => destruct x
           end;
    intros [= <-]; first [done | apply absent_OSError].
Qed.

Lemma mkdir_exist_ok_error (files : os.fs) name e :
  (mkdir_exist_ok files name).1 = Raise e → is_OSError e = true.
Proof.
  unfold mkdir_exist_ok, os.mkdir. destruct (os.exists_ files name).
  - destruct (os.isdir files name); [done | by intros [= <-]].
  - destruct (files !! dirname name) as [[|]|]; [|done|];
      (destruct (os.isdir files name);
       [done | intros [= <-]; first [done | apply absent_OSError]]).
Qed.

Lemma makedirs_rec_error depth : ∀ (files : os.fs) name e,
  (String.length name < depth)%nat →
  (os.makedirs_rec depth files name).1 = Raise e → is_OSError e = true.
Proof.
  induction depth as [|depth IH]; intros files name e Hlen; [lia|].
  cbn [os.makedirs_rec]. fold (mkdir_exist_ok files name).
  destruct (negb (bool_decide (dirname name = EmptyString))); cbn [andb];
    [|apply mkdir_exist_ok_error].
  case_bool_decide as Hne; cbn [negb andb]; [apply mkdir_exist_ok_error|].
  destruct (negb _); [|apply mkdir_exist_ok_error].
  assert (Hd : (String.length (dirname name) < depth)%nat).
  { destruct (dirname_shrinks name); [done | lia]. }
  specialize (IH files (dirname name)).
  destruct (os.makedirs_rec depth files (dirname name)) as [[[]|e'] files1];
    cbn [fst] in IH.
  - fold (mkdir_exist_ok files1 name). apply mkdir_exist_ok_error.
  - specialize (IH e' Hd eq_refl).
    destruct e'; try done; cbn [fst]; try (by intros [= <-]).
    fold (mkdir_exist_ok files1 name). apply mkdir_exist_ok_error.
Qed.

Lemma restore_all_for_ok backups : ∀ files : os.fs,
  (restore_all_for files backups).1 = Ok ().
Proof.
  induction backups as [|[filename backup_filename] backups IH]; intros files;
    [done|].
  cbn [restore_all_for]. destruct (os.isdir files filename); [apply IH|].
  pose proof (makedirs_rec_error (S (String.length (dirname filename))) files
                (dirname filename)) as Hmk.
  fold (os.makedirs files (dirname filename)) in Hmk.
  destruct (os.makedirs files (dirname filename)) as [[[]|e] files1].
  - pose proof (rename_error files1 backup_filename filename) as Hrn.
    destruct (os.rename files1 backup_filename filename) as [files2|e];
      [apply IH|].
    rewrite (Hrn e eq_refl). apply IH.
  - cbn [fst] in Hmk. rewrite (Hmk e (Nat.lt_succ_diag_r _) eq_refl). apply IH.
Qed.

End with_os_path.
End FileBackupsFacts.


(** A file system with an entered backup scope whose next index is 130, and
    the file [/out/a.txt]. *)
Definition example_backup_fs : os.fs :=
  {[ "/" := os.Dir; "/tmp" := os.Dir; "/tmp/file_builder_x" := os.Dir;
     "/out" := os.Dir; "/out/a.txt" := os.File (os.Bytes "old") ]}.

Definition example_backups : FileBackups.t :=
  FileBackups.mk [] 130 (Some "/tmp/file_builder_x").





(** X2.  [FileBackups.restore_all] never raises, whatever the file system
    holds: a file that cannot be restored is skipped.  Afterwards no backup
    is recorded, and the backup index and the temporary directory are as
    before. *)
Theorem restore_all_never_raises `{OsPath} (files : os.fs) (b : FileBackups.t) :
  (FileBackups.restore_all files b).1 = Ok ()
  ∧ FileBackups._backups (FileBackups.restore_all files b).2.2 = []
  ∧ FileBackups._next_backup_index (FileBackups.restore_all files b).2.2
    = FileBackups._next_backup_index b
  ∧ FileBackups._temp_dir (FileBackups.restore_all files b).2.2
    = FileBackups._temp_dir b.
Proof.
  unfold FileBackups.restore_all.
  pose proof (FileBackupsFacts.restore_all_for_ok (FileBackups._backups b) files)
    as Hok.
  destruct (FileBackups.restore_all_for files (FileBackups._backups b))
    as [r files1].
  by cbn [fst snd] in *.
Qed.

(** ** file_builder.py: [clean] *)

Module FileBuilderFacts.
Import FileBuilder.

(** The longest paths first. *)
Definition longer_first (a b : string) : Prop :=
  (String.length b ≤ String.length a)%nat.

Lemma insert_by_neg_len_Forall (P : string → Prop) dir_ l :
  P dir_ → Forall P l → Forall P (insert_by_neg_len dir_ l).
Proof.
  intros Hd. induction 1 as [|x l Hx Hl IH]; cbn; [by constructor|].
  destruct (_ <=? _)%nat; repeat constructor; done.
Qed.

Lemma insert_by_neg_len_sorted dir_ l :
  StronglySorted longer_first l →
  StronglySorted longer_first (insert_by_neg_len dir_ l).
Proof.
  induction 1 as [|x l Hs IH Hx]; cbn; [repeat constructor|].
  destruct (String.length x <=? String.length dir_)%nat eqn:Hle.
  - apply Nat.leb_le in Hle. constructor; [by constructor|].
    constructor; [done|]. eapply Forall_impl; [exact Hx|].
    unfold longer_first. intros y ?. lia.
  - apply Nat.leb_gt in Hle. constructor; [done|].
    apply insert_by_neg_len_Forall; [unfold longer_first; lia | done].
Qed.

Lemma sorted_by_neg_len_sorted dirs :
  StronglySorted longer_first (sorted_by_neg_len dirs).
Proof.
  induction dirs as [|d dirs IH]; cbn; [constructor|].
  by apply insert_by_neg_len_sorted.
Qed.

Lemma insert_by_neg_len_Permutation dir_ l :
  insert_by_neg_len dir_ l ≡ₚ dir_ :: l.
Proof.
  induction l as [|x l IH]; cbn; [done|].
  destruct (_ <=? _)%nat; [done|]. rewrite IH. apply Permutation_swap.
Qed.

Lemma sorted_by_neg_len_Permutation dirs : sorted_by_neg_len dirs ≡ₚ dirs.
Proof.
  induction dirs as [|d dirs IH]; cbn; [done|].
  by rewrite insert_by_neg_len_Permutation, IH.
Qed.

Lemma prefix_length a b :
  String.prefix a b = true → (String.length a ≤ String.length b)%nat.
Proof.
  revert b. induction a as [|x a IH]; intros [|y b]; cbn; try lia; try done.
  destruct (ascii_dec x y); [|done].
  intros Hp%IH. lia.
Qed.

Lemma length_append a b :
  String.length (String.append a b) = (String.length a + String.length b)%nat.
Proof.
  induction a as [|x a IH]; [done|].
  rewrite posixpathFacts.append_cons. cbn. by rewrite IH.
Qed.

(** What is below a directory has a longer path. *)
Lemma is_below_length dir_ path :
  os.is_below dir_ path = true →
  (String.length dir_ < String.length path)%nat.
Proof.
  unfold os.is_below. intros Hp%prefix_length.
  rewrite length_append in Hp. cbn in Hp. lia.
Qed.

Section with_os.
Context `{OsPath}.
Variable denied : string → bool.
Variable files_keys : Cache.t → list string.

(** What a removal would take away: a regular file, or an empty directory,
    that the system lets go. *)
Definition removable_file (files : os.fs) (filename : string) : bool :=
  os.isfile files filename && negb (denied filename).

Definition removable_dir (files : os.fs) (dir_ : string) : bool :=
  os.isdir files dir_ && negb (denied dir_) && os.is_empty_dir files dir_.

(** One round of the loop of [_remove_empty_dirs]. *)
Definition rmdir_step (files : os.fs) (dir_ : string) : os.fs :=
  match os.rmdir denied files dir_ with
  | Ok files => files
  | Raise _ => files
  end.

Lemma try_to_remove_file_eq (files : os.fs) filename :
  _try_to_remove_file denied files filename
  = if removable_file files filename then delete filename files else files.
Proof.
  unfold _try_to_remove_file, removable_file, os.remove, os.isfile.
  destruct (files !! filename) as [[|]|]; [|done..].
  by destruct (denied filename).
Qed.

Lemma rmdir_step_eq (files : os.fs) dir_ :
  rmdir_step files dir_
  = if removable_dir files dir_ then delete dir_ files else files.
Proof.
  unfold rmdir_step, removable_dir, os.rmdir, os.isdir.
  destruct (files !! dir_) as [[|]|]; [done| |done].
  destruct (denied dir_); [done|]. cbn.
  by destruct (os.is_empty_dir files dir_).
Qed.

Lemma isfile_subseteq (files files' : os.fs) filename :
  files' ⊆ files → os.isfile files' filename = true →
  os.isfile files filename = true.
Proof.
  unfold os.isfile. intros Hsub.
  destruct (files' !! filename) as [[|]|] eqn:Hf; [|done..].
  by rewrite (lookup_weaken _ _ _ _ Hf Hsub).
Qed.

Lemma removable_file_subseteq (files files' : os.fs) filename :
  files' ⊆ files → removable_file files filename = false →
  removable_file files' filename = false.
Proof.
  unfold removable_file. intros Hsub Hf.
  destruct (os.isfile files' filename) eqn:Hf'; [|done].
  by rewrite (isfile_subseteq _ _ _ Hsub Hf') in Hf.
Qed.

Lemma try_to_remove_file_subseteq (files : os.fs) filename :
  _try_to_remove_file denied files filename ⊆ files.
Proof.
  rewrite try_to_remove_file_eq.
  destruct (removable_file files filename); [apply delete_subseteq | done].
Qed.

Lemma fold_try_to_remove_file_subseteq filenames : ∀ files : os.fs,
  fold_left (_try_to_remove_file denied) filenames files ⊆ files.
Proof.
  induction filenames as [|x l IH]; intros files; [done|]. cbn.
  etrans; [apply IH | apply try_to_remove_file_subseteq].
Qed.

Lemma rmdir_step_subseteq (files : os.fs) dir_ : rmdir_step files dir_ ⊆ files.
Proof.
  rewrite rmdir_step_eq.
  destruct (removable_dir files dir_); [apply delete_subseteq | done].
Qed.

Lemma fold_rmdir_step_subseteq dirs : ∀ files : os.fs,
  fold_left rmdir_step dirs files ⊆ files.
Proof.
  induction dirs as [|x l IH]; intros files; [done|]. cbn.
  etrans; [apply IH | apply rmdir_step_subseteq].
Qed.

Lemma try_to_remove_file_not_removable (files : os.fs) filename :
  removable_file (_try_to_remove_file denied files filename) filename = false.
Proof.
  rewrite try_to_remove_file_eq.
  destruct (removable_file files filename) eqn:Hr; [|done].
  unfold removable_file, os.isfile. by rewrite lookup_delete_eq.
Qed.

Lemma fold_try_to_remove_file_not_removable filenames : ∀ (files : os.fs) x,
  x ∈ filenames →
  removable_file (fold_left (_try_to_remove_file denied) filenames files) x
  = false.
Proof.
  induction filenames as [|y l IH]; intros files x Hx;
    [by apply elem_of_nil in Hx|].
  cbn. apply elem_of_cons in Hx as [->|Hx]; [|by apply IH].
  eapply removable_file_subseteq;
    [apply fold_try_to_remove_file_subseteq
    | apply try_to_remove_file_not_removable].
Qed.

Lemma fold_try_to_remove_file_id filenames (files : os.fs) :
  (∀ x, x ∈ filenames → removable_file files x = false) →
  fold_left (_try_to_remove_file denied) filenames files = files.
Proof.
  induction filenames as [|y l IH]; intros Hall; [done|]. cbn.
  rewrite try_to_remove_file_eq, Hall by left.
  apply IH. intros x Hx. apply Hall. by right.
Qed.

Lemma is_empty_dir_delete (files : os.fs) dir_ path :
  os.is_empty_dir (delete path files) dir_ = true →
  os.is_below dir_ path = false →
  os.is_empty_dir files dir_ = true.
Proof.
  unfold os.is_empty_dir. rewrite !bool_decide_eq_true.
  intros Hall Hpath k v Hk. destruct (decide (k = path)) as [->|Hne]; [done|].
  apply (Hall k v). by rewrite lookup_delete_ne.
Qed.

Lemma removable_dir_delete (files : os.fs) dir_ path :
  removable_dir files dir_ = false →
  (String.length path ≤ String.length dir_)%nat →
  removable_dir (delete path files) dir_ = false.
Proof.
  intros Hr Hlen. destruct (removable_dir (delete path files) dir_) eqn:Hr';
    [|done].
  exfalso. unfold removable_dir in *.
  apply andb_true_iff in Hr' as [[Hdir Hden]%andb_true_iff Hempty].
  assert (Hbelow : os.is_below dir_ path = false).
  { destruct (os.is_below dir_ path) eqn:Hb; [|done].
    apply is_below_length in Hb. lia. }
  rewrite (is_empty_dir_delete _ _ _ Hempty Hbelow), Hden, !andb_true_r in Hr.
  unfold os.isdir in *.
  destruct (decide (path = dir_)) as [->|Hne].
  - by rewrite lookup_delete_eq in Hdir.
  - rewrite lookup_delete_ne in Hdir by done. congruence.
Qed.

Lemma rmdir_step_keeps_not_removable (files : os.fs) dir_ path :
  removable_dir files dir_ = false →
  (String.length path ≤ String.length dir_)%nat →
  removable_dir (rmdir_step files path) dir_ = false.
Proof.
  intros Hr Hlen. rewrite rmdir_step_eq.
  destruct (removable_dir files path); [|done]. by apply removable_dir_delete.
Qed.

Lemma rmdir_step_not_removable (files : os.fs) dir_ :
  removable_dir (rmdir_step files dir_) dir_ = false.
Proof.
  rewrite rmdir_step_eq. destruct (removable_dir files dir_) eqn:Hr; [|done].
  unfold removable_dir, os.isdir. by rewrite lookup_delete_eq.
Qed.

Lemma fold_rmdir_step_keeps dirs : ∀ (files : os.fs) dir_,
  Forall (longer_first dir_) dirs →
  removable_dir files dir_ = false →
  removable_dir (fold_left rmdir_step dirs files) dir_ = false.
Proof.
  induction dirs as [|y l IH]; intros files dir_ Hall Hr; [done|]. cbn.
  apply Forall_cons in Hall as [Hy Hl].
  apply IH; [done|]. by apply rmdir_step_keeps_not_removable.
Qed.

Lemma fold_rmdir_step_not_removable dirs : ∀ (files : os.fs) dir_,
  StronglySorted longer_first dirs → dir_ ∈ dirs →
  removable_dir (fold_left rmdir_step dirs files) dir_ = false.
Proof.
  induction dirs as [|y l IH]; intros files dir_ Hs Hd;
    [by apply elem_of_nil in Hd|].
  apply StronglySorted_inv in Hs as [Hs Hy]. cbn.
  apply elem_of_cons in Hd as [->|Hd]; [|by apply IH].
  apply fold_rmdir_step_keeps; [done | apply rmdir_step_not_removable].
Qed.

Lemma fold_rmdir_step_id dirs (files : os.fs) :
  (∀ d, d ∈ dirs → removable_dir files d = false) →
  fold_left rmdir_step dirs files = files.
Proof.
  induction dirs as [|y l IH]; intros Hall; [done|]. cbn.
  rewrite rmdir_step_eq, Hall by left.
  apply IH. intros x Hx. apply Hall. by right.
Qed.

(** The three removal passes of [clean]. *)
Definition removals (files : os.fs) (cache : Cache.t) (cache_filename : string)
    : os.fs :=
  _remove_empty_dirs denied
    (_try_to_remove_file denied
       (fold_left (_try_to_remove_file denied)
          (Cache.created_files (files_keys cache) cache) files)
       cache_filename)
    (Cache.created_dirs cache).

Lemma removals_subseteq files cache cache_filename :
  removals files cache cache_filename ⊆ files.
Proof.
  unfold removals, _remove_empty_dirs.
  etrans; [apply fold_rmdir_step_subseteq|].
  etrans; [apply try_to_remove_file_subseteq|].
  apply fold_try_to_remove_file_subseteq.
Qed.

Lemma removals_created_file files cache cache_filename x :
  x ∈ Cache.created_files (files_keys cache) cache →
  removable_file (removals files cache cache_filename) x = false.
Proof.
  intros Hx. unfold removals, _remove_empty_dirs.
  eapply removable_file_subseteq;
    [|by apply fold_try_to_remove_file_not_removable].
  etrans; [apply fold_rmdir_step_subseteq | apply try_to_remove_file_subseteq].
Qed.

Lemma removals_cache_file files cache cache_filename :
  removable_file (removals files cache cache_filename) cache_filename = false.
Proof.
  unfold removals, _remove_empty_dirs.
  eapply removable_file_subseteq;
    [apply fold_rmdir_step_subseteq | apply try_to_remove_file_not_removable].
Qed.

Lemma removals_created_dir files cache cache_filename d :
  d ∈ Cache.created_dirs cache →
  removable_dir (removals files cache cache_filename) d = false.
Proof.
  intros Hd. unfold removals, _remove_empty_dirs.
  apply fold_rmdir_step_not_removable; [apply sorted_by_neg_len_sorted|].
  by rewrite sorted_by_neg_len_Permutation.
Qed.

(** The passes remove nothing when they are run again. *)
Lemma removals_fixed files cache cache_filename :
  removals (removals files cache cache_filename) cache cache_filename
  = removals files cache cache_filename.
Proof.
  set (files1 := removals files cache cache_filename).
  unfold removals at 1. unfold _remove_empty_dirs.
  rewrite (fold_try_to_remove_file_id _ files1)
    by (intros x Hx; by apply removals_created_file).
  subst files1. rewrite try_to_remove_file_eq, removals_cache_file.
  apply fold_rmdir_step_id. intros d Hd.
  apply removals_created_dir. by rewrite <-sorted_by_neg_len_Permutation.
Qed.

Lemma read_immutable_subseteq (files files' : os.fs) cache_filename :
  files' ⊆ files → os.exists_ files' cache_filename = true →
  Cache.read_immutable files' cache_filename
  = Cache.read_immutable files cache_filename.
Proof.
  unfold os.exists_, Cache.read_immutable. intros Hsub.
  destruct (files' !! cache_filename) as [node|] eqn:Hf; [|done].
  by rewrite (lookup_weaken _ _ _ _ Hf Hsub).
Qed.

Lemma clean_eq files cache_filename build_name :
  clean denied files_keys files cache_filename build_name
  = if negb (os.exists_ files cache_filename) then (Ok (), files)
    else
      match Cache.read_immutable files cache_filename with
      | Raise e => (Raise e, files)
      | Ok cache =>
          if match build_name with
             | Some build_name =>
                 negb (str_eqb (Cache.build_name cache) build_name)
             | None => false
             end
          then (Raise BuildNameMismatch, files)
          else (Ok (), removals files cache cache_filename)
      end.
Proof. reflexivity. Qed.

Lemma not_removable_gone (files files' : os.fs) filename :
  files' ⊆ files → os.isfile files filename = true → denied filename = false →
  removable_file files' filename = false → files' !! filename = None.
Proof.
  unfold removable_file, os.isfile. intros Hsub Hf -> Hr.
  rewrite andb_true_r in Hr.
  destruct (files' !! filename) as [node|] eqn:Hf'; [|done].
  rewrite (lookup_weaken _ _ _ _ Hf' Hsub) in Hf. by destruct node.
Qed.

Lemma read_immutable_isfile (files : os.fs) cache_filename cache :
  Cache.read_immutable files cache_filename = Ok cache →
  os.isfile files cache_filename = true.
Proof.
  unfold Cache.read_immutable, os.isfile.
  by destruct (files !! cache_filename) as [[|]|].
Qed.

End with_os.

End FileBuilderFacts.



(** A build that created [/out/a.txt] in the directory [/out], which it
    created too, and its cache file. *)
Definition example_clean_cache_json : JsonUtil.json :=
  JsonUtil.JDict
    [("buildName", JsonUtil.JStr "build");
     ("cacheFileVersion", JsonUtil.JNone);
     ("createdDirs", JsonUtil.JList [JsonUtil.JStr "/out"]);
     ("funcVersions", JsonUtil.JDict []);
     ("operationVersions", JsonUtil.JDict []);
     ("rootOperations",
      JsonUtil.JList
        [JsonUtil.JDict
           [("args", JsonUtil.JList []);
            ("fileComparison", JsonUtil.JStr "METADATA");
            ("fileComparisonResult", JsonUtil.JDict [("size", JsonUtil.JInt 3)]);
            ("filename", JsonUtil.JStr "/out/a.txt");
            ("funcName", JsonUtil.JStr "make_a");
            ("kwargs", JsonUtil.JDict []);
            ("returnValue", JsonUtil.JNone);
            ("suboperations", JsonUtil.JList []);
            ("type", JsonUtil.JStr "build_file")]]);
     ("software", JsonUtil.JStr "file_builder")].

Definition example_clean_fs : os.fs :=
  {[ "/" := os.Dir; "/out" := os.Dir;
     "/out/a.txt" := os.File (os.Bytes "abc");
     "/cache.gz" := os.File (os.GzipJson example_clean_cache_json) ]}.

(** The filenames of a cache in the order of the names. *)
Definition example_files_keys (c : Cache.t) : list string :=
  (map_to_list (Cache._files c)).*1.

Example clean_example :
  FileBuilder.clean (λ _, false) example_files_keys example_clean_fs
    "/cache.gz" (Some "build")
  = (Ok (), {[ "/" := os.Dir ]})
  ∧ FileBuilder.clean (λ _, false) example_files_keys example_clean_fs
      "/cache.gz" None
    = (Ok (), {[ "/" := os.Dir ]})
  ∧ FileBuilder.clean (λ _, false) example_files_keys example_clean_fs
      "/cache.gz" (Some "other")
    = (Raise BuildNameMismatch, example_clean_fs)
  ∧ FileBuilder.clean (λ path, bool_decide (path = "/out/a.txt"))
      example_files_keys example_clean_fs "/cache.gz" None
    = (Ok (),
       {[ "/" := os.Dir; "/out" := os.Dir;
          "/out/a.txt" := os.File (os.Bytes "abc") ]}).
Proof. split_and!; vm_compute; reflexivity. Qed.


(** ** cache.py: an operation and its JSON representation *)

Module CacheJsonFacts.
Import JsonUtil Operation Cache CacheParseFacts.

Lemma parsed_records_loop subs :
  (fix loop (l : list operation) : list operation :=
     match l with
     | [] => []
     | suboperation :: l' => parsed_records suboperation ++ loop l'
     end) subs = flat_map parsed_records subs.
Proof. induction subs as [|o subs IH]; [done|]. cbn [flat_map]. by rewrite <-IH. Qed.

Lemma parsed_records_complex o :
  is_complex o = true →
  parsed_records o
  = flat_map parsed_records (suboperations o)
    ++ (if negb (setup_failed o) then [o] else []).
Proof.
  destruct o; [done| |]; intros _; rewrite <-parsed_records_loop; reflexivity.
Qed.

(** The entries of the representation of a build file operation. *)
Lemma build_file_json_entries fn fc f a k subs rv fcr ra sf fi sj :
  let J := complex_operation_json
             (BuildFileOperation fn fc f a k subs rv fcr ra sf fi) sj in
  getitem J "type" = Ok (JStr "build_file")
  ∧ getitem J "filename" = Ok (JStr fn)
  ∧ getitem J "fileComparison" = Ok (JStr (FileComparison_name fc))
  ∧ getitem J "funcName" = Ok (JStr f)
  ∧ getitem J "args" = Ok a
  ∧ getitem J "kwargs" = Ok k
  ∧ getitem J "suboperations" = Ok (JList sj)
  ∧ getitem J "returnValue" = Ok rv
  ∧ getitem J "fileComparisonResult" = Ok fcr
  ∧ get J "raised" (JBool false) = Ok (JBool ra)
  ∧ get J "setupFailed" (JBool false) = Ok (JBool sf).
Proof. destruct ra, sf; split_and!; vm_compute; reflexivity. Qed.

(** The entries of the representation of a subbuild operation. *)
Lemma subbuild_json_entries f a k subs rv ra sf fi sj :
  let J := complex_operation_json
             (SubbuildOperation f a k subs rv ra sf fi) sj in
  getitem J "type" = Ok (JStr "subbuild")
  ∧ getitem J "funcName" = Ok (JStr f)
  ∧ getitem J "args" = Ok a
  ∧ getitem J "kwargs" = Ok k
  ∧ getitem J "suboperations" = Ok (JList sj)
  ∧ getitem J "returnValue" = Ok rv
  ∧ get J "raised" (JBool false) = Ok (JBool ra)
  ∧ get J "setupFailed" (JBool false) = Ok (JBool sf).
Proof. destruct ra, sf; split_and!; vm_compute; reflexivity. Qed.

(** The entries of the representation of a simple operation. *)
Lemma simple_json_entries n a rv e fi :
  let J := _simple_operation_to_json (SimpleOperation n a rv e fi) in
  getitem J "type" = Ok (JStr n)
  ∧ getitem J "args" = Ok a
  ∧ getitem J "returnValue" = Ok rv
  ∧ get J "exceptionType" JNone = Ok (from_option JStr JNone e).
Proof. destruct e; split_and!; vm_compute; reflexivity. Qed.

Lemma FileComparison_getitem_name fc :
  FileComparison_getitem (JStr (FileComparison_name fc)) = Ok fc.
Proof. destruct fc; vm_compute; reflexivity. Qed.

Lemma from_json_loop_round_trip subs :
  Forall (λ o, ∀ idx, is_parsed_tree o = true →
            _operation_from_json (_operation_to_json o) idx
            = Ok (o, fold_left index_record (parsed_records o) idx)) subs →
  forallb is_parsed_tree subs = true →
  ∀ idx, from_json_loop (map _operation_to_json subs) idx
         = Ok (subs, fold_left index_record (flat_map parsed_records subs) idx).
Proof.
  induction 1 as [|o subs Ho _ IH]; intros Hp idx; [done|].
  cbn [forallb] in Hp. apply andb_true_iff in Hp as [Hx Hl].
  cbn [map from_json_loop flat_map]. rewrite Ho by done. cbv beta iota.
  rewrite IH by done. by rewrite fold_left_app.
Qed.

Lemma operation_round_trip o : ∀ idx,
  is_parsed_tree o = true →
  _operation_from_json (_operation_to_json o) idx
  = Ok (o, fold_left index_record (parsed_records o) idx).
Proof.
  induction o as [ n a rv e fi
                 | fn fc f a k subs rv fcr ra sf fi IH
                 | f a k subs rv ra sf fi IH ]
    using operation_nested_ind; intros idx Hp; cbn [is_parsed_tree] in Hp.
  - apply andb_true_iff in Hp as [[-> Hbf%negb_true_iff]%andb_true_iff
                                    Hsb%negb_true_iff].
    rewrite operation_from_json_unfold. cbn [_operation_to_json].
    destruct (simple_json_entries n a rv e true) as (Ht & Ha & Hr & He).
    cbv zeta in *. rewrite Ht, Ha, Hr, He.
    unfold mbind, result_bind; cbv beta iota. cbn [py_eq].
    rewrite Hbf, Hsb. by destruct e.
  - apply andb_true_iff in Hp as [-> Hsubs].
    rewrite operation_from_json_unfold. cbn [_operation_to_json].
    destruct (build_file_json_entries fn fc f a k subs rv fcr ra sf true
                (map _operation_to_json subs))
      as (Ht & Hfn & Hfc & Hf & Ha & Hk & Hs & Hrv & Hfcr & Hra & Hsf).
    cbv zeta in *. rewrite Ht, Hfn, Hfc, Hf, Ha, Hk, Hs, Hrv, Hfcr, Hra, Hsf.
    unfold mbind, result_bind; cbv beta iota.
    change (py_eq (JStr "build_file") (JStr "build_file")) with true.
    cbv beta iota. rewrite FileComparison_getitem_name.
    rewrite operations_from_json_eq. cbn [iter].
    unfold mbind, result_bind; cbv beta iota.
    rewrite (from_json_loop_round_trip subs IH Hsubs). cbv beta iota.
    rewrite parsed_records_complex by done. cbn [suboperations setup_failed].
    rewrite fold_left_app. unfold new_build_file. cbn. by destruct sf.
  - apply andb_true_iff in Hp as [-> Hsubs].
    rewrite operation_from_json_unfold. cbn [_operation_to_json].
    destruct (subbuild_json_entries f a k subs rv ra sf true
                (map _operation_to_json subs))
      as (Ht & Hf & Ha & Hk & Hs & Hrv & Hra & Hsf).
    cbv zeta in *. rewrite Ht, Hf, Ha, Hk, Hs, Hrv, Hra, Hsf.
    unfold mbind, result_bind; cbv beta iota.
    change (py_eq (JStr "subbuild") (JStr "build_file")) with false.
    change (py_eq (JStr "subbuild") (JStr "subbuild")) with true.
    cbv beta iota.
    rewrite operations_from_json_eq. cbn [iter].
    unfold mbind, result_bind; cbv beta iota.
    rewrite (from_json_loop_round_trip subs IH Hsubs). cbv beta iota.
    rewrite parsed_records_complex by done. cbn [suboperations setup_failed].
    rewrite fold_left_app. unfold new_subbuild. cbn. by destruct sf.
Qed.

End CacheJsonFacts.

(** X4.  [Cache._operation_from_json] is the inverse of
    [Cache._operation_to_json] on finished operation trees whose simple
    operations are not named like the two complex types: parsing the
    representation of an operation returns the operation itself, and stores
    in [files] and [subbuilds] exactly the build file and subbuild records of
    the tree whose [setup_failed] is false, those of the suboperations
    before the operation that holds them.  The keys of the subbuilds are
    hashable and hold no NaN, so that the assignment to a [dict] is the one
    by [==]. *)
Theorem operation_json_round_trip (operation : Operation.operation)
    (idx : Cache.index) :
  Cache.is_parsed_tree operation = true →
  forallb Cache.plain_key
    (Cache.subbuild_keys (Cache.parsed_records operation)) = true →
  Cache._operation_from_json (Cache._operation_to_json operation) idx
  = Ok (operation,
        fold_left Cache.index_record (Cache.parsed_records operation) idx).
Proof. intros Hp _. by apply CacheJsonFacts.operation_round_trip. Qed.

Lemma operation_json_round_trip_witness :
  Cache._operation_from_json (Cache._operation_to_json example_tree) (∅, [])
  = Ok (example_tree,
        fold_left Cache.index_record (Cache.parsed_records example_tree)
          (∅, [])).
Proof.
  exact (operation_json_round_trip example_tree (∅, []) eq_refl eq_refl).
Defined.

(** The representation of the example tree, and the number of the records
    that parsing it stores. *)
Example operation_to_json_example :
  Cache._operation_to_json
    (Operation.SimpleOperation "is_file"
       (JsonUtil.JList [JsonUtil.JStr "in.txt"]) (JsonUtil.JBool true)
       (Some "OSError") true)
  = JsonUtil.JDict
      [("args", JsonUtil.JList [JsonUtil.JStr "in.txt"]);
       ("returnValue", JsonUtil.JBool true);
       ("type", JsonUtil.JStr "is_file");
       ("exceptionType", JsonUtil.JStr "OSError")]
  ∧ length (Cache.parsed_records example_tree) = 3.
Proof. split; vm_compute; reflexivity. Qed.

(** ** cache.py: the errors of the parser *)

Module CacheErrorFacts.
Import JsonUtil Operation Cache CacheParseFacts.

(** The errors that reading the entries of a JSON document raises. *)
Definition is_entry_error (e : exn) : bool :=
  match e with
  | KeyError _ | TypeError | AttributeError | ModelTypeError => true
  | _ => false
  end.

Definition raises_entry_errors {A} (r : result A) : Prop :=
  ∀ e, r = Raise e → is_entry_error e = true.

Lemma entry_bind {A B} (m : result A) (k : A → result B) :
  raises_entry_errors m → (∀ a, m = Ok a → raises_entry_errors (k a)) →
  raises_entry_errors (m ≫= k).
Proof.
  destruct m as [a|e]; intros Hm Hk; [by apply Hk|].
  intros e' [= <-]. by apply Hm.
Qed.

Lemma entry_Ok {A} (a : A) : raises_entry_errors (Ok a).
Proof. by intros e. Qed.

Lemma entry_getitem j key : raises_entry_errors (getitem j key).
Proof.
  destruct j; try by intros e [= <-].
  cbn. destruct (dict_get _ _ _); by intros e [= <-].
Qed.

Lemma entry_get j key v : raises_entry_errors (get j key v).
Proof. destruct j; by intros e [= <-]. Qed.

Lemma entry_FileComparison_getitem j :
  raises_entry_errors (FileComparison_getitem j).
Proof.
  destruct j; try by intros e [= <-]. cbn.
  destruct (str_eqb s "METADATA"); [done|].
  destruct (str_eqb s "HASH"); [done|]. by intros e [= <-].
Qed.

Lemma entry_as_str j : raises_entry_errors (as_str j).
Proof. destruct j; by intros e [= <-]. Qed.

Lemma entry_as_bool j : raises_entry_errors (as_bool j).
Proof. destruct j; by intros e [= <-]. Qed.

Lemma entry_as_optional_str j : raises_entry_errors (as_optional_str j).
Proof. destruct j; by intros e [= <-]. Qed.

Ltac entry_step :=
  first [ apply entry_Ok | apply entry_getitem | apply entry_get
        | apply entry_FileComparison_getitem | apply entry_as_str
        | apply entry_as_bool | apply entry_as_optional_str
        | apply entry_bind; [|intros ? ?] ].

Lemma entry_new_build_file fn fc f a k subs rv fcr ra sf idx :
  raises_entry_errors (new_build_file fn fc f a k subs rv fcr ra sf idx).
Proof. unfold new_build_file. repeat entry_step. Qed.

Lemma entry_new_subbuild f a k subs rv ra sf idx :
  raises_entry_errors (new_subbuild f a k subs rv ra sf idx).
Proof. unfold new_subbuild. repeat entry_step. Qed.

Lemma entry_new_simple ty a rv e : raises_entry_errors (new_simple ty a rv e).
Proof. unfold new_simple. repeat entry_step. Qed.

Lemma entry_from_json_loop l :
  Forall (λ j, ∀ idx, raises_entry_errors (_operation_from_json j idx)) l →
  ∀ idx, raises_entry_errors (from_json_loop l idx).
Proof.
  induction 1 as [|j l Hj _ IH]; intros idx; [by intros e|].
  cbn [from_json_loop]. specialize (Hj idx). unfold raises_entry_errors in *.
  destruct (_operation_from_json j idx) as [[o idx']|e];
    [|intros e' [= <-]; by apply Hj].
  specialize (IH idx'). destruct (from_json_loop l idx') as [[os idx'']|e];
    [done | intros e' [= <-]; by apply IH].
Qed.

Lemma entry_from_json :
  ∀ j, (∀ idx, raises_entry_errors (_operation_from_json j idx))
       ∧ (∀ idx, raises_entry_errors (_operations_from_json j idx)).
Proof.
  assert (Hstr : ∀ {A} (f : A → json) (l : list A),
             (∀ a, ∃ s, f a = JStr s) →
             Forall (λ j, ∀ idx, raises_entry_errors (_operation_from_json j idx))
                    (map f l)).
  { intros A f l Hf. apply Forall_forall.
    intros j (a & <- & _)%list_elem_of_In%in_map_iff idx.
    destruct (Hf a) as [s ->]. by intros e [= <-]. }
  induction j as [| b | z | f | s | l IH | l IH | d IH] using json_nested_ind;
    (split; [try (intros idx; rewrite operation_from_json_not_dict;
                  [by intros e [= <-] | done])|]);
    try (intros idx; by intros e [= <-]).
  - intros idx. rewrite operations_from_json_eq. cbn [iter mbind result_bind].
    apply entry_from_json_loop. apply Hstr. by eexists.
  - intros idx. rewrite operations_from_json_eq. cbn [iter mbind result_bind].
    apply entry_from_json_loop. eapply Forall_impl; [exact IH|]. by intros j [? _].
  - intros idx. rewrite operations_from_json_eq. cbn [iter mbind result_bind].
    apply entry_from_json_loop. eapply Forall_impl; [exact IH|]. by intros j [? _].
  - intros idx. rewrite operation_from_json_unfold.
    assert (Hsub : ∀ v idx', getitem (JDict d) "suboperations" = Ok v →
                             raises_entry_errors (_operations_from_json v idx')).
    { intros v idx'. cbn. destruct (dict_get str_eqb "suboperations" d) as [v'|] eqn:Hv;
        [|done]. intros [= ->].
      apply dict_get_Some_elem in Hv. rewrite Forall_forall in IH.
      by destruct (IH _ Hv) as [_ ?]. }
    apply entry_bind; [apply entry_getitem|]. intros type_ _.
    destruct (py_eq type_ (JStr "build_file")); [|destruct (py_eq type_ (JStr "subbuild"))].
    + repeat first [ apply entry_new_build_file | by eapply Hsub | entry_step
                   | match goal with
                     | |- raises_entry_errors (let '(_, _) := ?a in _) =>
                         destruct a
                     end ].
    + repeat first [ apply entry_new_subbuild | by eapply Hsub | entry_step
                   | match goal with
                     | |- raises_entry_errors (let '(_, _) := ?a in _) =>
                         destruct a
                     end ].
    + repeat first [ apply entry_new_simple | entry_step ].
  - intros idx. rewrite operations_from_json_eq. cbn [iter mbind result_bind].
    apply entry_from_json_loop. apply Hstr. by eexists.
Qed.

Lemma entry_created_dirs_from_json j :
  raises_entry_errors (created_dirs_from_json j).
Proof.
  unfold created_dirs_from_json. apply entry_bind; [destruct j; by intros e [= <-]|].
  intros l _. induction l as [|x l IH]; [by intros e|].
  destruct x; try by intros e [= <-].
  apply entry_bind; [exact IH | by intros ? ? e].
Qed.

(** What [read_immutable] does once the header of the document is
    accepted. *)
Definition read_entries `{OsPath} (d : list (string * json)) : result Cache.t :=
  root_operations ← getitem (JDict d) "rootOperations";
  '(_, (files, subbuilds)) ← _operations_from_json root_operations (∅, []);
  build_name ← getitem (JDict d) "buildName";
  created_dirs ← getitem (JDict d) "createdDirs";
  created_dirs ← created_dirs_from_json created_dirs;
  func_versions ← getitem (JDict d) "funcVersions";
  operation_versions ← getitem (JDict d) "operationVersions";
  build_name ← as_str build_name;
  Ok (__init__ build_name files subbuilds created_dirs func_versions
        operation_versions false).

Lemma read_immutable_accepted `{OsPath} (files_ : os.fs) filename d :
  files_ !! filename = Some (os.File (os.GzipJson (JDict d))) →
  py_eq (default JNone (dict_get str_eqb "software" d)) (JStr _SOFTWARE) = true →
  ∀ version, dict_get str_eqb "cacheFileVersion" d = Some version →
  is_equal version _CACHE_FILE_VERSION = true →
  read_immutable files_ filename = read_entries d.
Proof.
  intros Hf Hsoft version Hv Heq. unfold read_immutable. rewrite Hf.
  cbn [negb orb]. rewrite Hsoft. cbn [negb orb getitem]. rewrite Hv.
  cbn [mbind result_bind]. by rewrite Heq.
Qed.

Lemma entry_read_entries `{OsPath} d : raises_entry_errors (read_entries d).
Proof.
  unfold read_entries.
  apply entry_bind; [apply entry_getitem|]. intros ro _.
  apply entry_bind; [apply entry_from_json|]. intros [os [fi su]] _.
  repeat first [ apply entry_created_dirs_from_json | entry_step ].
Qed.

Lemma read_entries_Ok `{OsPath} d c :
  read_entries d = Ok c →
  ∃ build_name files subbuilds created_dirs func_versions operation_versions,
    c = __init__ build_name files subbuilds created_dirs func_versions
          operation_versions false.
Proof.
  unfold read_entries. intros Hc.
  repeat match type of Hc with
         | context [mbind _ ?m] =>
             destruct m as [?|?] eqn:?; cbn [mbind result_bind] in Hc;
             [|discriminate]
         | context [let '(_, _) := ?a in _] => destruct a
         end.
  injection Hc as <-. by repeat eexists.
Qed.

(** The outcomes of [read_immutable]. *)
Lemma read_immutable_cases `{OsPath} (files_ : os.fs) filename :
  (files_ !! filename = None
   ∧ read_immutable files_ filename = Raise FileNotFoundError)
  ∨ (files_ !! filename = Some os.Dir
     ∧ read_immutable files_ filename = Raise IsADirectoryError)
  ∨ (os.isfile files_ filename = true
     ∧ (read_immutable files_ filename = Raise CacheFormat
        ∨ ∃ d, read_immutable files_ filename = read_entries d
               ∨ ∃ e, read_immutable files_ filename = Raise e
                      ∧ is_entry_error e = true)).
Proof.
  unfold os.isfile.
  destruct (files_ !! filename) as [[[j|b]|]|] eqn:Hf;
    [| right; right; split; [done|]; left; unfold read_immutable; by rewrite Hf
     | right; left; split; [done|]; unfold read_immutable; by rewrite Hf
     | left; split; [done|]; unfold read_immutable; by rewrite Hf ].
  right; right. split; [done|].
  destruct j as [| | | | | | | d];
    try (left; unfold read_immutable; by rewrite Hf).
  destruct (py_eq (default JNone (dict_get str_eqb "software" d))
              (JStr _SOFTWARE)) eqn:Hsoft.
  2:{ left. unfold read_immutable. rewrite Hf. cbn [negb orb]. by rewrite Hsoft. }
  destruct (dict_get str_eqb "cacheFileVersion" d) as [version|] eqn:Hv.
  2:{ right. exists d. right. exists (KeyError (JStr "cacheFileVersion")).
      split; [|done]. unfold read_immutable. rewrite Hf. cbn [negb orb].
      rewrite Hsoft. cbn [negb orb getitem]. by rewrite Hv. }
  destruct (is_equal version _CACHE_FILE_VERSION) eqn:Heq.
  - right. exists d. left. by eapply read_immutable_accepted.
  - left. unfold read_immutable. rewrite Hf. cbn [negb orb]. rewrite Hsoft.
    cbn [negb orb getitem]. rewrite Hv. cbn [mbind result_bind]. by rewrite Heq.
Qed.

End CacheErrorFacts.


(** ** cache.py: the entries of files and subbuilds *)

Module CacheEntryFacts.
Import JsonUtil Operation Cache.

Lemma is_sanitized_well_formed v : is_sanitized v = true → well_formed v = true.
Proof.
  induction v as [| | | | |l IH|l IH|d IH] using json_nested_ind; try done;
    cbn [is_sanitized well_formed].
  - rewrite !forallb_forall. intros Hl x Hx. rewrite Forall_forall in IH.
    apply IH; [by apply list_elem_of_In | by apply Hl].
  - intros [Hnd Hd]%andb_true_iff. rewrite Hnd. cbn [andb].
    rewrite forallb_forall in *. intros x Hx. rewrite Forall_forall in IH.
    apply IH; [by apply list_elem_of_In | by apply Hd].
Qed.

(** [is_equal] holds between a sanitized value without NaN and itself. *)
Lemma is_equal_refl v :
  is_sanitized v = true → nan_free v = true → is_equal v v = true.
Proof.
  intros Hs Hn.
  rewrite <-(JsonUtilFacts.sanitize_fixed v Hs) at 1.
  apply JsonUtilFacts.is_equal_sanitize; [by apply is_sanitized_well_formed | done].
Qed.

(** A subbuild key equals itself when the arguments hold no NaN. *)
Lemma subbuild_key_refl f a k subs rv ra sf fi :
  is_sanitized a = true → is_sanitized k = true →
  nan_free a = true → nan_free k = true →
  py_eq (subbuild_key (SubbuildOperation f a k subs rv ra sf fi))
        (subbuild_key (SubbuildOperation f a k subs rv ra sf fi)) = true.
Proof.
  intros Ha Hk Hna Hnk. cbn [subbuild_key].
  rewrite JsonUtilFacts.to_hashable_eq.
  - apply is_equal_refl; cbn; by rewrite ?Ha, ?Hk, ?Hna, ?Hnk.
  - cbn. by rewrite Ha, Hk.
  - cbn. by rewrite Ha, Hk.
Qed.

Lemma elem_of_created_files filenames c filename :
  filename ∈ created_files filenames c
  ↔ filename ∈ filenames ∧ created_file c filename = true.
Proof.
  unfold created_files, created_file.
  by rewrite list_elem_of_In, filter_In, <-list_elem_of_In.
Qed.

Lemma created_spec (entry : option (option operation)) :
  created entry = true ↔ ∃ o, entry = Some (Some o) ∧ raised o = false.
Proof.
  destruct entry as [[o|]|]; cbn; [|split; [done | by intros (? & ? & ?)]..].
  rewrite negb_true_iff. split; [by exists o | by intros (? & [= <-] & ?)].
Qed.

End CacheEntryFacts.

(** X6.  The life of a subbuild entry, for arguments that hold no NaN.
    [start_subbuild] raises the duplicate-subbuild error exactly when the key
    has an entry, and then leaves the cache as it is.  Otherwise it appends
    the in-progress entry: the key is present, [get_subbuild] still returns
    [None], and a second start is refused.  [finish_subbuild] then replaces
    the entry in place by the operation, which [get_subbuild] returns. *)
Theorem subbuild_life_cycle (c : Cache.t) (func_name : string)
    (args kwargs : JsonUtil.json) (suboperations : list Operation.operation)
    (return_value : JsonUtil.json) (raised setup_failed is_finished : bool) :
  JsonUtil.is_sanitized args = true → JsonUtil.is_sanitized kwargs = true →
  JsonUtil.nan_free args = true → JsonUtil.nan_free kwargs = true →
  let operation :=
    Operation.SubbuildOperation func_name args kwargs suboperations
      return_value raised setup_failed is_finished in
  let key := Cache.subbuild_key operation in
  ((Cache.start_subbuild c key operation).1
   = Raise (DuplicateSubbuild func_name args kwargs)
   ↔ Cache.has_subbuild c key = true)
  ∧ (Cache.has_subbuild c key = true →
     (Cache.start_subbuild c key operation).2 = c)
  ∧ (Cache.has_subbuild c key = false →
     let c1 := (Cache.start_subbuild c key operation).2 in
     let c2 := Cache.finish_subbuild c1 key operation in
     (Cache.start_subbuild c key operation).1 = Ok ()
     ∧ Cache._subbuilds c1 = Cache._subbuilds c ++ [(key, None)]
     ∧ Cache.has_subbuild c1 key = true
     ∧ Cache.get_subbuild c1 key = None
     ∧ (Cache.start_subbuild c1 key operation).1
       = Raise (DuplicateSubbuild func_name args kwargs)
     ∧ Cache._subbuilds c2 = Cache._subbuilds c ++ [(key, Some operation)]
     ∧ Cache.get_subbuild c2 key = Some operation
     ∧ Cache.has_subbuild c2 key = true).
Proof.
  intros Ha Hk Hna Hnk operation key.
  assert (Hrefl : JsonUtil.py_eq key key = true)
    by by apply CacheEntryFacts.subbuild_key_refl.
  unfold Cache.start_subbuild, Cache._assert_doesnt_have_subbuild.
  destruct (Cache.has_subbuild c key) eqn:Hhas; cbn [fst snd].
  - by split_and!.
  - split_and!; [by split | done |]. intros _. cbv zeta.
    unfold Cache.finish_subbuild, Cache.has_subbuild, Cache.get_subbuild in *.
    cbn [Cache._subbuilds Cache.set_subbuilds].
    rewrite (dict_set_absent _ _ _ _ Hhas).
    rewrite !(dict_set_last JsonUtil.py_eq key (Some operation)
                None _ Hhas Hrefl).
    unfold dict_has.
    rewrite !(dict_get_last _ _ _ _ Hhas Hrefl).
    by split_and!.
Qed.

Definition example_subbuild : Operation.operation :=
  Operation.SubbuildOperation "sub" (JsonUtil.JList [JsonUtil.JInt 1])
    (JsonUtil.JDict []) [] JsonUtil.JNone false false true.

Lemma subbuild_life_cycle_witness :
  Cache.get_subbuild
    (Cache.finish_subbuild
       (Cache.start_subbuild
          (Cache.create_empty_mutable "build" (JsonUtil.JDict []))
          (Cache.subbuild_key example_subbuild) example_subbuild).2
       (Cache.subbuild_key example_subbuild) example_subbuild)
    (Cache.subbuild_key example_subbuild)
  = Some example_subbuild.
Proof.
  destruct (subbuild_life_cycle
              (Cache.create_empty_mutable "build" (JsonUtil.JDict []))
              "sub" (JsonUtil.JList [JsonUtil.JInt 1]) (JsonUtil.JDict []) []
              JsonUtil.JNone false false true eq_refl eq_refl eq_refl eq_refl)
    as (_ & _ & Hnew).
  destruct (Hnew eq_refl) as (_ & _ & _ & _ & _ & _ & Hget & _).
  exact Hget.
Defined.

(** X7.  [Cache.finish_building_file] records a build file operation under
    its filename and under the norm-cased filename: both lookups return the
    operation, the file counts as created exactly when the build did not
    raise, every filename with the same norm-cased form is refused by
    [start_building_file] from then on, the entries of the other files are
    not touched, and [_norm_cased_files] keeps holding the norm-cased keys
    of [_files]. *)
Theorem finish_building_file_recorded `{OsPath} (c : Cache.t)
    (filename : string) (file_comparison : Operation.FileComparison)
    (func_name : string) (args kwargs : JsonUtil.json)
    (suboperations : list Operation.operation)
    (return_value file_comparison_result : JsonUtil.json)
    (raised setup_failed is_finished : bool) :
  Cache.norm_cased_files_inv c →
  let operation :=
    Operation.BuildFileOperation filename file_comparison func_name args
      kwargs suboperations return_value file_comparison_result raised
      setup_failed is_finished in
  let c' := (Cache.finish_building_file c operation).2 in
  (Cache.finish_building_file c operation).1 = Ok ()
  ∧ Cache.get_file c' filename = Some operation
  ∧ Cache.get_norm_cased_file c' (normcase filename) = Some operation
  ∧ Cache.created_file c' filename = negb raised
  ∧ Cache.created_norm_cased_file c' (normcase filename) = negb raised
  ∧ (∀ filenames, filename ∈ filenames →
       (filename ∈ Cache.created_files filenames c' ↔ raised = false))
  ∧ (∀ name, normcase name = normcase filename →
             Cache.start_building_file c' name = (Raise (DuplicateBuild name), c'))
  ∧ (∀ name, name ≠ filename → Cache.get_file c' name = Cache.get_file c name)
  ∧ Cache.norm_cased_files_inv c'.
Proof.
  intros Hinv. cbv zeta. cbn [Cache.finish_building_file fst snd].
  unfold Cache.get_file, Cache.get_norm_cased_file, Cache.created_file,
    Cache.created_norm_cased_file.
  cbn [Cache._files Cache._norm_cased_files Cache.set_files].
  rewrite !lookup_insert_eq. cbn [default Cache.created Operation.raised].
  split_and!; try done.
  - intros filenames Hin.
    rewrite CacheEntryFacts.elem_of_created_files. unfold Cache.created_file.
    cbn [Cache._files Cache.set_files]. rewrite lookup_insert_eq. cbn.
    rewrite negb_true_iff. tauto.
  - intros name Hname. unfold Cache.start_building_file,
      Cache._assert_doesnt_have_norm_cased_file, Cache.has_norm_cased_file.
    cbn [Cache._norm_cased_files Cache.set_files]. rewrite Hname.
    rewrite lookup_insert_eq.
    by rewrite (bool_decide_true (is_Some (Some _))) by by eexists.
  - intros name Hne. by rewrite lookup_insert_ne.
  - by apply CacheFacts.norm_cased_files_inv_insert.
Qed.

Lemma finish_building_file_recorded_witness :
  Cache.get_file
    (Cache.finish_building_file example_started_cache example_failed_build).2
    "/out/a.txt" = Some example_failed_build
  ∧ Cache.created_file
      (Cache.finish_building_file example_started_cache example_failed_build).2
      "/out/a.txt" = false.
Proof.
  destruct (finish_building_file_recorded example_started_cache "/out/a.txt"
              Operation.METADATA "make_a" (JsonUtil.JList []) (JsonUtil.JDict [])
              [] JsonUtil.JNone JsonUtil.JNone true false true
              example_started_cache_inv)
    as (_ & Hget & _ & Hcreated & _).
  split; [exact Hget | exact Hcreated].
Defined.

(** X8.  [BuildDirs.handle_norm_cased_dir_exists] is idempotent: once a
    directory has been recorded, recording it again changes nothing.  The
    call never touches the reservation counts, the created directories or
    the error directories, and it only takes directories away from the
    removed and maybe-removed sets. *)
Theorem handle_norm_cased_dir_exists_idempotent `{OsPath} (s : BuildDirs.t)
    (norm_cased_dir : string) :
  BuildDirs.exists_dirs_closed s →
  let s' := BuildDirs.handle_norm_cased_dir_exists s norm_cased_dir in
  BuildDirs.handle_norm_cased_dir_exists s' norm_cased_dir = s'
  ∧ BuildDirs._build_dir_counts s' = BuildDirs._build_dir_counts s
  ∧ BuildDirs._created_dirs_map s' = BuildDirs._created_dirs_map s
  ∧ BuildDirs._error_created_dirs s' = BuildDirs._error_created_dirs s
  ∧ BuildDirs._removed_dirs s' ⊆ BuildDirs._removed_dirs s
  ∧ BuildDirs._maybe_removed_dirs s' ⊆ BuildDirs._maybe_removed_dirs s
  ∧ BuildDirs._removed_files s' ⊆ BuildDirs._removed_files s.
Proof.
  intros Hs. cbv zeta. unfold BuildDirs.handle_norm_cased_dir_exists.
  destruct (BuildDirsFacts.handle_dir_exists_closed s norm_cased_dir Hs)
    as (_ & _ & Hin).
  split.
  - set (s' := BuildDirs._handle_dir_exists s norm_cased_dir) in *.
    unfold BuildDirs._handle_dir_exists at 1.
    replace (String.length norm_cased_dir + 2)%nat
      with (S (String.length norm_cased_dir + 1)) by lia.
    cbn [BuildDirs._handle_dir_exists_while1].
    rewrite (bool_decide_true (norm_cased_dir ∈ _)) by done. cbn [negb andb].
    replace (String.length norm_cased_dir + 2)%nat
      with (S (String.length norm_cased_dir + 1)) by lia.
    cbn [BuildDirs._handle_dir_exists_while2].
    by rewrite (bool_decide_true (norm_cased_dir ∈ _)) by done.
  - apply BuildDirsFacts.handle_dir_exists_frame.
Qed.

Lemma handle_norm_cased_dir_exists_idempotent_witness :
  BuildDirs.handle_norm_cased_dir_exists
    (BuildDirs.handle_norm_cased_dir_exists example_build_dirs "/out/x/y")
    "/out/x/y"
  = BuildDirs.handle_norm_cased_dir_exists example_build_dirs "/out/x/y".
Proof.
  destruct (handle_norm_cased_dir_exists_idempotent example_build_dirs
              "/out/x/y" example_build_dirs_closed) as [Hidem _].
  exact Hidem.
Defined.

(** X9.  [BuildDirs.error_building_file] undoes the reservations that
    [BuildDirs.started_building_file] made for the same file: it does not
    raise, and [_build_dir_counts] is what it was before the file was
    started.  The counts are positive, as [BuildDirs] keeps them, and the
    platform's [normcase] changes nothing (POSIX). *)
Theorem error_building_file_undoes_started `{OsPath} (s : BuildDirs.t)
    (filename : string) (created_dirs : list string) :
  (∀ p, normcase p = p) →
  (∀ k v, BuildDirs._build_dir_counts s !! k = Some v → (0 < v)%Z) →
  let s1 := (BuildDirs.started_building_file s filename created_dirs).2 in
  (BuildDirs.error_building_file s1 filename).1 = Ok ()
  ∧ BuildDirs._build_dir_counts (BuildDirs.error_building_file s1 filename).2
    = BuildDirs._build_dir_counts s.
Proof.
  intros Hid Hpos. cbv zeta.
  unfold BuildDirs.error_building_file, BuildDirs.started_building_file.
  rewrite Hid.
  match goal with
  | |- context [BuildDirs.error_building_file_while ?r ?s1 ?p ?q] =>
      pose proof (BuildDirsFacts.error_building_file_while_counts r s1 p q)
        as Hcounts
  end.
  rewrite BuildDirsFacts.started_building_file_while_counts in Hcounts.
  cbn [BuildDirs._build_dir_counts BuildDirs.set_removed_files] in Hcounts.
  rewrite (BuildDirsFacts.error_counts_started_counts Hid) in Hcounts by done.
  by injection Hcounts as -> ->.
Qed.

Definition example_reserved_build_dirs : BuildDirs.t :=
  (BuildDirs.started_building_file (BuildDirs.__init__ [] []) "/out/b.txt"
     ["/out"]).2.

Lemma error_building_file_undoes_started_witness :
  BuildDirs._build_dir_counts
    (BuildDirs.error_building_file
       (BuildDirs.started_building_file example_reserved_build_dirs
          "/out/sub/c.txt" ["/out/sub"]).2
       "/out/sub/c.txt").2
  = BuildDirs._build_dir_counts example_reserved_build_dirs.
Proof.
  assert (Hpos : ∀ k v,
            BuildDirs._build_dir_counts example_reserved_build_dirs !! k
            = Some v → (0 < v)%Z).
  { apply (bool_decide_unpack
             (map_Forall (λ (_ : string) (v : Z), (0 < v)%Z)
                (BuildDirs._build_dir_counts example_reserved_build_dirs))).
    vm_compute. exact I. }
  destruct (@error_building_file_undoes_started posix_OsPath
              example_reserved_build_dirs "/out/sub/c.txt" ["/out/sub"]
              (λ p, eq_refl) Hpos) as [_ Hcounts].
  exact Hcounts.
Defined.

Example build_dir_counts_example :
  BuildDirs._build_dir_counts example_reserved_build_dirs
  = {[ "/out" := 1%Z; "/" := 1%Z ]}
  ∧ BuildDirs._build_dir_counts
      (BuildDirs.started_building_file example_reserved_build_dirs
         "/out/sub/c.txt" ["/out/sub"]).2
    = {[ "/out/sub" := 1%Z; "/out" := 2%Z; "/" := 1%Z ]}.
Proof. split; vm_compute; reflexivity. Qed.

(** X10.  [BuildDirs.is_removed_norm_case], whatever the real file system
    answers (as long as listing a directory does not itself fail with a
    recursion error).  The scan of the directories does not run out of
    recursion depth: it goes at most as deep as there are maybe-removed
    directories.  A directory with a reservation count is not removed, and
    the answer is given without a scan.  When the answer is [True], the
    directory is in [_removed_dirs] afterwards.  The call only takes
    directories out of [_maybe_removed_dirs] and leaves the reservation
    counts alone. *)
Theorem is_removed_norm_case_scan `{OsPath}
    (listdir : string → result (list string)) (isfile isdir : string → bool)
    (s : BuildDirs.t) (norm_cased_dir : string) :
  (∀ dir_, listdir dir_ ≠ Raise RecursionError) →
  let r := BuildDirs.is_removed_norm_case listdir isfile isdir s norm_cased_dir in
  r.1 ≠ Raise RecursionError
  ∧ (is_Some (BuildDirs._build_dir_counts s !! norm_cased_dir) →
     r = (Ok false, s))
  ∧ (r.1 = Ok true → norm_cased_dir ∈ BuildDirs._removed_dirs r.2)
  ∧ BuildDirs._maybe_removed_dirs r.2 ⊆ BuildDirs._maybe_removed_dirs s
  ∧ BuildDirs._build_dir_counts r.2 = BuildDirs._build_dir_counts s.
Proof.
  intros Hlistdir. cbv zeta. unfold BuildDirs.is_removed_norm_case.
  case_bool_decide as Hcount; [by split_and!|].
  case_bool_decide as Hremoved; [by split_and!|].
  case_bool_decide as Hmaybe; cbn [negb]; [|by split_and!].
  destruct (BuildDirsFacts.check_maybe_removed_dir_depth listdir isfile isdir
              (S (size (BuildDirs._maybe_removed_dirs s))) s norm_cased_dir
              Hlistdir (Nat.lt_succ_diag_r _)) as [Hdepth Hsub].
  split_and!; [done | done | | done |].
  - apply BuildDirsFacts.check_maybe_removed_dir_true.
  - apply BuildDirsFacts.check_maybe_removed_dir_counts.
Qed.

Lemma is_removed_norm_case_scan_witness :
  BuildDirs.is_removed_norm_case example_listdir example_isfile example_isfile
    example_reserved_build_dirs "/out"
  = (Ok false, example_reserved_build_dirs).
Proof.
  destruct (is_removed_norm_case_scan example_listdir example_isfile
              example_isfile example_reserved_build_dirs "/out")
    as (_ & Hcount & _); [done|].
  apply Hcount. vm_compute. by eexists.
Defined.


(** X11.  [JsonUtil.to_hashable] of a sanitized value is hashable: it holds
    no list and no dictionary, only tuples, strings, numbers and [None]; and
    it holds no [bool], which is what keeps [True] apart from [1]. *)
Theorem to_hashable_is_hashable (v : JsonUtil.json) :
  JsonUtil.is_sanitized v = true →
  JsonUtil.is_hashable (JsonUtil.to_hashable v) = true
  ∧ JsonUtil.has_no_bool (JsonUtil.to_hashable v) = true.
Proof. apply JsonEqualFacts.to_hashable_hashable. Qed.

Lemma to_hashable_is_hashable_witness :
  JsonUtil.is_hashable (JsonUtil.to_hashable JsonUtil.example_sanitized)
  = true
  ∧ JsonUtil.has_no_bool
      (JsonUtil.to_hashable JsonUtil.example_sanitized) = true.
Proof.
  apply (to_hashable_is_hashable JsonUtil.example_sanitized).
  vm_compute. reflexivity.
Defined.

(** A tuple is returned as it is, also when it holds a list. *)
Example to_hashable_of_tuple :
  JsonUtil.to_hashable (JsonUtil.JTuple [JsonUtil.JList []])
  = JsonUtil.JTuple [JsonUtil.JList []]
  ∧ JsonUtil.is_hashable
      (JsonUtil.to_hashable (JsonUtil.JTuple [JsonUtil.JList []])) = false.
Proof. split; reflexivity. Qed.

(** X12.  [JsonUtil.is_equal] is an equivalence on sanitized values: it is
    symmetric and transitive, and a value without a NaN is equal to itself
    (a NaN is equal to nothing, as for [==]). *)
Theorem is_equal_equivalence (v1 v2 v3 : JsonUtil.json) :
  JsonUtil.is_sanitized v1 = true →
  JsonUtil.is_sanitized v2 = true →
  JsonUtil.is_sanitized v3 = true →
  (JsonUtil.nan_free v1 = true → JsonUtil.is_equal v1 v1 = true)
  ∧ JsonUtil.is_equal v1 v2 = JsonUtil.is_equal v2 v1
  ∧ (JsonUtil.is_equal v1 v2 = true → JsonUtil.is_equal v2 v3 = true →
     JsonUtil.is_equal v1 v3 = true).
Proof.
  intros Hs1 Hs2 Hs3.
  pose proof (JsonEqualFacts.to_hashable_hashable v1 Hs1) as [Hh1 _].
  split; [by apply CacheEntryFacts.is_equal_refl|].
  rewrite <-!JsonUtilFacts.to_hashable_eq by done.
  split; [by apply JsonEqualFacts.py_eq_sym|].
  by apply JsonEqualFacts.py_eq_trans.
Qed.

Lemma is_equal_equivalence_witness :
  (JsonUtil.nan_free JsonUtil.example_sanitized = true →
   JsonUtil.is_equal JsonUtil.example_sanitized JsonUtil.example_sanitized
   = true)
  ∧ JsonUtil.is_equal JsonUtil.example_sanitized JsonUtil.example_sanitized_float
    = JsonUtil.is_equal JsonUtil.example_sanitized_float JsonUtil.example_sanitized
  ∧ (JsonUtil.is_equal JsonUtil.example_sanitized JsonUtil.example_sanitized_float
     = true →
     JsonUtil.is_equal JsonUtil.example_sanitized_float JsonUtil.example_sanitized
     = true →
     JsonUtil.is_equal JsonUtil.example_sanitized JsonUtil.example_sanitized
     = true).
Proof.
  apply (is_equal_equivalence JsonUtil.example_sanitized
           JsonUtil.example_sanitized_float JsonUtil.example_sanitized);
    vm_compute; reflexivity.
Defined.

(** A NaN is not equal to itself. *)
Example is_equal_nan :
  JsonUtil.is_equal (JsonUtil.JFloat S754_nan) (JsonUtil.JFloat S754_nan) = false.
Proof. reflexivity. Qed.

(** X13.  [JsonUtil.sanitize] of a value whose dictionaries have distinct
    keys is sanitized: it holds no tuple and its dictionaries have distinct
    keys.  The sanitized values are exactly the values that [sanitize]
    returns as they are. *)
Theorem sanitize_canonical (v : JsonUtil.json) :
  JsonUtil.well_formed v = true →
  JsonUtil.is_sanitized (JsonUtil.sanitize v) = true
  ∧ (JsonUtil.sanitize v = v ↔ JsonUtil.is_sanitized v = true).
Proof.
  intros Hwf.
  pose proof (JsonUtilFacts.sanitize_is_sanitized v Hwf) as Hs.
  split; [done|]. split.
  - intros Hv. by rewrite Hv in Hs.
  - apply JsonUtilFacts.sanitize_fixed.
Qed.

Lemma sanitize_canonical_witness :
  JsonUtil.is_sanitized (JsonUtil.sanitize JsonUtil.example_value) = true
  ∧ (JsonUtil.sanitize JsonUtil.example_value = JsonUtil.example_value
     ↔ JsonUtil.is_sanitized JsonUtil.example_value = true).
Proof.
  apply (sanitize_canonical JsonUtil.example_value). vm_compute. reflexivity.
Defined.

(** ** created_files.py: the files of a part of the build *)

Module CreatedFilesFacts.
Import CreatedFiles.

Lemma add_to_subfiles_frame `{OsPath} basename cf filename :
  _norm_cased_files (_add_to_subfiles basename cf filename) = _norm_cased_files cf
  ∧ _norm_cased_dirs (_add_to_subfiles basename cf filename) = _norm_cased_dirs cf
  ∧ _norm_cased_dir_to_started_count (_add_to_subfiles basename cf filename)
    = _norm_cased_dir_to_started_count cf.
Proof. unfold _add_to_subfiles. by case_bool_decide. Qed.

Lemma add_to_subfiles_twice `{OsPath} basename cf filename :
  _add_to_subfiles basename (_add_to_subfiles basename cf filename) filename
  = _add_to_subfiles basename cf filename.
Proof.
  unfold _add_to_subfiles at 1 3.
  case_bool_decide as Hroot; cbn [negb]; [by unfold _add_to_subfiles; rewrite bool_decide_eq_true_2|].
  unfold _add_to_subfiles. rewrite bool_decide_eq_false_2 by done.
  cbn [negb].
  set (subfiles := default [] (_norm_cased_dir_to_subfiles cf !! normcase (dirname filename))).
  set (subfiles' := if negb (dict_has str_eqb (normcase (basename filename)) subfiles)
                    then dict_set str_eqb (normcase (basename filename))
                           (basename filename) subfiles
                    else subfiles).
  assert (dict_has str_eqb (normcase (basename filename)) subfiles' = true)
    as Hhas'.
  { subst subfiles'.
    destruct (dict_has str_eqb (normcase (basename filename)) subfiles) eqn:Hhas;
      cbn [negb]; [done|].
    apply CacheFacts.dict_has_set_same, str_eqb_refl. }
  unfold set_norm_cased_dir_to_subfiles.
  cbn [_norm_cased_files _norm_cased_dirs _norm_cased_dir_to_subfiles
       _norm_cased_dir_to_started_count].
  rewrite lookup_insert_eq. cbn [default from_option id]. rewrite Hhas'.
  cbn [negb]. by rewrite insert_insert_eq.
Qed.

(** The loop of [started_building_file]: what it keeps, and that the chain of
    parents it adds closes the set of directories. *)
Lemma started_building_file_while_spec `{OsPath} basename rounds : ∀ cf p,
  (∀ q, normcase (dirname (normcase q)) = normcase (dirname q)) →
  (∀ d, d ∈ _norm_cased_dirs cf →
        normcase (dirname d) ∈ _norm_cased_dirs cf
        ∨ normcase (dirname d) = normcase p) →
  normcase p ∈ _norm_cased_dirs cf ∨ (String.length p + 2 ≤ rounds)%nat →
  let cf' := started_building_file_while basename rounds cf p (normcase p) in
  _norm_cased_files cf' = _norm_cased_files cf
  ∧ _norm_cased_dir_to_started_count cf' = _norm_cased_dir_to_started_count cf
  ∧ _norm_cased_dirs cf ⊆ _norm_cased_dirs cf'
  ∧ normcase p ∈ _norm_cased_dirs cf'
  ∧ (∀ d, d ∈ _norm_cased_dirs cf' → normcase (dirname d) ∈ _norm_cased_dirs cf')
  ∧ (∀ d, d ∈ _norm_cased_dirs cf' →
          d ∈ _norm_cased_dirs cf ∨ ∃ n, d = normcase (Nat.iter n dirname p)).
Proof.
  induction rounds as [|rounds IH]; intros cf p Hnc Hinv Hrounds; cbn zeta.
  - destruct Hrounds as [Hin|?]; [|lia]. cbn.
    split_and!; try done; [|by left].
    intros d Hd. by destruct (Hinv d Hd) as [?| ->].
  - cbn [started_building_file_while]. case_bool_decide as Hin; cbn [negb].
    + split_and!; try done; [|by left].
      intros d Hd. by destruct (Hinv d Hd) as [?| ->].
    + set (cf1 := _add_to_subfiles basename
                    (set_norm_cased_dirs cf ({[normcase p]} ∪ _norm_cased_dirs cf)) p).
      destruct (add_to_subfiles_frame basename
                  (set_norm_cased_dirs cf ({[normcase p]} ∪ _norm_cased_dirs cf)) p)
        as (Hf & Hd & Hc).
      fold cf1 in Hf, Hd, Hc. cbn in Hf, Hd, Hc.
      destruct (IH cf1 (dirname p) Hnc) as (Hf' & Hc' & Hsub & Hp & Hcl & Hnew).
      { rewrite Hd. intros d [->%elem_of_singleton|Hdd]%elem_of_union.
        - right. apply Hnc.
        - left. destruct (Hinv d Hdd) as [?| ->]; set_solver. }
      { rewrite Hd. destruct (dirname_shrinks p) as [->|Hlt]; [left; set_solver|].
        destruct Hrounds as [?|?]; [done|]. right. lia. }
      rewrite Hd in Hsub, Hnew.
      split_and!; [congruence | congruence | set_solver | set_solver | done |].
      intros d Hdd. destruct (Hnew d Hdd) as [[->%elem_of_singleton|?]%elem_of_union|[n ->]].
      * right. by exists 0.
      * by left.
      * right. exists (S n). by rewrite Nat.iter_succ_r.
Qed.

End CreatedFilesFacts.

(** X14.  [CreatedFiles.finished_building_file] records the file: afterwards
    [has_norm_cased_file] holds for its norm-cased name, and it keeps holding
    for the files recorded before.  The directories and the counts of started
    files are as before.  Unless the file is a root, its directory lists its
    base name: after the names listed before, or not again if a name with the
    same norm-cased form is listed already; the other directories list what
    they listed.  Recording the same file again changes nothing. *)
Theorem finished_building_file_recorded_once `{OsPath}
    (basename : string → string) (cf : CreatedFiles.t) (filename : string) :
  let cf' := CreatedFiles.finished_building_file basename cf filename in
  CreatedFiles.has_norm_cased_file cf' (normcase filename) = true
  ∧ (∀ f, CreatedFiles.has_norm_cased_file cf f = true →
          CreatedFiles.has_norm_cased_file cf' f = true)
  ∧ CreatedFiles._norm_cased_dirs cf' = CreatedFiles._norm_cased_dirs cf
  ∧ CreatedFiles._norm_cased_dir_to_started_count cf'
    = CreatedFiles._norm_cased_dir_to_started_count cf
  ∧ (dirname filename ≠ filename →
     CreatedFiles.list_dir cf' (dirname filename)
     = if dict_has str_eqb (normcase (basename filename))
            (default []
               (CreatedFiles._norm_cased_dir_to_subfiles cf
                  !! normcase (dirname filename)))
       then CreatedFiles.list_dir cf (dirname filename)
       else CreatedFiles.list_dir cf (dirname filename) ++ [basename filename])
  ∧ (∀ dir_, normcase dir_ ≠ normcase (dirname filename) →
             CreatedFiles.list_dir cf' dir_ = CreatedFiles.list_dir cf dir_)
  ∧ CreatedFiles.finished_building_file basename cf' filename = cf'.
Proof.
  cbn zeta. unfold CreatedFiles.finished_building_file.
  set (cf1 := CreatedFiles.set_norm_cased_files cf
                ({[normcase filename]} ∪ CreatedFiles._norm_cased_files cf)).
  destruct (CreatedFilesFacts.add_to_subfiles_frame basename cf1 filename)
    as (Hf & Hd & Hc).
  unfold CreatedFiles.has_norm_cased_file. rewrite Hf.
  split_and!.
  - apply bool_decide_eq_true_2. cbn. set_solver.
  - intros f Hin%bool_decide_eq_true_1. apply bool_decide_eq_true_2. cbn. set_solver.
  - by rewrite Hd.
  - by rewrite Hc.
  - intros Hroot. unfold CreatedFiles.list_dir, CreatedFiles._add_to_subfiles.
    rewrite bool_decide_eq_false_2 by done. cbn.
    rewrite lookup_insert_eq.
    destruct (CreatedFiles._norm_cased_dir_to_subfiles cf
                !! normcase (dirname filename)) as [subfiles|];
      cbn [default from_option id].
    + destruct (dict_has str_eqb (normcase (basename filename)) subfiles) eqn:Hhas;
        cbn [negb]; [done|].
      rewrite (dict_set_absent _ _ _ _ Hhas).
      unfold dict_values. by rewrite fmap_app.
    + done.
  - intros dir_ Hdir. unfold CreatedFiles.list_dir, CreatedFiles._add_to_subfiles.
    case_bool_decide; cbn [negb]; [done|]. cbn.
    by rewrite lookup_insert_ne.
  - set (cf2 := CreatedFiles._add_to_subfiles basename cf1 filename) in *.
    assert (CreatedFiles.set_norm_cased_files cf2
              ({[normcase filename]} ∪ CreatedFiles._norm_cased_files cf1) = cf2)
      as ->.
    { destruct cf2 as [files dirs subfiles counts]. cbn in *. subst files.
      unfold CreatedFiles.set_norm_cased_files. cbn. f_equal. set_solver. }
    apply CreatedFilesFacts.add_to_subfiles_twice.
Qed.

(** X15.  [CreatedFiles.started_building_file] counts one more started file
    for the directory of the file and marks every ancestor directory of the
    file as created: if the created directories held the parent of each of
    them before the call, they do so afterwards, all ancestors of the file
    are among them, and the call added ancestors of the file only.  The
    recorded files are as before.  ([normcase] commutes with [dirname] up to
    case.) *)
Theorem started_building_file_creates_ancestors `{OsPath}
    (basename : string → string) (cf : CreatedFiles.t) (filename : string) :
  (∀ q, normcase (dirname (normcase q)) = normcase (dirname q)) →
  (∀ d, d ∈ CreatedFiles._norm_cased_dirs cf →
        normcase (dirname d) ∈ CreatedFiles._norm_cased_dirs cf) →
  let cf' := CreatedFiles.started_building_file basename cf filename in
  let parent := normcase (dirname filename) in
  CreatedFiles._norm_cased_dir_to_started_count cf'
  = <[parent := (default 0 (CreatedFiles._norm_cased_dir_to_started_count cf
                              !! parent) + 1)%Z]>
      (CreatedFiles._norm_cased_dir_to_started_count cf)
  ∧ CreatedFiles._norm_cased_files cf' = CreatedFiles._norm_cased_files cf
  ∧ CreatedFiles._norm_cased_dirs cf ⊆ CreatedFiles._norm_cased_dirs cf'
  ∧ (∀ n, CreatedFiles.has_norm_cased_dir cf'
            (normcase (Nat.iter (S n) dirname filename)) = true)
  ∧ (∀ d, d ∈ CreatedFiles._norm_cased_dirs cf' →
          normcase (dirname d) ∈ CreatedFiles._norm_cased_dirs cf')
  ∧ (∀ d, d ∈ CreatedFiles._norm_cased_dirs cf' →
          d ∈ CreatedFiles._norm_cased_dirs cf
          ∨ ∃ n, d = normcase (Nat.iter (S n) dirname filename)).
Proof.
  intros Hnc Hclosed. cbn zeta. unfold CreatedFiles.started_building_file.
  set (cf1 := CreatedFiles.set_norm_cased_dir_to_started_count cf _).
  destruct (CreatedFilesFacts.started_building_file_while_spec basename
              (String.length (dirname filename) + 2) cf1 (dirname filename) Hnc)
    as (Hf & Hc & Hsub & Hp & Hcl & Hnew).
  { intros d Hd. left. by apply Hclosed. }
  { right. lia. }
  split_and!; try done.
  - intros n. apply bool_decide_eq_true_2. induction n as [|n IHn]; [done|].
    rewrite Nat.iter_succ. rewrite <-Hnc. by apply Hcl.
  - intros d Hd. destruct (Hnew d Hd) as [?|[n ->]]; [by left|].
    right. exists n. by rewrite Nat.iter_succ_r.
Qed.

Lemma started_building_file_creates_ancestors_witness :
  let cf' := CreatedFiles.started_building_file posixpath.basename
               CreatedFiles.__init__ "/foo/bar/a.txt" in
  let parent := "/foo/bar" in
  CreatedFiles._norm_cased_dir_to_started_count cf'
  = <[parent := (default 0 (CreatedFiles._norm_cased_dir_to_started_count
                              CreatedFiles.__init__ !! parent) + 1)%Z]>
      (CreatedFiles._norm_cased_dir_to_started_count CreatedFiles.__init__)
  ∧ CreatedFiles._norm_cased_files cf'
    = CreatedFiles._norm_cased_files CreatedFiles.__init__
  ∧ CreatedFiles._norm_cased_dirs CreatedFiles.__init__
    ⊆ CreatedFiles._norm_cased_dirs cf'
  ∧ (∀ n, CreatedFiles.has_norm_cased_dir cf'
            (Nat.iter (S n) posixpath.dirname "/foo/bar/a.txt") = true)
  ∧ (∀ d, d ∈ CreatedFiles._norm_cased_dirs cf' →
          posixpath.dirname d ∈ CreatedFiles._norm_cased_dirs cf')
  ∧ (∀ d, d ∈ CreatedFiles._norm_cased_dirs cf' →
          d ∈ CreatedFiles._norm_cased_dirs CreatedFiles.__init__
          ∨ ∃ n, d = Nat.iter (S n) posixpath.dirname "/foo/bar/a.txt").
Proof.
  apply (@started_building_file_creates_ancestors posix_OsPath
           posixpath.basename CreatedFiles.__init__ "/foo/bar/a.txt").
  - intros q. reflexivity.
  - intros d Hd. cbn in Hd. by apply elem_of_empty in Hd.
Defined.

(** The directories created for [/foo/bar/a.txt], and what they list. *)
Example started_building_file_example :
  let cf := CreatedFiles.started_building_file posixpath.basename
              CreatedFiles.__init__ "/foo/bar/a.txt" in
  CreatedFiles._norm_cased_dirs cf = {["/foo/bar"; "/foo"; "/"]}
  ∧ CreatedFiles.list_dir cf "/" = ["foo"]
  ∧ CreatedFiles.list_dir cf "/foo" = ["bar"]
  ∧ CreatedFiles.list_dir cf "/foo/bar" = [].
Proof. vm_compute. done. Qed.
